(** * Technical-analysis engine of the watchlist screener

    A shallow embedding of [technical_analysis.py] (class
    [TechnicalAnalyzer]) and of the passing-view filter of [app.py]
    (route [analyze_watchlist]), with the properties of the indicator
    evaluators and of the per-ticker orchestrator.

    Modelling conventions.
    - A Python [float] is a rational extended with the two infinities
      and NaN ([float] below).  Comparisons and the special values
      follow IEEE 754; the sign of zero is not tracked.
    - The operations of [Float] do not round.  The methods of class
      [TechnicalAnalyzer] are first given with these operations; they
      carry the properties that do not depend on the digits of an
      indicator: statuses, messages, shapes, exceptions and effects on
      the store.  The methods whose verdict compares computed numbers
      (EMA crossover, MACD, short-squeeze risk) are given again in
      [Rounded] with the arithmetic as an argument: [binary64] rounds
      every result to the nearest double as the interpreter does,
      [exact] does not round, and what is proved for every arithmetic
      holds of both.  Without rounding the two presentations coincide
      ([get_macd_exact], [check_ema_crossover_exact],
      [check_short_squeeze_risk_exact]).
    - A pandas [Series] is the list of its values, in index order; a
      [DataFrame] is its index together with a finite map from column
      names to series.
    - A Python exception is a value of [exn]; code that can raise returns
      [exc A].
    - Frames are objects: the orchestrator receives references into a
      store of frames and may update the store. *)

From Stdlib Require Import QArith Lqa.
From stdpp Require Import gmap strings list fin_maps sorting.

Open Scope string_scope.

(** ** Numbers *)

Module Float.

Inductive float : Type :=
| Fin (q : Q)
| PInf
| NInf
| NaN.

Definition Qlt_bool (x y : Q) : bool := negb (Qle_bool y x).

Definition of_Z (z : Z) : float := Fin (inject_Z z).

Definition isnan (x : float) : bool :=
  match x with NaN => true | _ => false end.

Definition notna (x : float) : bool := negb (isnan x).

(** [x < y]; false as soon as one side is NaN. *)
Definition ltb (x y : float) : bool :=
  match x, y with
  | NaN, _ | _, NaN => false
  | Fin a, Fin b => Qlt_bool a b
  | NInf, NInf => false
  | NInf, _ => true
  | _, PInf => match x with PInf => false | _ => true end
  | PInf, _ => false
  | Fin _, NInf => false
  end.

(** [x == y]. *)
Definition eqb (x y : float) : bool :=
  match x, y with
  | Fin a, Fin b => Qeq_bool a b
  | PInf, PInf | NInf, NInf => true
  | _, _ => false
  end.

(** [x <= y]. *)
Definition leb (x y : float) : bool := ltb x y || eqb x y.

(** [x > y] and [x != y] as Python writes them. *)
Definition gtb (x y : float) : bool := ltb y x.
Definition neb (x y : float) : bool := negb (eqb x y).

Definition neg (x : float) : float :=
  match x with
  | Fin a => Fin (Qred (- a))
  | PInf => NInf
  | NInf => PInf
  | NaN => NaN
  end.

Definition add (x y : float) : float :=
  match x, y with
  | NaN, _ | _, NaN => NaN
  | Fin a, Fin b => Fin (Qred (a + b))
  | PInf, NInf | NInf, PInf => NaN
  | PInf, _ | _, PInf => PInf
  | NInf, _ | _, NInf => NInf
  end.

Definition sub (x y : float) : float := add x (neg y).

(** The infinity with the sign of [s * q]; NaN when [q] is zero. *)
Definition inf_times (positive : bool) (q : Q) : float :=
  if Qeq_bool q 0 then NaN
  else if xorb positive (Qlt_bool 0 q) then NInf else PInf.

Definition mul (x y : float) : float :=
  match x, y with
  | NaN, _ | _, NaN => NaN
  | Fin a, Fin b => Fin (Qred (a * b))
  | PInf, Fin b | Fin b, PInf => inf_times true b
  | NInf, Fin b | Fin b, NInf => inf_times false b
  | PInf, PInf | NInf, NInf => PInf
  | PInf, NInf | NInf, PInf => NInf
  end.

(** numpy division: a non-zero number over zero is an infinity, zero
    over zero is NaN. *)
Definition div (x y : float) : float :=
  match x, y with
  | NaN, _ | _, NaN => NaN
  | Fin a, Fin b =>
      if Qeq_bool b 0 then
        if Qeq_bool a 0 then NaN
        else if Qlt_bool 0 a then PInf else NInf
      else Fin (Qred (a / b))
  | Fin _, _ => Fin 0
  | _, PInf | _, NInf => NaN
  | PInf, Fin b => if Qlt_bool b 0 then NInf else PInf
  | NInf, Fin b => if Qlt_bool b 0 then PInf else NInf
  end.

Definition max (x y : float) : float := if ltb x y then y else x.

(** Python truthiness of a float: only zero is false. *)
Definition truthy (x : float) : bool :=
  match x with Fin a => negb (Qeq_bool a 0) | _ => true end.

End Float.

Export Float.

Declare Scope float_scope.
Delimit Scope float_scope with float.
Bind Scope float_scope with float.
Infix "+" := Float.add : float_scope.
Infix "-" := Float.sub : float_scope.
Infix "*" := Float.mul : float_scope.
Infix "/" := Float.div : float_scope.
Infix "<?" := Float.ltb : float_scope.
Infix "<=?" := Float.leb : float_scope.
Infix ">?" := Float.gtb : float_scope.
Notation "- x" := (Float.neg x) : float_scope.

(** ** Exceptions *)

Inductive exn : Type :=
| KeyError (key : string)
| IndexError
| ValueError (what : string)
| ZeroDivisionError
| AttributeError
| LibraryError (what : string).

Inductive exc (A : Type) : Type :=
| Ok (a : A)
| Raise (e : exn).

Arguments Ok {A} a.
Arguments Raise {A} e.

Definition exc_bind {A B : Type} (m : exc A) (k : A -> exc B) : exc B :=
  match m with
  | Ok a => k a
  | Raise e => Raise e
  end.

Notation "x <- m ;;; k" := (exc_bind m (fun x => k))
  (at level 100, m at next level, right associativity).

(** ** pandas series *)

Abbreviation Series := (list float).

(** [pd.Series(dtype='float64')]. *)
Definition empty_series : Series := [].

(** [s.iloc[i]] for a Python integer [i]; negative positions count from
    the end. *)
Definition iloc (s : Series) (i : Z) : exc float :=
  let n := Z.of_nat (length s) in
  let j := (if i <? 0 then n + i else i)%Z in
  if ((j <? 0) || (n <=? j))%Z then Raise IndexError
  else match s !! Z.to_nat j with
       | Some x => Ok x
       | None => Raise IndexError
       end.

(** [s.iloc[-k:]]: the last [k] values (all of them when there are fewer). *)
Definition iloc_last (k : nat) (s : Series) : Series :=
  drop (length s - k) s.

Definition dropna (s : Series) : Series := List.filter notna s.

(** [s.diff()]. *)
Fixpoint diff_from (prev : float) (s : Series) : Series :=
  match s with
  | [] => []
  | x :: rest => (x - prev)%float :: diff_from x rest
  end.

Definition diff (s : Series) : Series :=
  match s with
  | [] => []
  | x :: rest => NaN :: diff_from x rest
  end.

(** [s.clip(lower=0)] and [s.clip(upper=0)]; NaN stays NaN. *)
Definition clip_lower (lo : float) (s : Series) : Series :=
  (fun x => if (x <? lo)%float then lo else x) <$> s.

Definition clip_upper (hi : float) (s : Series) : Series :=
  (fun x => if (hi <? x)%float then hi else x) <$> s.

Definition series_neg (s : Series) : Series := Float.neg <$> s.

(** [a - b] and [a / b] on series sharing one index. *)
Definition series_sub : Series -> Series -> Series := zip_with Float.sub.
Definition series_div : Series -> Series -> Series := zip_with Float.div.

(** [s.shift(1)]. *)
Definition shift1 (s : Series) : Series :=
  match s with
  | [] => []
  | _ => NaN :: take (length s - 1) s
  end.

(** *** Exponentially weighted mean, [adjust=False], [ignore_na=False]

    pandas' loop.  The running value starts at the first observation.
    [old_wt] decays by [1 - alpha] at every step and returns to one at
    an observation; an observation [cur] that differs from the running
    value replaces it by
    [(old_wt * weighted + new_wt * cur) / (old_wt + new_wt)].  [new_wt]
    starts as [alpha]; with a centre of mass [(1 - alpha) / alpha] of
    one it is reset to [1 - old_wt] at each such observation.  The
    output is NaN until [minp] observations were seen. *)
Fixpoint ewm_loop (alpha : float) (minp : nat)
    (weighted old_wt new_wt : float) (nobs : nat) (vals : Series) : Series :=
  match vals with
  | [] => []
  | cur :: rest =>
      let is_observation := notna cur in
      let nobs := if is_observation then S nobs else nobs in
      let '(weighted, old_wt, new_wt) :=
        if notna weighted then
          let old_wt := (old_wt * (of_Z 1 - alpha))%float in
          if is_observation then
            if Float.neb weighted cur then
              let new_wt :=
                if Float.eqb ((of_Z 1 - alpha) / alpha) (of_Z 1)
                then (of_Z 1 - old_wt)%float
                else new_wt in
              (((old_wt * weighted + new_wt * cur) / (old_wt + new_wt))%float,
               of_Z 1, new_wt)
            else (weighted, of_Z 1, new_wt)
          else (weighted, old_wt, new_wt)
        else if is_observation then (cur, old_wt, new_wt)
        else (weighted, old_wt, new_wt) in
      (if (minp <=? nobs)%nat then weighted else NaN)
        :: ewm_loop alpha minp weighted old_wt new_wt nobs rest
  end.

Definition ewm_mean (alpha : float) (min_periods : nat) (vals : Series) : Series :=
  match vals with
  | [] => []
  | first :: rest =>
      let minp := Nat.max min_periods 1 in
      let nobs := if notna first then 1 else 0 in
      (if (minp <=? nobs)%nat then first else NaN)
        :: ewm_loop alpha minp first (of_Z 1) alpha nobs rest
  end.

(** [s.ewm(span=span, adjust=False).mean()]: pandas refuses a span below
    one; the smoothing factor is [2 / (span + 1)]. *)
Definition ewm_span (span : Z) (s : Series) : exc Series :=
  if (span <? 1)%Z then Raise (ValueError "span must satisfy: span >= 1")
  else Ok (ewm_mean (Fin (2 # Z.to_pos (span + 1))) 0 s).

(** [s.ewm(alpha=alpha, min_periods=minp, adjust=False).mean()]: pandas
    refuses a factor outside (0, 1]. *)
Definition ewm_alpha (alpha : float) (min_periods : Z) (s : Series) : exc Series :=
  if (of_Z 0 <? alpha)%float && (alpha <=? of_Z 1)%float
  then Ok (ewm_mean alpha (Z.to_nat min_periods) s)
  else Raise (ValueError "alpha must satisfy: 0 < alpha <= 1").

(** *** Rolling windows, [min_periods = window]

    The value at position [i] aggregates positions [i - window + 1 .. i];
    it is NaN unless the window is complete and free of NaN. *)
Definition window_at (window i : nat) (s : Series) : Series :=
  take window (drop (S i - window) s).

Definition rolling (agg : Series -> float) (window : nat) (s : Series) : Series :=
  (fun i =>
     if (window <=? S i)%nat && forallb notna (window_at window i s)
     then agg (window_at window i s)
     else NaN)
    <$> seq 0 (length s).

Definition series_sum (w : Series) : float :=
  fold_left Float.add w (of_Z 0).

Definition series_mean (w : Series) : float :=
  (series_sum w / of_Z (Z.of_nat (length w)))%float.

Definition series_max (w : Series) : float :=
  match w with
  | [] => NaN
  | x :: rest => fold_left Float.max rest x
  end.

Definition rolling_mean : nat -> Series -> Series := rolling series_mean.
Definition rolling_max : nat -> Series -> Series := rolling series_max.

(** ** pandas frames *)

Record DataFrame : Type := mkFrame {
  index : list Z;
  columns : gmap string Series
}.

#[global] Instance DataFrame_inhabited : Inhabited DataFrame :=
  populate (mkFrame [] ∅).

(** [pd.DataFrame()]. *)
Definition empty_frame : DataFrame := mkFrame [] ∅.

(** [len(df)]: the number of rows. *)
Definition len (df : DataFrame) : nat := length (index df).

(** [df.empty]: one of the two axes has length zero. *)
Definition df_empty (df : DataFrame) : bool :=
  (len df =? 0)%nat || (size (columns df) =? 0)%nat.

(** [name in df.columns]. *)
Definition has_column (name : string) (df : DataFrame) : bool :=
  match columns df !! name with
  | Some _ => true
  | None => false
  end.

(** [df[name]]. *)
Definition getitem (df : DataFrame) (name : string) : exc Series :=
  match columns df !! name with
  | Some s => Ok s
  | None => Raise (KeyError name)
  end.

(** Alignment of an assigned series on the frame's index.  The series
    assigned by this program are derived from the frame itself (same
    index, stored as they are) or empty (no label in common with the
    frame: every row becomes NaN). *)
Definition align_to (df : DataFrame) (s : Series) : Series :=
  if (length s =? len df)%nat then s else replicate (len df) NaN.

(** [df[name] = s], as a new frame value. *)
Definition setitem (df : DataFrame) (name : string) (s : Series) : DataFrame :=
  mkFrame (index df) (<[name := align_to df s]> (columns df)).

(** [float(df.iloc[-1][name])]. *)
Definition last_row_get (df : DataFrame) (name : string) : exc float :=
  if (len df =? 0)%nat then Raise IndexError
  else s <- getitem df name;;; iloc s (-1).

(** Every column has one value per row. *)
Definition wf_frame (df : DataFrame) : Prop :=
  map_Forall (fun _ (s : Series) => length s = len df) (columns df).

(** ** Verdicts *)

Definition PASS : string := "✅".
Definition WARN : string := "⚠️".
Definition FAIL : string := "❌".

(** A message: a literal, a literal around a number printed with two
    decimals ([{x:.2f}]), or a literal followed by the text of an
    exception. *)
Inductive message_text : Type :=
| Text (s : string)
| Text2f (before : string) (x : float) (after : string)
| TextExc (before : string) (e : exn).

(** The ["value"] payload of a verdict. *)
Inductive payload : Type :=
| PNone
| PFloat (x : float)
| PDict (items : list (string * float))
| PStr (s : string).

Record Verdict : Type := mkVerdict {
  status : string;
  message : message_text;
  value : payload
}.

(** [try: body  except Exception as e: handler(e)]. *)
Definition try_except {A : Type} (body : exc A) (handler : exn -> A) : exc A :=
  match body with
  | Ok a => Ok a
  | Raise e => Ok (handler e)
  end.

(** ** The [ta] library

    [ADXIndicator(high, low, close, window)] builds an object whose
    methods [adx()], [adx_pos()] and [adx_neg()] return series; both the
    construction and each method may raise. *)
Record ADXObject : Type := mkADX {
  adx : exc Series;
  adx_pos : exc Series;
  adx_neg : exc Series
}.

Definition ta_library : Type := Series -> Series -> Series -> Z -> exc ADXObject.

(** ** The data-source client

    [api_client.get_next_earnings_date(ticker)] answers with a date (or
    [None]) and an error text; it catches its own failures. *)
Record ApiClient : Type := mkClient {
  get_next_earnings_date : string -> option string * string
}.

(** ** class TechnicalAnalyzer *)

Section TechnicalAnalyzer.

Variable ADXIndicator : ta_library.

(** [1 / period] on Python integers. *)
Definition py_inverse (period : Z) : exc float :=
  if (period =? 0)%Z then Raise ZeroDivisionError
  else Ok (of_Z 1 / of_Z period)%float.

Definition calculate_rsi (df : DataFrame) (period : Z) : exc Series :=
  if negb (has_column "Close" df) || (Z.of_nat (len df) <? period)%Z
  then Ok empty_series
  else
    close <- getitem df "Close";;;
    let delta := diff close in
    let gain := clip_lower (of_Z 0) delta in
    let loss := series_neg (clip_upper (of_Z 0) delta) in
    alpha <- py_inverse period;;;
    avg_gain <- ewm_alpha alpha period gain;;;
    avg_loss <- ewm_alpha alpha period loss;;;
    let rs := series_div avg_gain avg_loss in
    let rsi :=
      (fun r => of_Z 100 - (of_Z 100 / (of_Z 1 + r)))%float <$> rs in
    Ok rsi.

Definition check_rsi_condition (df : DataFrame) : exc Verdict :=
  match columns df !! "RSI" with
  | None => Ok (mkVerdict FAIL (Text "Not enough RSI data") PNone)
  | Some rsi =>
      if (length (dropna rsi) <? 2)%nat
      then Ok (mkVerdict FAIL (Text "Not enough RSI data") PNone)
      else
        let recent_rsi := iloc_last 2 (dropna rsi) in
        current_rsi <- iloc recent_rsi (-1);;;
        previous_rsi <- iloc recent_rsi (-2);;;
        let is_in_range :=
          ((of_Z 30 <=? current_rsi) && (current_rsi <=? of_Z 60)
           && ((of_Z 30 <=? previous_rsi) && (previous_rsi <=? of_Z 60)))%float in
        let is_rising := (current_rsi >? previous_rsi)%float in
        if is_in_range && is_rising
        then Ok (mkVerdict PASS
                   (Text2f "RSI is between 30-60 and rising (" current_rsi ")")
                   (PFloat current_rsi))
        else Ok (mkVerdict FAIL
                   (Text2f "RSI condition not met (" current_rsi ")")
                   (PFloat current_rsi))
  end.

Definition get_macd (data : DataFrame) (fast slow signal_period : Z)
  : exc (Series * Series) :=
  if (Z.of_nat (len data) <? slow)%Z then Ok (empty_series, empty_series)
  else
    close <- getitem data "Close";;;
    ema_fast <- ewm_span fast close;;;
    close <- getitem data "Close";;;
    ema_slow <- ewm_span slow close;;;
    let macd := series_sub ema_fast ema_slow in
    signal_line <- ewm_span signal_period macd;;;
    Ok (macd, signal_line).

Definition check_macd_crossover_or_rising (macd signal : Series) : exc Verdict :=
  let macd := dropna macd in
  let signal := dropna signal in
  if (length macd <? 2)%nat || (length signal <? 2)%nat
  then Ok (mkVerdict FAIL (Text "Not enough MACD data") PNone)
  else
    macd_last <- iloc macd (-1);;;
    macd_prev <- iloc macd (-2);;;
    signal_last <- iloc signal (-1);;;
    signal_prev <- iloc signal (-2);;;
    let crossover :=
      ((macd_last >? signal_last) && (macd_prev <=? signal_prev))%float in
    let is_rising := (macd_last >? macd_prev)%float in
    if crossover || is_rising
    then Ok (mkVerdict PASS
               (Text "MACD is rising or has crossed above the signal line")
               (PDict [("macd", macd_last); ("signal", signal_last)]))
    else Ok (mkVerdict FAIL
               (Text "MACD condition not met")
               (PDict [("macd", macd_last); ("signal", signal_last)])).

Definition check_dmi_trend (df : DataFrame) : exc Verdict :=
  if (len df <? 28)%nat
  then Ok (mkVerdict FAIL (Text "Not enough data for DMI calculation") PNone)
  else
    try_except
      (high <- getitem df "High";;;
       low <- getitem df "Low";;;
       close <- getitem df "Close";;;
       indicator <- ADXIndicator high low close 14%Z;;;
       adx_values <- adx indicator;;;
       plus_di <- adx_pos indicator;;;
       minus_di <- adx_neg indicator;;;
       last_adx <- iloc adx_values (-1);;;
       last_plus_di <- iloc plus_di (-1);;;
       last_minus_di <- iloc minus_di (-1);;;
       let items := [("adx", last_adx); ("plus_di", last_plus_di);
                     ("minus_di", last_minus_di)] in
       if ((last_adx >? of_Z 20) && (last_plus_di >? last_minus_di))%float
       then Ok (mkVerdict PASS
                  (Text2f "Bullish DMI trend confirmed (ADX: " last_adx ")")
                  (PDict items))
       else Ok (mkVerdict FAIL
                  (Text2f "DMI condition not met (ADX: " last_adx ")")
                  (PDict items)))
      (fun e => mkVerdict FAIL (TextExc "Error calculating DMI: " e) PNone).

Definition check_ema_crossover (df : DataFrame) (fast slow : Z) : exc Verdict :=
  if (Z.of_nat (len df) <? slow)%Z
  then Ok (mkVerdict FAIL (Text "Not enough data for EMA calculation") PNone)
  else
    close <- getitem df "Close";;;
    ema_fast <- ewm_span fast close;;;
    close <- getitem df "Close";;;
    ema_slow <- ewm_span slow close;;;
    if (len df <? 2)%nat
    then Ok (mkVerdict FAIL (Text "Not enough data to check for crossover") PNone)
    else
      prev_fast <- iloc ema_fast (-2);;;
      prev_slow <- iloc ema_slow (-2);;;
      curr_fast <- iloc ema_fast (-1);;;
      curr_slow <- iloc ema_slow (-1);;;
      let items := [("ema_fast", curr_fast); ("ema_slow", curr_slow)] in
      if ((prev_fast <=? prev_slow) && (curr_fast >? curr_slow))%float
      then Ok (mkVerdict PASS (Text "EMA 8 just crossed above EMA 21") (PDict items))
      else Ok (mkVerdict FAIL (Text "No recent bullish EMA crossover") (PDict items)).

Definition check_short_squeeze_risk (df : DataFrame) : exc Verdict :=
  if (len df <? 30)%nat
  then Ok (mkVerdict FAIL (Text "Not enough data for squeeze analysis") PNone)
  else
    try_except
      (close <- getitem df "Close";;;
       let ma20 := rolling_mean 20 close in
       volume <- getitem df "Volume";;;
       let volume_avg20 := rolling_mean 20 volume in
       volume <- getitem df "Volume";;;
       let rvol := series_div volume volume_avg20 in
       close <- getitem df "Close";;;
       let resistance := shift1 (rolling_max 30 close) in
       last_close <- last_row_get df "Close";;;
       last_resistance <- iloc resistance (-1);;;
       last_rvol <- iloc rvol (-1);;;
       let has_breakout :=
         ((last_close >? last_resistance) && (last_rvol >? of_Z 2))%float in
       let items := [("rvol", last_rvol); ("resistance", last_resistance);
                     ("price", last_close)] in
       if has_breakout
       then Ok (mkVerdict WARN
                  (Text2f "Potential short squeeze risk detected! Price broke resistance on high relative volume (RVOL: "
                          last_rvol ")")
                  (PDict items))
       else Ok (mkVerdict PASS (Text "No major short squeeze risk detected")
                  (PDict items)))
      (fun e => mkVerdict FAIL (TextExc "Error analyzing squeeze risk: " e) PNone).

End TechnicalAnalyzer.

(** ** Python dictionaries with insertion order *)

Fixpoint dict_get {V : Type} (d : list (string * V)) (k : string) : option V :=
  match d with
  | [] => None
  | (k', v) :: rest => if String.eqb k' k then Some v else dict_get rest k
  end.

(** [d[k] = v]: an existing key keeps its place, a new one goes last. *)
Fixpoint dict_set {V : Type} (d : list (string * V)) (k : string) (v : V)
  : list (string * V) :=
  match d with
  | [] => [(k, v)]
  | (k', v') :: rest =>
      if String.eqb k' k then (k', v) :: rest
      else (k', v') :: dict_set rest k v
  end.

(** ** The store of frames

    A frame passed to the analyzer is a reference to an object; [df[name]
    = s] updates the object every holder of the reference sees. *)
Abbreviation ref := nat.

Definition store_monad (A : Type) : Type :=
  gmap ref DataFrame -> exc A * gmap ref DataFrame.

Definition ret {A : Type} (a : A) : store_monad A := fun h => (Ok a, h).

Definition bind {A B : Type} (m : store_monad A) (k : A -> store_monad B)
  : store_monad B :=
  fun h =>
    match m h with
    | (Ok a, h') => k a h'
    | (Raise e, h') => (Raise e, h')
    end.

Notation "x <~ m ;; k" := (bind m (fun x => k))
  (at level 100, m at next level, right associativity).

(** A computation on values, which may raise. *)
Definition lift {A : Type} (r : exc A) : store_monad A := fun h => (r, h).

(** The frame a reference denotes. *)
Definition deref (l : ref) : store_monad DataFrame :=
  fun h => (Ok (h !!! l), h).

(** [df[name] = s] on the object behind [l]. *)
Definition assign_column (l : ref) (name : string) (s : Series)
  : store_monad unit :=
  fun h => (Ok tt, <[l := setitem (h !!! l) name s]> h).

(** ** The orchestrator *)

(** The values an analysis result holds: the ticker and asset type are
    strings, the price is a small dictionary, every criterion is a
    verdict. *)
Inductive entry : Type :=
| EStr (s : string)
| EPrice (value : option float) (formatted : message_text)
| EVerdict (v : Verdict).

Abbreviation result := (list (string * entry)).

(** [criteria.get(name)] used as a condition. *)
Definition criterion (criteria : gmap string bool) (name : string) : bool :=
  match criteria !! name with
  | Some b => b
  | None => false
  end.

(** Truthiness of [current_price] ([None] and zero are false) and of
    [earnings_date] ([None] and the empty string are false). *)
Definition price_truthy (p : option float) : bool :=
  match p with
  | Some x => Float.truthy x
  | None => false
  end.

Definition date_truthy (d : option string) : bool :=
  match d with
  | Some s => negb (String.eqb s "")
  | None => false
  end.

(** The dictionary [analyze_ticker] starts from. *)
Definition initial_result (ticker asset_type : string)
    (current_price : option float) : result :=
  [("ticker", EStr ticker);
   ("asset_type", EStr asset_type);
   ("current_price",
    EPrice current_price
      (if price_truthy current_price
       then Text2f "$" (default NaN current_price) ""
       else Text "N/A"))].

(** The verdict built from the answer of the data source. *)
Definition earnings_verdict (api_client : ApiClient) (ticker : string) : Verdict :=
  let '(earnings_date, earnings_error) :=
    get_next_earnings_date api_client ticker in
  mkVerdict
    (if date_truthy earnings_date then PASS else FAIL)
    (Text (if date_truthy earnings_date
           then default "" earnings_date
           else earnings_error))
    (match earnings_date with
     | Some d => PStr d
     | None => PNone
     end).

Section Orchestrator.

Variable ADXIndicator : ta_library.

Definition analyze_ticker (ticker asset_type : string) (data_df daily_df : ref)
    (current_price : option float) (criteria : gmap string bool)
    (api_client : ApiClient) : store_monad result :=
  let result := initial_result ticker asset_type current_price in
  data <~ deref data_df;;
  result <~
    (if negb (df_empty data) then
       result <~
         (if criterion criteria "rsi_confirmation" then
            data <~ deref data_df;;
            rsi <~ lift (calculate_rsi data 14);;
            _ <~ assign_column data_df "RSI" rsi;;
            data <~ deref data_df;;
            v <~ lift (check_rsi_condition data);;
            ret (dict_set result "rsi_confirmation" (EVerdict v))
          else ret result);;
       result <~
         (if criterion criteria "dmi_confirmation"
             && String.eqb asset_type "Stock" then
            daily <~ deref daily_df;;
            v <~ lift (check_dmi_trend ADXIndicator daily);;
            ret (dict_set result "dmi_confirmation" (EVerdict v))
          else ret result);;
       result <~
         (if criterion criteria "ema_crossover"
             && String.eqb asset_type "Stock" then
            daily <~ deref daily_df;;
            v <~ lift (check_ema_crossover daily 8 21);;
            ret (dict_set result "ema_crossover" (EVerdict v))
          else ret result);;
       result <~
         (if criterion criteria "macd_crossover"
             && String.eqb asset_type "Stock" then
            daily <~ deref daily_df;;
            series <~ lift (get_macd daily 8 21 9);;
            v <~ lift (check_macd_crossover_or_rising series.1 series.2);;
            ret (dict_set result "macd_crossover" (EVerdict v))
          else ret result);;
       result <~
         (if criterion criteria "weekly_macd"
             && String.eqb asset_type "Stock" then
            data <~ deref data_df;;
            series <~ lift (get_macd data 12 26 9);;
            v <~ lift (check_macd_crossover_or_rising series.1 series.2);;
            ret (dict_set result "weekly_macd" (EVerdict v))
          else ret result);;
       (if criterion criteria "avoid_squeeze"
           && String.eqb asset_type "Stock" then
          daily <~ deref daily_df;;
          v <~ lift (check_short_squeeze_risk daily);;
          ret (dict_set result "avoid_squeeze" (EVerdict v))
        else ret result)
     else ret result);;
  (if criterion criteria "next_earning_date"
      && String.eqb asset_type "Stock" then
     ret (dict_set result "next_earning_date"
            (EVerdict (earnings_verdict api_client ticker)))
   else ret result).

End Orchestrator.

(** ** The passing view of [analyze_watchlist] *)

Definition metadata_keys : list string := ["ticker"; "asset_type"; "current_price"].

Definition string_in (s : string) (l : list string) : bool :=
  existsb (String.eqb s) l.

(** [value.get('status')]: a string has no [get]; a dictionary without
    the key answers [None]. *)
Definition get_status (value : entry) : exc (option string) :=
  match value with
  | EStr _ => Raise AttributeError
  | EPrice _ _ => Ok None
  | EVerdict v => Ok (Some (status v))
  end.

(** [any(value.get('status') in ['✅', '⚠️'] for key, value in
    result.items() if key not in [...])], left to right, stopping at the
    first hit. *)
Fixpoint any_passing (items : result) : exc bool :=
  match items with
  | [] => Ok false
  | (key, value) :: rest =>
      if string_in key metadata_keys then any_passing rest
      else
        st <- get_status value;;;
        if match st with
           | Some s => string_in s [PASS; WARN]
           | None => false
           end
        then Ok true
        else any_passing rest
  end.

(** [[result for result in results if any(...)]]. *)
Fixpoint passing_results (results : list result) : exc (list result) :=
  match results with
  | [] => Ok []
  | r :: rest =>
      keep <- any_passing r;;;
      kept <- passing_results rest;;;
      Ok (if keep then r :: kept else kept)
  end.

(** ** The specification's vocabulary *)

Module Spec.

(** The last two points of a series, [(previous, last)]. *)
Definition last_two (s : Series) : option (float * float) :=
  match rev s with
  | last :: prev :: _ => Some (prev, last)
  | _ => None
  end.

(** The last two defined (non-absent) points of a series. *)
Definition last_two_defined (s : Series) : option (float * float) :=
  last_two (dropna s).

(** Resistance: the maximum close of the 30 bars before the current
    (last) bar; absent unless those 30 bars exist and are all defined. *)
Definition resistance_excluding_current (close : Series) : float :=
  let before := take (length close - 1) close in
  let window := drop (length before - 30) before in
  if (30 <=? length before)%nat && forallb notna window
  then series_max window
  else NaN.

(** The exponential moving average with smoothing factor [alpha]: it
    starts at the first value and moves towards each new value by
    [alpha] times the distance. *)
Fixpoint ema_from (alpha prev : Q) (xs : list Q) : list Q :=
  match xs with
  | [] => []
  | x :: rest =>
      let y := ((1 - alpha) * prev + alpha * x)%Q in
      y :: ema_from alpha y rest
  end.

Definition ema (alpha : Q) (xs : list Q) : list Q :=
  match xs with
  | [] => []
  | x :: rest => x :: ema_from alpha x rest
  end.

(** Two floats denoting the same number. *)
Definition same_number (x y : float) : Prop :=
  match x, y with
  | Fin a, Fin b => (a == b)%Q
  | PInf, PInf | NInf, NInf | NaN, NaN => True
  | _, _ => False
  end.

(** The six criteria the orchestrator runs on bar data. *)
Definition indicator_criteria : list string :=
  ["rsi_confirmation"; "dmi_confirmation"; "ema_crossover";
   "macd_crossover"; "weekly_macd"; "avoid_squeeze"].


End Spec.

(** ** Effects and shapes *)

(** A computation that leaves the store of frames as it found it. *)
Definition preserves_store {A : Type} (m : store_monad A) : Prop :=
  forall h, (m h).2 = h.

(** A computation whose only possible effect is to set the RSI column
    of the frame behind [l]. *)
Definition sets_rsi_only {A : Type} (l : ref) (m : store_monad A) : Prop :=
  forall h,
    (m h).2 = h
    \/ exists s : Series, (m h).2 = <[l := setitem (h !!! l) "RSI" s]> h.

(** A computation whose results all satisfy [Q], whatever the store. *)
Definition yields (Q : result -> Prop) (m : store_monad result) : Prop :=
  forall h r, (m h).1 = Ok r -> Q r.

(** The status a criterion may carry: Pass or Fail, and Warn for the
    short-squeeze criterion only. *)
Definition status_allowed (key : string) (v : Verdict) : Prop :=
  status v = PASS \/ status v = FAIL
  \/ (status v = WARN /\ key = "avoid_squeeze").

(** An analysis result: strings and the price under the metadata keys,
    verdicts of allowed status under every other key. *)
Definition entry_well_formed (item : string * entry) : Prop :=
  match item.2 with
  | EVerdict v => string_in item.1 metadata_keys = false /\ status_allowed item.1 v
  | _ => string_in item.1 metadata_keys = true
  end.

Definition result_well_formed (r : result) : Prop :=
  Forall entry_well_formed r.

(** What the passing filter needs of a result: outside the metadata keys
    every value is a dictionary. *)
Definition criteria_are_dicts (r : result) : Prop :=
  Forall (fun item : string * entry =>
            string_in item.1 metadata_keys = false ->
            match item.2 with EStr _ => False | _ => True end) r.

(** The verdict of the MACD evaluator, from the last two defined points
    [(previous, last)] of the MACD line and of the signal line. *)
Definition macd_verdict_of (macd signal : option (float * float)) : Verdict :=
  match macd, signal with
  | Some (macd_prev, macd_last), Some (signal_prev, signal_last) =>
      if ((macd_last >? signal_last) && (macd_prev <=? signal_prev)
          || (macd_last >? macd_prev))%float
      then mkVerdict PASS
             (Text "MACD is rising or has crossed above the signal line")
             (PDict [("macd", macd_last); ("signal", signal_last)])
      else mkVerdict FAIL (Text "MACD condition not met")
             (PDict [("macd", macd_last); ("signal", signal_last)])
  | _, _ => mkVerdict FAIL (Text "Not enough MACD data") PNone
  end.

(** An entry that puts its result in the passing view: a criterion
    (not a metadata key) whose verdict is Pass or Warn. *)
Definition passing_entry (item : string * entry) : Prop :=
  string_in item.1 metadata_keys = false
  /\ exists v, item.2 = EVerdict v /\ (status v = PASS \/ status v = WARN).

(** ** Sample inputs *)

Module Samples.

Definition flat (n : nat) (x : Z) : Series := replicate n (of_Z x).

(** A frame with one row per value, from its columns. *)
Definition frame (rows : nat) (cols : list (string * Series)) : DataFrame :=
  mkFrame (Z.of_nat <$> seq 0 rows) (list_to_map cols).


(** The same prices on unchanged volume. *)
Definition squeeze_flat_volume : DataFrame :=
  frame 31 [("Close", (flat 30 100 ++ [of_Z 105])%list);
            ("Volume", flat 31 1000)].

(** Close = 10, ..., 10, 9, 11: the fast average crosses at the last bar. *)
Definition ema_cross_at_last_bar : DataFrame :=
  frame 21 [("Close", (flat 19 10 ++ [of_Z 9; of_Z 11])%list)].

(** One more bar at 11: the crossover is one bar old. *)
Definition ema_cross_one_bar_earlier : DataFrame :=
  frame 22 [("Close", (flat 19 10 ++ [of_Z 9; of_Z 11; of_Z 11])%list)].

(** 21 bars whose table lacks the Close column. *)
Definition frame_without_close : DataFrame :=
  frame 21 [("Open", flat 21 10); ("High", flat 21 11);
            ("Low", flat 21 9); ("Volume", flat 21 1000)].

(** A [ta] library whose indicator always fails. *)
Definition failing_ta : ta_library :=
  fun _ _ _ _ => Raise (LibraryError "unavailable").

(** A data source without earnings. *)
Definition no_earnings : ApiClient :=
  mkClient (fun _ => (None, "No upcoming earnings found.")).

Definition all_criteria : gmap string bool :=
  list_to_map
    [("avoid_squeeze", true); ("rsi_confirmation", true);
     ("dmi_confirmation", true); ("ema_crossover", true);
     ("macd_crossover", true); ("weekly_macd", true);
     ("next_earning_date", true)].

(** A result whose only criterion failed, and one with a warning. *)
Definition all_fail_result : result :=
  (initial_result "AAA" "Stock" None
   ++ [("rsi_confirmation",
        EVerdict (mkVerdict FAIL (Text "Not enough RSI data") PNone))])%list.

Definition one_warn_result : result :=
  (initial_result "BBB" "Stock" (Some (of_Z 105))
   ++ [("rsi_confirmation",
        EVerdict (mkVerdict FAIL (Text "Not enough RSI data") PNone));
       ("avoid_squeeze",
        EVerdict (mkVerdict WARN (Text "Potential short squeeze") PNone))])%list.

(** Reference 0 is the long series, reference 1 the daily one. *)
Definition store_of (long daily : DataFrame) : gmap nat DataFrame :=
  <[0 := long]> (<[1 := daily]> ∅).

End Samples.

(** ** Rounding to binary64 *)

Module Binary64.

(** The power of two [2^k] as a rational. *)
Definition pow2 (k : Z) : Q :=
  if (0 <=? k)%Z then inject_Z (2 ^ k) else 1 # Z.to_pos (2 ^ (- k)).

(** [floor (log2 (n / d))] for positive [n] and [d]. *)
Definition ilog2 (n d : positive) : Z :=
  let k := (Z.log2 (Zpos n) - Z.log2 (Zpos d))%Z in
  if Qle_bool (pow2 k) (Zpos n # d) then k else (k - 1)%Z.

(** The nearest integer to [num / den], ties to even. *)
Definition nearest_even (num den : Z) : Z :=
  let q := (num / den)%Z in
  let r := (num mod den)%Z in
  match (2 * r ?= den)%Z with
  | Lt => q
  | Gt => (q + 1)%Z
  | Eq => if Z.even q then q else (q + 1)%Z
  end.

(** A positive rational rounded to the nearest double; [None] is
    overflow. *)
Definition round_pos (n d : positive) : option Q :=
  let e := Z.max (ilog2 n d - 52) (-1074) in
  let m :=
    if (0 <=? e)%Z then nearest_even (Zpos n) (Zpos d * 2 ^ e)
    else nearest_even (Zpos n * 2 ^ (- e)) (Zpos d) in
  let y := Qred (inject_Z m * pow2 e) in
  if Qle_bool (pow2 1024) y then None else Some y.

(** [x] rounded to the nearest double, ties to even; a magnitude that
    rounds to [2^1024] or more becomes an infinity.  The sign of zero
    is not tracked. *)
Definition round (x : float) : float :=
  match x with
  | Fin (Zpos n # d) =>
      match round_pos n d with Some y => Fin y | None => PInf end
  | Fin (Zneg n # d) =>
      match round_pos n d with Some y => Fin (Qred (- y)) | None => NInf end
  | Fin (0 # _) => Fin 0
  | _ => x
  end.

End Binary64.

(** ** Arithmetic as the code performs it

    The four operations whose result Python, numpy and pandas round.
    [exact] does not round (the convention of [Float]); [binary64]
    rounds each result to the nearest double, ties to even, as IEEE 754
    prescribes.  The evaluators below take the arithmetic as an
    argument: what is proved of them for every arithmetic holds of the
    code as it runs.  Comparisons, maxima and the special values need no
    rounding and are those of [Float]. *)

Record arithmetic : Type := mkArithmetic {
  fadd : float -> float -> float;
  fsub : float -> float -> float;
  fmul : float -> float -> float;
  fdiv : float -> float -> float
}.

Definition exact : arithmetic :=
  mkArithmetic Float.add Float.sub Float.mul Float.div.

Definition binary64 : arithmetic :=
  mkArithmetic
    (fun x y => Binary64.round (x + y)%float)
    (fun x y => Binary64.round (x - y)%float)
    (fun x y => Binary64.round (x * y)%float)
    (fun x y => Binary64.round (x / y)%float).

(** A decimal literal, as Python reads it. *)
Definition literal (q : Q) : float := Binary64.round (Fin q).

(** ** The evaluators that compare computed numbers

    [get_macd], [check_ema_crossover] and [check_short_squeeze_risk] of
    class [TechnicalAnalyzer] once more, with the arithmetic as an
    argument.  pandas computes the centre of mass of a span in Python,
    [(span - 1) / 2], and its loop derives the smoothing factor from
    it, [1 / (1 + com)]; both divisions are rounded. *)

Module Rounded.

Section Engine.

Variable A : arithmetic.

(** [a - b] and [a / b] on series sharing one index. *)
Definition series_sub : Series -> Series -> Series := zip_with (fsub A).
Definition series_div : Series -> Series -> Series := zip_with (fdiv A).

(** *** Exponentially weighted mean, [adjust=False], [ignore_na=False]

    pandas' loop over the values after the first.  [old_wt] decays by
    [old_wt_factor] at every step and returns to one at an observation;
    an observation that differs from the running value replaces it by
    [(old_wt * weighted + new_wt * cur) / (old_wt + new_wt)].  With a
    centre of mass of one, [new_wt] is first reset to [1 - old_wt]. *)
Fixpoint ewm_loop (com old_wt_factor : float) (minp : nat)
    (weighted old_wt new_wt : float) (nobs : nat) (vals : Series) : Series :=
  match vals with
  | [] => []
  | cur :: rest =>
      let is_observation := notna cur in
      let nobs := if is_observation then S nobs else nobs in
      let '(weighted, old_wt, new_wt) :=
        if notna weighted then
          let old_wt := fmul A old_wt old_wt_factor in
          if is_observation then
            if Float.neb weighted cur then
              let new_wt :=
                if Float.eqb com (of_Z 1) then fsub A (of_Z 1) old_wt
                else new_wt in
              let weighted :=
                fadd A (fmul A old_wt weighted) (fmul A new_wt cur) in
              (fdiv A weighted (fadd A old_wt new_wt), of_Z 1, new_wt)
            else (weighted, of_Z 1, new_wt)
          else (weighted, old_wt, new_wt)
        else if is_observation then (cur, old_wt, new_wt)
        else (weighted, old_wt, new_wt) in
      (if (minp <=? nobs)%nat then weighted else NaN)
        :: ewm_loop com old_wt_factor minp weighted old_wt new_wt nobs rest
  end.

(** The smoothing factor pandas derives from the centre of mass. *)
Definition alpha_of (com : float) : float :=
  fdiv A (of_Z 1) (fadd A (of_Z 1) com).

Definition ewm_mean (com : float) (min_periods : nat) (vals : Series) : Series :=
  let alpha := alpha_of com in
  let old_wt_factor := fsub A (of_Z 1) alpha in
  match vals with
  | [] => []
  | first :: rest =>
      let minp := Nat.max min_periods 1 in
      let nobs := if notna first then 1 else 0 in
      (if (minp <=? nobs)%nat then first else NaN)
        :: ewm_loop com old_wt_factor minp first (of_Z 1) alpha nobs rest
  end.

(** The centre of mass of a span, [(span - 1) / 2]. *)
Definition com_of_span (span : Z) : float :=
  fdiv A (of_Z (span - 1)) (of_Z 2).

(** [s.ewm(span=span, adjust=False).mean()]. *)
Definition ewm_span (span : Z) (s : Series) : exc Series :=
  if (span <? 1)%Z then Raise (ValueError "span must satisfy: span >= 1")
  else Ok (ewm_mean (com_of_span span) 0 s).

Definition get_macd (data : DataFrame) (fast slow signal_period : Z)
  : exc (Series * Series) :=
  if (Z.of_nat (len data) <? slow)%Z then Ok (empty_series, empty_series)
  else
    close <- getitem data "Close";;;
    ema_fast <- ewm_span fast close;;;
    close <- getitem data "Close";;;
    ema_slow <- ewm_span slow close;;;
    let macd := series_sub ema_fast ema_slow in
    signal_line <- ewm_span signal_period macd;;;
    Ok (macd, signal_line).

Definition check_ema_crossover (df : DataFrame) (fast slow : Z) : exc Verdict :=
  if (Z.of_nat (len df) <? slow)%Z
  then Ok (mkVerdict FAIL (Text "Not enough data for EMA calculation") PNone)
  else
    close <- getitem df "Close";;;
    ema_fast <- ewm_span fast close;;;
    close <- getitem df "Close";;;
    ema_slow <- ewm_span slow close;;;
    if (len df <? 2)%nat
    then Ok (mkVerdict FAIL (Text "Not enough data to check for crossover") PNone)
    else
      prev_fast <- iloc ema_fast (-2);;;
      prev_slow <- iloc ema_slow (-2);;;
      curr_fast <- iloc ema_fast (-1);;;
      curr_slow <- iloc ema_slow (-1);;;
      let items := [("ema_fast", curr_fast); ("ema_slow", curr_slow)] in
      if ((prev_fast <=? prev_slow) && (curr_fast >? curr_slow))%float
      then Ok (mkVerdict PASS (Text "EMA 8 just crossed above EMA 21") (PDict items))
      else Ok (mkVerdict FAIL (Text "No recent bullish EMA crossover") (PDict items)).

(** [s.rolling(window).mean()].  pandas keeps a running sum from one
    window to the next, with a compensation term, and how it does so
    is its own affair: the evaluator is given the rolling mean it
    calls, and the properties assume of it only that it returns one
    value per row. *)
Variable rolling_mean : nat -> Series -> Series.

Definition check_short_squeeze_risk (df : DataFrame) : exc Verdict :=
  if (len df <? 30)%nat
  then Ok (mkVerdict FAIL (Text "Not enough data for squeeze analysis") PNone)
  else
    try_except
      (close <- getitem df "Close";;;
       let ma20 := rolling_mean 20 close in
       volume <- getitem df "Volume";;;
       let volume_avg20 := rolling_mean 20 volume in
       volume <- getitem df "Volume";;;
       let rvol := series_div volume volume_avg20 in
       close <- getitem df "Close";;;
       let resistance := shift1 (rolling_max 30 close) in
       last_close <- last_row_get df "Close";;;
       last_resistance <- iloc resistance (-1);;;
       last_rvol <- iloc rvol (-1);;;
       let has_breakout :=
         ((last_close >? last_resistance) && (last_rvol >? of_Z 2))%float in
       let items := [("rvol", last_rvol); ("resistance", last_resistance);
                     ("price", last_close)] in
       if has_breakout
       then Ok (mkVerdict WARN
                  (Text2f "Potential short squeeze risk detected! Price broke resistance on high relative volume (RVOL: "
                          last_rvol ")")
                  (PDict items))
       else Ok (mkVerdict PASS (Text "No major short squeeze risk detected")
                  (PDict items)))
      (fun e => mkVerdict FAIL (TextExc "Error analyzing squeeze risk: " e) PNone).

End Engine.

(** A rolling mean that sums each window on its own, in index order. *)
Definition mean_in_order (A : arithmetic) : nat -> Series -> Series :=
  rolling (fun w =>
             fdiv A (fold_left (fadd A) w (of_Z 0))
               (of_Z (Z.of_nat (length w)))).

End Rounded.

(** ** The specification's vocabulary, over an arithmetic *)

Module RoundedSpec.

Section Vocabulary.

Variable A : arithmetic.

(** The smoothing factor of a span, [1 / (1 + (span - 1) / 2)]; without
    rounding it is [2 / (span + 1)]. *)
Definition smoothing (span : Z) : float :=
  fdiv A (of_Z 1) (fadd A (of_Z 1) (fdiv A (of_Z (span - 1)) (of_Z 2))).

(** One step of the exponential moving average: the average so far and
    the new value are weighted by [1 - alpha] and [alpha], and the sum
    is divided by the sum of the weights.  An average that equals the
    new value stays; an undefined average restarts at the new value. *)
Definition ema_step (alpha prev x : float) : float :=
  if isnan prev then x
  else if Float.eqb prev x then prev
  else
    let keep := fmul A (of_Z 1) (fsub A (of_Z 1) alpha) in
    fdiv A (fadd A (fmul A keep prev) (fmul A alpha x)) (fadd A keep alpha).

(** With a centre of mass of one pandas takes as weight of a new value
    one minus the decayed weight of the old one.  On a series without
    gaps that is the smoothing factor again when the arithmetic gives
    [1 - 1 * (1 - alpha) = alpha], as it does without rounding and, for
    the factor 1/2 of that case, in binary64. *)
Definition regular (com alpha : float) : Prop :=
  Float.eqb com (of_Z 1) = true ->
  fsub A (of_Z 1) (fmul A (of_Z 1) (fsub A (of_Z 1) alpha)) = alpha.

Fixpoint ema_from (alpha prev : float) (xs : Series) : Series :=
  match xs with
  | [] => []
  | x :: rest =>
      let y := ema_step alpha prev x in
      y :: ema_from alpha y rest
  end.

(** The exponential moving average of a series of defined values. *)
Definition ema (alpha : float) (xs : Series) : Series :=
  match xs with
  | [] => []
  | x :: rest => x :: ema_from alpha x rest
  end.



End Vocabulary.

(** The last close is above each close of the 30 bars before it, which
    exist and are all defined. *)
Definition breaks_resistance (close : Series) : bool :=
  match last close with
  | Some current =>
      let before := take (length close - 1) close in
      let window := drop (length before - 30) before in
      (30 <=? length before)%nat && forallb notna window
      && forallb (fun x => current >? x)%float window
  | None => false
  end.

End RoundedSpec.

(** ** Inputs on which rounding decides *)

Module RoundingSamples.

(** 19 bars at 102, then 3 and 170. *)
Definition ema_rounding_pass : DataFrame :=
  Samples.frame 21
    [("Close", (Samples.flat 19 102 ++ [of_Z 3; of_Z 170])%list)].

(** One more bar at 171. *)
Definition ema_rounding_fail : DataFrame :=
  Samples.frame 22
    [("Close", (Samples.flat 19 102 ++ [of_Z 3; of_Z 170; of_Z 171])%list)].




End RoundingSamples.

(** ** Ranges of indicator values *)

(** A value that is absent or a non-negative finite number. *)
Definition nonneg_or_nan (x : float) : Prop :=
  match x with
  | Fin q => (0 <= q)%Q
  | NaN => True
  | _ => False
  end.

(** A value that is absent or a finite number between 0 and 100. *)
Definition percent_or_nan (x : float) : Prop :=
  match x with
  | Fin q => (0 <= q <= 100)%Q
  | NaN => True
  | _ => False
  end.

(** A value that is absent or finite. *)
Definition finite_or_nan (x : float) : Prop :=
  match x with
  | Fin _ | NaN => True
  | _ => False
  end.

(** ** Outcomes of store computations *)

(** The computation returns and leaves the store as it was. *)
Definition returns_same {A : Type} (m : store_monad A) (h : gmap nat DataFrame)
  : Prop :=
  exists a, m h = (Ok a, h).

(** The computation raises [e]. *)
Definition raises {A : Type} (e : exn) (m : store_monad A) (h : gmap nat DataFrame)
  : Prop :=
  exists h', m h = (Raise e, h').

(** A frame whose Close column is present and has one value per row. *)
Definition has_close (df : DataFrame) : Prop :=
  exists close, columns df !! "Close" = Some close /\ length close = len df.

(** ** The criteria an analysis result reports *)

(** The criteria in the order the orchestrator runs them. *)
Definition criteria_order : list string :=
  ["rsi_confirmation"; "dmi_confirmation"; "ema_crossover"; "macd_crossover";
   "weekly_macd"; "avoid_squeeze"; "next_earning_date"].

(** A criterion is reported when its flag is set, the asset is a Stock
    or the criterion is the RSI one, and the long series has data or the
    criterion is the earnings one. *)
Definition reports (criteria : gmap string bool) (asset_type : string)
    (has_data : bool) (key : string) : bool :=
  criterion criteria key
  && (String.eqb key "rsi_confirmation" || String.eqb asset_type "Stock")
  && (has_data || String.eqb key "next_earning_date").

Definition reported_criteria (criteria : gmap string bool) (asset_type : string)
    (has_data : bool) : list string :=
  List.filter (reports criteria asset_type has_data) criteria_order.

(** [result[key] = verdict] when [b] holds, nothing otherwise. *)
Definition set_if (b : bool) (key : string) (v : Verdict) (r : result) : result :=
  if b then dict_set r key (EVerdict v) else r.

(** The entry a step appends: one verdict when [b] holds. *)
Definition opt_entry (b : bool) (key : string) (v : Verdict) : result :=
  if b then [(key, EVerdict v)] else [].

(** ** More sample inputs *)

Module MoreSamples.

(** A table with an RSI column whose last two defined values rise
    inside the band. *)
Definition rsi_rising : DataFrame :=
  Samples.frame 4 [("RSI", [NaN; Fin 40; NaN; Fin 45])].

(** 15 bars of rising prices. *)
Definition fifteen_bars : DataFrame :=
  Samples.frame 15 [("Close", (fun i => of_Z (Z.of_nat (100 + i))) <$> seq 0 15)].

(** A [ta] library answering with fixed indicator values. *)
Definition steady_ta : ta_library :=
  fun _ _ _ _ =>
    Ok (mkADX (Ok [Fin 25]) (Ok [Fin 30]) (Ok [Fin 10])).

(** 28 bars with the three price columns. *)
Definition hlc_frame : DataFrame :=
  Samples.frame 28 [("High", Samples.flat 28 11); ("Low", Samples.flat 28 9);
                    ("Close", Samples.flat 28 10)].

(** 30 bars of a flat price. *)
Definition flat_frame : DataFrame :=
  Samples.frame 30 [("Close", Samples.flat 30 100)].

(** Four bars, for short spans. *)
Definition four_bars : DataFrame :=
  Samples.frame 4 [("Close", Fin <$> [10; 12; 11; 13]%Q)].

End MoreSamples.

(** ** database.py: the watchlist table

    The SQLite file is modelled by the table it holds: its rows in rowid
    order and the largest rowid handed out so far (AUTOINCREMENT), or
    nothing as long as [init_db] has not created the table.  Each method
    returns its Python result together with the lines it prints.  The
    model covers a file that can be opened and written; the one failure
    it has is the missing table. *)

Record WatchRow : Type := mkRow {
  row_id : Z;
  row_ticker : string;
  row_asset_type : string;
  row_added_at : string;
  row_created_at : string
}.

Record WatchTable : Type := mkTable {
  table_rows : list WatchRow;
  table_sequence : Z
}.

(** The dictionary a query returns for one row. *)
Record WatchItem : Type := mkItem {
  item_ticker : string;
  item_asset_type : string;
  item_added_at : string
}.

Definition item_of (r : WatchRow) : WatchItem :=
  mkItem (row_ticker r) (row_asset_type r) (row_added_at r).

(** The text of [sqlite3.OperationalError] for a missing table. *)
Definition no_such_table : string := "no such table: watchlist".

(** [WHERE ticker = ?]. *)
Definition ticker_is (key : string) (r : WatchRow) : bool :=
  String.eqb (row_ticker r) key.

(** [ORDER BY added_at DESC]: each row is followed by rows whose
    [added_at] text is not greater. *)
Definition newest_first (a b : WatchRow) : Prop :=
  String.leb (row_added_at b) (row_added_at a) = true.

Section DatabaseManager.

(** [str.upper]. *)
Variable upper : string -> string.

(** The row order the engine chooses for [ORDER BY added_at DESC]; rows
    with equal [added_at] may come in any order. *)
Variable order_by_added_at_desc : list WatchRow -> list WatchRow.

Definition init_db (db : option WatchTable) : option WatchTable :=
  match db with
  | Some t => Some t
  | None => Some (mkTable [] 0)
  end.

(** [INSERT OR REPLACE]: a row with the same ticker is deleted, the new
    row gets the next rowid. *)
Definition add_stock_to_watchlist (ticker asset_type now created : string)
    (db : option WatchTable) : bool * list string * option WatchTable :=
  match db with
  | None =>
      (false, [String.append "Error adding stock to database: " no_such_table], None)
  | Some t =>
      let key := upper ticker in
      let kept := List.filter (fun r => negb (ticker_is key r)) (table_rows t) in
      let id := (table_sequence t + 1)%Z in
      (true, [],
       Some (mkTable (kept ++ [mkRow id key asset_type now created])%list id))
  end.

(** [DELETE ... WHERE ticker = ?]; the result is [cursor.rowcount > 0]. *)
Definition remove_stock_from_watchlist (ticker : string)
    (db : option WatchTable) : bool * list string * option WatchTable :=
  match db with
  | None =>
      (false, [String.append "Error removing stock from database: " no_such_table],
       None)
  | Some t =>
      let key := upper ticker in
      let kept := List.filter (fun r => negb (ticker_is key r)) (table_rows t) in
      let rowcount := length (List.filter (ticker_is key) (table_rows t)) in
      ((0 <? rowcount)%nat, [], Some (mkTable kept (table_sequence t)))
  end.

Definition get_watchlist (db : option WatchTable) : list WatchItem * list string :=
  match db with
  | None => ([], [String.append "Error retrieving watchlist: " no_such_table])
  | Some t => (item_of <$> order_by_added_at_desc (table_rows t), [])
  end.

(** [fetchone()] after [WHERE ticker = ?]. *)
Definition get_ticker_info (ticker : string) (db : option WatchTable)
  : option WatchItem * list string :=
  match db with
  | None => (None, [String.append "Error getting ticker info: " no_such_table])
  | Some t => (item_of <$> List.find (ticker_is (upper ticker)) (table_rows t), [])
  end.

Definition clear_watchlist (db : option WatchTable)
  : bool * list string * option WatchTable :=
  match db with
  | None => (false, [String.append "Error clearing watchlist: " no_such_table], None)
  | Some t => (true, [], Some (mkTable [] (table_sequence t)))
  end.

Definition get_watchlist_count (db : option WatchTable) : nat * list string :=
  match db with
  | None => (0, [String.append "Error getting watchlist count: " no_such_table])
  | Some t => (length (table_rows t), [])
  end.

End DatabaseManager.

(** The constraints of the schema: tickers are unique, rowids increase
    along the table and none exceeds the sequence. *)
Definition table_ok (t : WatchTable) : Prop :=
  NoDup (row_ticker <$> table_rows t)
  /\ StronglySorted Z.lt (row_id <$> table_rows t)
  /\ Forall (fun r => (row_id r <= table_sequence t)%Z) (table_rows t).

Definition db_ok (db : option WatchTable) : Prop :=
  match db with
  | Some t => table_ok t
  | None => True
  end.

(** Upper-casing of the ASCII letters, other bytes unchanged. *)
Definition ascii_upper_char (c : Ascii.ascii) : Ascii.ascii :=
  let n := Ascii.nat_of_ascii c in
  if (97 <=? n)%nat && (n <=? 122)%nat then Ascii.ascii_of_nat (n - 32) else c.

Fixpoint ascii_upper (s : string) : string :=
  match s with
  | EmptyString => EmptyString
  | String c rest => String (ascii_upper_char c) (ascii_upper rest)
  end.

#[global] Instance newest_first_dec (a b : WatchRow) : Decision (newest_first a b).
Proof. unfold newest_first. apply _. Defined.

(** A sort that serves as the engine's order. *)
Definition sort_newest_first : list WatchRow -> list WatchRow :=
  merge_sort newest_first.

(** What the engine guarantees of [ORDER BY added_at DESC]: the rows of
    the table, each one followed only by rows that are not newer. *)
Definition orders_newest_first
    (order : list WatchRow -> list WatchRow) : Prop :=
  forall rows, order rows ≡ₚ rows /\ StronglySorted newest_first (order rows).

(** Stored tickers are upper-cased spellings. *)
Definition tickers_upper (upper : string -> string) (db : option WatchTable) : Prop :=
  match db with
  | Some t => Forall (fun r => upper (row_ticker r) = row_ticker r) (table_rows t)
  | None => True
  end.

(** [added_at] is earlier than [now] in the text order SQLite sorts by. *)
Definition added_before (now : string) (r : WatchRow) : Prop :=
  String.leb now (row_added_at r) = false.

(** ** app.py: the watchlist routes

    A route returns the messages it flashes (text and category), the
    lines printed meanwhile and the database it leaves; each of them
    ends in the same redirect to the index page. *)

Section Routes.

Variable upper : string -> string.

(** [str.strip]. *)
Variable strip : string -> string.

Definition form_get (field : option string) (default : string) : string :=
  match field with
  | Some v => v
  | None => default
  end.

Definition add_ticker (form_ticker form_asset_type : option string)
    (now created : string) (db : option WatchTable)
  : list (string * string) * list string * option WatchTable :=
  let ticker := upper (strip (form_get form_ticker "")) in
  let asset_type := form_get form_asset_type "Stock" in
  if negb (String.eqb ticker "") then
    let '(success, printed, db') :=
      add_stock_to_watchlist upper ticker asset_type now created db in
    if success : bool then
      ([("Added " ++ ticker ++ " (" ++ asset_type ++ ") to watchlist!", "success")],
       printed, db')
    else
      ([("Error adding " ++ ticker ++ " to watchlist.", "error")], printed, db')
  else
    ([("Please enter a ticker symbol.", "error")], [], db).

Definition remove_ticker (ticker : string) (db : option WatchTable)
  : list (string * string) * list string * option WatchTable :=
  let '(success, printed, db') := remove_stock_from_watchlist upper ticker db in
  if success : bool then
    ([("Removed " ++ ticker ++ " from watchlist!", "success")], printed, db')
  else
    ([("Error removing " ++ ticker ++ " from watchlist.", "error")], printed, db').

End Routes.

(** Removal of leading and trailing spaces, tabs and line breaks. *)
Definition is_space (c : Ascii.ascii) : bool :=
  let n := Ascii.nat_of_ascii c in
  ((9 <=? n)%nat && (n <=? 13)%nat) || (n =? 32)%nat.

Fixpoint lstrip (s : string) : string :=
  match s with
  | String c rest => if is_space c then lstrip rest else s
  | EmptyString => EmptyString
  end.

Fixpoint rstrip (s : string) : string :=
  match s with
  | String c rest =>
      match rstrip rest with
      | EmptyString => if is_space c then EmptyString else String c EmptyString
      | kept => String c kept
      end
  | EmptyString => EmptyString
  end.

Definition ascii_strip (s : string) : string := rstrip (lstrip s).

#[global] Instance table_ok_dec (t : WatchTable) : Decision (table_ok t).
Proof. unfold table_ok. apply _. Defined.

Module WatchSamples.

Definition msft : WatchRow :=
  mkRow 1 "MSFT" "Stock" "2024-01-02T09:30:00.000000" "2024-01-02 09:30:00".

Definition spy : WatchRow :=
  mkRow 3 "SPY" "Option" "2024-01-05T16:00:00.000000" "2024-01-05 16:00:00".

(** Two stored tickers; rowid 2 was handed out and deleted since. *)
Definition two_tickers : WatchTable := mkTable [msft; spy] 3.

Definition later : string := "2024-02-01T10:00:00.000000".

End WatchSamples.

(** ** api_client.py: class PolygonAPIClient

    The price and the earnings getter, with the cache they share.  What
    the service answers is decoded JSON of any shape, so the Python
    operations applied to it are modelled on every shape, with the
    exception each raises.  The network, the two readings of
    [time.time()] and the interpreter's wording of a [TypeError] or
    [AttributeError] are inputs.  Of the two getters of bar tables the
    weekly one is modelled, with pandas' construction of the table as an
    input: its cache entry holds the table object that the caller
    receives. *)

Module PolygonAPIClient.

#[warnings="-register-all"]
Inductive json : Type :=
| JNull
| JBool (b : bool)
| JNum (x : float)
| JStr (s : string)
| JArr (items : list json)
| JObj (fields : gmap string json).

(** The Python type of a value, which is all an error text depends on. *)
Inductive kind : Type := KNone | KBool | KNumber | KStr | KList | KDict.

Definition kind_of (j : json) : kind :=
  match j with
  | JNull => KNone
  | JBool _ => KBool
  | JNum _ => KNumber
  | JStr _ => KStr
  | JArr _ => KList
  | JObj _ => KDict
  end.

Inductive raised : Type :=
| RValueError (text : string)
| RException (text : string)
| RKeyError (key : json)
| RIndexError
| RTypeError (on : kind)
| RAttributeError (on : kind)
| RLibraryError (text : string).

Definition and_then {A B : Type} (m : raised + A) (k : A -> raised + B)
  : raised + B :=
  match m with
  | inr a => k a
  | inl e => inl e
  end.

Notation "'let?' x := m 'in' k" := (and_then m (fun x => k))
  (at level 10, x name, m at level 100, k at level 200).

(** [bool(j)]. *)
Definition truthy (j : json) : bool :=
  match j with
  | JNull => false
  | JBool b => b
  | JNum x => Float.truthy x
  | JStr s => negb (String.eqb s "")
  | JArr items => if items is [] then false else true
  | JObj fields => negb (Nat.eqb (size fields) 0)
  end.

(** [j.get(key, default)]: only a dict has the method. *)
Definition get (j : json) (key : string) (default : json) : raised + json :=
  match j with
  | JObj fields => inr (from_option id default (fields !! key))
  | _ => inl (RAttributeError (kind_of j))
  end.

(** [j[key]] for a string key. *)
Definition getitem (j : json) (key : string) : raised + json :=
  match j with
  | JObj fields =>
      match fields !! key with
      | Some v => inr v
      | None => inl (RKeyError (JStr key))
      end
  | _ => inl (RTypeError (kind_of j))
  end.

(** [j[0]]. *)
Definition getitem_0 (j : json) : raised + json :=
  match j with
  | JArr items =>
      match items with
      | first :: _ => inr first
      | [] => inl RIndexError
      end
  | JStr s =>
      match s with
      | String c _ => inr (JStr (String c EmptyString))
      | EmptyString => inl RIndexError
      end
  | JObj _ => inl (RKeyError (JNum (Fin 0)))
  | _ => inl (RTypeError (kind_of j))
  end.

(** [j == text]. *)
Definition is_text (text : string) (j : json) : bool :=
  match j with
  | JStr s => String.eqb s text
  | _ => false
  end.

(** [text in j]: a key of a dict, an item of a list, a part of a string. *)
Definition contains (text : string) (j : json) : raised + bool :=
  match j with
  | JObj fields => inr (if fields !! text is Some _ then true else false)
  | JArr items => inr (existsb (is_text text) items)
  | JStr s => inr (if String.index 0 text s is Some _ then true else false)
  | _ => inl (RTypeError (kind_of j))
  end.

Fixpoint characters (s : string) : list json :=
  match s with
  | String c rest => JStr (String c EmptyString) :: characters rest
  | EmptyString => []
  end.

(** [for x in j]: the items of a list, the keys of a dict (each a
    string, their order plays no part below), the characters of a
    string. *)
Definition iterate (j : json) : raised + list json :=
  match j with
  | JArr items => inr items
  | JObj fields => inr (JStr <$> (map_to_list fields).*1)
  | JStr s => inr (characters s)
  | _ => inl (RTypeError (kind_of j))
  end.

(** [[event for event in events if event.get('type') == 'earnings']]. *)
Fixpoint earnings_only (events : list json) : raised + list json :=
  match events with
  | [] => inr []
  | event :: rest =>
      let? type := get event "type" JNull in
      let? kept := earnings_only rest in
      inr (if is_text "earnings" type then event :: kept else kept)
  end.

(** The sort keys [x.get('date', '')], each beside its item. *)
Fixpoint with_date_keys (events : list json) : raised + list (json * json) :=
  match events with
  | [] => inr []
  | event :: rest =>
      let? key := get event "date" (JStr "") in
      let? keyed := with_date_keys rest in
      inr ((key, event) :: keyed)
  end.

(** [_cache] in two parts: the values of the price and the earnings
    getter, and the bar tables (by reference) of the other getters.  The
    keys of the parts differ in their prefix. *)
Record Client : Type := mkPolygon {
  api_key : option string;
  _cache : gmap string (json * Q);
  _cache_frames : gmap string (ref * Q)
}.

Definition base_url : string := "https://api.polygon.io".

(** [__init__]. *)
Definition new_client : Client := mkPolygon None ∅ ∅.

Definition set_api_key (key : string) (c : Client) : Client :=
  mkPolygon (Some key) (_cache c) (_cache_frames c).

Definition clear_cache (c : Client) : Client := mkPolygon (api_key c) ∅ ∅.

(** What [requests.get] followed by [raise_for_status] and [json] gives:
    the decoded body, or a [RequestException] with its text. *)
Inductive response : Type :=
| Answer (body : json)
| Failure (text : string).

Abbreviation request := (string * gmap string string)%type.
Abbreviation network := (string -> gmap string string -> response).

(** The cached value under [key] when it is younger than [ttl] seconds. *)
Definition cached (key : string) (now ttl : Q) (c : Client) : option json :=
  match _cache c !! key with
  | Some (cached_data, cached_time) =>
      if Qlt_bool (now - cached_time) ttl then Some cached_data else None
  | None => None
  end.

Definition store (key : string) (data : json) (now : Q) (c : Client) : Client :=
  mkPolygon (api_key c) (<[key := (data, now)]> (_cache c)) (_cache_frames c).

Definition cached_frame (key : string) (now ttl : Q) (c : Client) : option ref :=
  match _cache_frames c !! key with
  | Some (cached_data, cached_time) =>
      if Qlt_bool (now - cached_time) ttl then Some cached_data else None
  | None => None
  end.

Definition store_frame (key : string) (df : ref) (now : Q) (c : Client)
  : Client :=
  mkPolygon (api_key c) (_cache c) (<[key := (df, now)]> (_cache_frames c)).

(** A new table object. *)
Definition new_frame (df : DataFrame) (h : gmap ref DataFrame)
  : ref * gmap ref DataFrame :=
  let l := fresh (dom h) in (l, <[l := df]> h).

Section Interpreter.

(** The text of a [TypeError], an [AttributeError], an [IndexError] or a
    [KeyError] with a key that is no string. *)
Variable interpreter_text : raised -> string.

(** [list.sort] on items paired with their keys; it compares keys only. *)
Variable sort_by_key : list (json * json) -> raised + list (json * json).

(** [pd.DataFrame(results)] with the renaming of the columns and the
    [Date] index; what pandas raises is an [RLibraryError]. *)
Variable frame_of_results : json -> raised + DataFrame.

(** [str(e)]. *)
Definition str (e : raised) : string :=
  match e with
  | RValueError text => text
  | RException text => text
  | RLibraryError text => text
  | RKeyError (JStr key) => "'" ++ key ++ "'"
  | _ => interpreter_text e
  end.

(** The result beside the requests sent. *)
Definition _make_request (net : network) (endpoint : string)
    (params : gmap string string) (c : Client)
  : (raised + json) * list request :=
  match api_key c with
  | Some key =>
      if String.eqb key "" then (inl (RValueError "API key not set"), [])
      else
        let params := <["apiKey" := key]> params in
        let url := base_url ++ endpoint in
        match net url params with
        | Answer body => (inr body, [(url, params)])
        | Failure text =>
            (inl (RException ("Error fetching data from Polygon.io: " ++ text)),
             [(url, params)])
        end
  | None => (inl (RValueError "API key not set"), [])
  end.

(** [now] is the time read at the cache test, [stored_at] the time read
    when the answer is cached. *)
Definition get_current_price (net : network) (ticker : string)
    (now stored_at : Q) (c : Client)
  : (json * string) * list request * Client :=
  let cache_key := "price_" ++ ticker in
  match cached cache_key now 600 c with
  | Some cached_data => ((cached_data, ""), [], c)
  | None =>
      let endpoint := "/v2/aggs/ticker/" ++ ticker ++ "/prev" in
      let '(answer, sent) := _make_request net endpoint ∅ c in
      let body : raised + (json * string) * Client :=
        let? data := answer in
        let? found := get data "results" JNull in
        let? found :=
          if truthy found then getitem data "results" else inr found in
        if truthy found then
          let? results := getitem data "results" in
          let? first := getitem_0 results in
          let? price := getitem first "c" in
          inr ((price, ""), store cache_key price stored_at c)
        else inr ((JNull, "Price not found."), c) in
      match body with
      | inr (returned, c') => (returned, sent, c')
      | inl e => ((JNull, str e), sent, c)
      end
  end.

Definition get_next_earnings_date (net : network) (ticker : string)
    (now stored_at : Q) (c : Client)
  : (json * string) * list request * Client :=
  let cache_key := "earnings_" ++ ticker in
  match cached cache_key now 86400 c with
  | Some cached_data => ((cached_data, ""), [], c)
  | None =>
      let endpoint := "/v3/reference/tickers/" ++ ticker ++ "/events" in
      let '(answer, sent) := _make_request net endpoint ∅ c in
      let not_found := ((JNull, "No upcoming earnings found."), c) in
      let body : raised + (json * string) * Client :=
        let? data := answer in
        let? found := get data "results" JNull in
        if negb (truthy found) then inr not_found
        else
          let? results := getitem data "results" in
          let? has_events := contains "events" results in
          if has_events : bool then
            let? events := getitem results "events" in
            let? events := iterate events in
            let? earnings_events := earnings_only events in
            if earnings_events is [] then inr not_found
            else
              let? keyed := with_date_keys earnings_events in
              let? sorted := sort_by_key keyed in
              let? first :=
                match sorted with
                | (_, event) :: _ => inr event
                | [] => inl RIndexError
                end in
              let? next_earnings := getitem first "date" in
              inr ((next_earnings, ""),
                   store cache_key next_earnings stored_at c)
          else inr not_found
      in
      match body with
      | inr (returned, c') => (returned, sent, c')
      | inl e => ((JNull, str e), sent, c)
      end
  end.

(** [today] and [one_year_ago] are the two dates as [str] prints them.
    The result names the table object; the store of tables is threaded
    through. *)
Definition get_weekly_data (net : network) (ticker today one_year_ago : string)
    (now stored_at : Q) (c : Client) (h : gmap ref DataFrame)
  : (ref * string) * list request * Client * gmap ref DataFrame :=
  let cache_key := "weekly_" ++ ticker in
  match cached_frame cache_key now 3600 c with
  | Some cached_data => ((cached_data, ""), [], c, h)
  | None =>
      let endpoint :=
        "/v2/aggs/ticker/" ++ ticker ++ "/range/1/week/" ++ one_year_ago
        ++ "/" ++ today in
      let params := <["sort" := "asc"]> (<["limit" := "5000"]> ∅) in
      let '(answer, sent) := _make_request net endpoint params c in
      let body : raised + DataFrame * string * bool :=
        let? data := answer in
        let? found := get data "results" JNull in
        if negb (truthy found) then
          inr (empty_frame, "No weekly data found for " ++ ticker ++ ".", false)
        else
          let? results := getitem data "results" in
          let? df := frame_of_results results in
          inr (df, "", true) in
      match body with
      | inr (df, message, keep) =>
          let '(l, h') := new_frame df h in
          ((l, message), sent,
           if keep : bool then store_frame cache_key l stored_at c else c, h')
      | inl e =>
          let '(l, h') := new_frame empty_frame h in
          ((l, str e), sent, c, h')
      end
  end.

(** The frame the two getters share: the cache test, the request, and
    the [except] clause around what is done with the answer. *)
Definition cached_or_fetched (net : network) (cache_key endpoint : string)
    (ttl now : Q) (c : Client)
    (use : json -> raised + (json * string) * Client)
  : (json * string) * list request * Client :=
  match cached cache_key now ttl c with
  | Some cached_data => ((cached_data, ""), [], c)
  | None =>
      let '(answer, sent) := _make_request net endpoint ∅ c in
      match (let? data := answer in use data) with
      | inr (returned, c') => (returned, sent, c')
      | inl e => ((JNull, str e), sent, c)
      end
  end.

End Interpreter.

(** [list.sort] is asked to sort by [date] texts: it returns the same
    pairs, each key followed only by keys that are not smaller. *)
Definition text_key (p : json * json) : Prop := exists s, p.1 = JStr s.

Definition text_of (j : json) : string :=
  match j with
  | JStr s => s
  | _ => ""
  end.

Definition key_le (a b : json * json) : Prop :=
  String.leb (text_of a.1) (text_of b.1) = true.

Definition sorts_text_keys
    (sort : list (json * json) -> raised + list (json * json)) : Prop :=
  forall l, Forall text_key l ->
    exists l', sort l = inr l' /\ l' ≡ₚ l /\ StronglySorted key_le l'.

(** An earnings event as the service documents it. *)
Definition earnings_event (date : string) : json :=
  JObj (<["type" := JStr "earnings"]> (<["date" := JStr date]> ∅)).

(** The dates of the earnings events among [events]. *)
Definition is_earnings (event : json) : bool :=
  match event with
  | JObj fields =>
      if fields !! "type" is Some type then is_text "earnings" type else false
  | _ => false
  end.

Definition date_of (event : json) : option json :=
  match event with
  | JObj fields => fields !! "date"
  | _ => None
  end.

Definition is_object (j : json) : Prop := kind_of j = KDict.

(** The sort key of an event that is a dict. *)
Definition date_key (event : json) : json :=
  from_option id (JStr "") (date_of event).

(** The date texts of the earnings events, in the order of the answer. *)
Definition earnings_dates (events : list json) : list string :=
  omap (fun event =>
          if is_earnings event
          then match date_of event with
               | Some (JStr date) => Some date
               | _ => None
               end
          else None) events.

(** An earnings event with a date text, or one that is not about
    earnings. *)
Definition dated_if_earnings (event : json) : Prop :=
  is_earnings event = true -> exists date, date_of event = Some (JStr date).

(** An earnings event without a [date] field. *)
Definition undated_earnings (event : json) : Prop :=
  is_earnings event = true /\ date_of event = None.

(** As [dated_if_earnings], but the date may be missing and is not the
    empty text. *)
Definition dated_or_undated (event : json) : Prop :=
  is_earnings event = true ->
  date_of event = None
  \/ exists date, date_of event = Some (JStr date) /\ date <> "".

(** The body [{"results": {"events": [...]}}]. *)
Definition events_body (events : list json) : json :=
  JObj (<["results" := JObj (<["events" := JArr events]> ∅)]> ∅).

(** The body [{"results": [{"c": price}]}]. *)
Definition price_body (price : json) : json :=
  JObj (<["results" := JArr [JObj (<["c" := price]> ∅)]]> ∅).

#[global] Instance key_le_dec (a b : json * json) : Decision (key_le a b).
Proof. unfold key_le. apply _. Defined.

(** A sort that serves as [list.sort] on text keys. *)
Definition sort_text_keys (l : list (json * json))
  : raised + list (json * json) :=
  inr (merge_sort key_le l).

(** Sample clients, services and answers. *)

Definition demo_client : Client := set_api_key "demo" new_client.

(** An interpreter wording that names the exception only. *)
Definition plain_text (e : raised) : string :=
  match e with
  | RIndexError => "list index out of range"
  | RTypeError _ => "TypeError"
  | RAttributeError _ => "AttributeError"
  | _ => "0"
  end.

Definition price_service : network :=
  fun _ _ => Answer (price_body (JNum (Fin 101))).

Definition dead_service : network := fun _ _ => Failure "timed out".

Definition dividend_event : json :=
  JObj (<["type" := JStr "dividend"]> (<["date" := JStr "2024-01-15"]> ∅)).

Definition undated_event : json := JObj (<["type" := JStr "earnings"]> ∅).

Definition two_earnings : list json :=
  [earnings_event "2024-08-01"; dividend_event; earnings_event "2024-05-02"].

Definition events_service (events : list json) : network :=
  fun _ _ => Answer (events_body events).

(** A table construction that answers with 30 flat weekly bars. *)
Definition flat_weeks (results : json) : raised + DataFrame :=
  inr MoreSamples.flat_frame.

End PolygonAPIClient.

(** ** app.py: the detail page

    The route reads the session, the watchlist and the data source; it
    answers with a redirect to the index page after a flashed message or
    with the values handed to the [ticker_detail.html] template.  Beside
    the answer stand the printed lines, the requests sent and the client
    as the route leaves it. *)

Inductive detail_response : Type :=
| RedirectToIndex (flashed : list (string * string))
| RenderDetail (ticker : string) (ticker_info : WatchItem)
    (current_price earnings_date : PolygonAPIClient.json).

(** [next((t for t in watchlist if t['ticker'] == ticker), None)]. *)
Definition find_ticker (ticker : string) (watchlist : list WatchItem)
  : option WatchItem :=
  List.find (fun t => String.eqb (item_ticker t) ticker) watchlist.

(** [price_times] and [earnings_times] are the clock readings of the two
    getters (at the cache test and at caching). *)
Definition ticker_detail
    (order_by_added_at_desc : list WatchRow -> list WatchRow)
    (interpreter_text : PolygonAPIClient.raised -> string)
    (sort_by_key : list (PolygonAPIClient.json * PolygonAPIClient.json) ->
                   PolygonAPIClient.raised
                   + list (PolygonAPIClient.json * PolygonAPIClient.json))
    (net : PolygonAPIClient.network)
    (session_api_key : option string) (ticker : string)
    (price_times earnings_times : Q * Q)
    (db : option WatchTable) (api_client : PolygonAPIClient.Client)
  : detail_response * list string * list PolygonAPIClient.request
    * PolygonAPIClient.Client :=
  match session_api_key with
  | Some api_key =>
      if String.eqb api_key "" then
        (RedirectToIndex [("Please set your API key first.", "error")], [], [],
         api_client)
      else
        let '(watchlist, printed) := get_watchlist order_by_added_at_desc db in
        match find_ticker ticker watchlist with
        | Some ticker_info =>
            let api_client := PolygonAPIClient.set_api_key api_key api_client in
            let '((current_price, price_error), price_sent, api_client) :=
              PolygonAPIClient.get_current_price interpreter_text net ticker
                price_times.1 price_times.2 api_client in
            if String.eqb (item_asset_type ticker_info) "Stock" then
              let '((earnings_date, _), earnings_sent, api_client) :=
                PolygonAPIClient.get_next_earnings_date interpreter_text
                  sort_by_key net ticker earnings_times.1 earnings_times.2
                  api_client in
              (RenderDetail ticker ticker_info current_price earnings_date,
               printed, (price_sent ++ earnings_sent)%list, api_client)
            else
              (RenderDetail ticker ticker_info current_price
                 PolygonAPIClient.JNull,
               printed, price_sent, api_client)
        | None =>
            (RedirectToIndex [("Ticker not found in watchlist.", "error")],
             printed, [], api_client)
        end
  | None =>
      (RedirectToIndex [("Please set your API key first.", "error")], [], [],
       api_client)
  end.

(** * Properties *)

(** ** Positions counted from the end *)

Lemma iloc_minus_1 (pre : Series) (x : float) :
  iloc (pre ++ [x])%list (-1) = Ok x.
Proof.
  unfold iloc. rewrite length_app. simpl length.
  replace (-1 <? 0)%Z with true by reflexivity.
  set (n := Z.of_nat (length pre + 1)).
  assert (Hn : (n + -1 = Z.of_nat (length pre))%Z) by (unfold n; lia).
  rewrite Hn.
  replace (Z.of_nat (length pre) <? 0)%Z with false by (symmetry; apply Z.ltb_ge; lia).
  replace (n <=? Z.of_nat (length pre))%Z with false
    by (symmetry; apply Z.leb_gt; unfold n; lia).
  simpl. rewrite Nat2Z.id.
  rewrite lookup_app_r by lia. rewrite Nat.sub_diag. reflexivity.
Qed.

Lemma iloc_minus_2 (pre : Series) (a b : float) :
  iloc (pre ++ [a; b])%list (-2) = Ok a.
Proof.
  unfold iloc. rewrite length_app. simpl length.
  replace (-2 <? 0)%Z with true by reflexivity.
  set (n := Z.of_nat (length pre + 2)).
  assert (Hn : (n + -2 = Z.of_nat (length pre))%Z) by (unfold n; lia).
  rewrite Hn.
  replace (Z.of_nat (length pre) <? 0)%Z with false by (symmetry; apply Z.ltb_ge; lia).
  replace (n <=? Z.of_nat (length pre))%Z with false
    by (symmetry; apply Z.leb_gt; unfold n; lia).
  simpl. rewrite Nat2Z.id.
  rewrite lookup_app_r by lia. rewrite Nat.sub_diag. reflexivity.
Qed.

Lemma iloc_minus_1_two (pre : Series) (a b : float) :
  iloc (pre ++ [a; b])%list (-1) = Ok b.
Proof.
  replace (pre ++ [a; b])%list with ((pre ++ [a]) ++ [b])%list
    by (rewrite <- app_assoc; reflexivity).
  apply iloc_minus_1.
Qed.

Lemma split_last_two {A : Type} (l : list A) :
  2 <= length l -> exists pre a b, l = (pre ++ [a; b])%list.
Proof.
  intros Hlen.
  destruct (rev l) as [|b [|a r]] eqn:Hrev.
  - apply (f_equal length) in Hrev. rewrite length_rev in Hrev. simpl in Hrev. lia.
  - apply (f_equal length) in Hrev. rewrite length_rev in Hrev. simpl in Hrev. lia.
  - exists (rev r), a, b.
    rewrite <- (rev_involutive l), Hrev. simpl.
    rewrite <- app_assoc. reflexivity.
Qed.

Lemma last_two_app (pre : Series) (a b : float) :
  Spec.last_two (pre ++ [a; b])%list = Some (a, b).
Proof.
  unfold Spec.last_two. rewrite rev_app_distr. reflexivity.
Qed.

Lemma last_two_short (s : Series) :
  length s < 2 -> Spec.last_two s = None.
Proof.
  intros Hlen. unfold Spec.last_two.
  destruct (rev s) as [|b [|a r]] eqn:Hrev; try reflexivity.
  apply (f_equal length) in Hrev. rewrite length_rev in Hrev. simpl in Hrev. lia.
Qed.

Lemma last_two_Some (s : Series) (a b : float) :
  Spec.last_two s = Some (a, b) -> exists pre, s = (pre ++ [a; b])%list.
Proof.
  unfold Spec.last_two. intros H.
  destruct (rev s) as [|y [|x r]] eqn:Hrev; try discriminate.
  injection H as -> ->. exists (rev r).
  rewrite <- (rev_involutive s), Hrev. simpl.
  rewrite <- app_assoc. reflexivity.
Qed.

Lemma statuses_distinct : PASS <> WARN /\ PASS <> FAIL /\ WARN <> FAIL.
Proof. repeat split; discriminate. Qed.

(** ** MACD crossover-or-rising *)

(** The evaluator as a function of the last two defined points of its
    two arguments. *)
Lemma check_macd_crossover_or_rising_eval (macd signal : Series) :
  check_macd_crossover_or_rising macd signal =
  Ok (macd_verdict_of (Spec.last_two_defined macd)
        (Spec.last_two_defined signal)).
Proof.
  unfold check_macd_crossover_or_rising, Spec.last_two_defined, macd_verdict_of.
  destruct (Nat.ltb_spec (length (dropna macd)) 2) as [Hm|Hm].
  { rewrite (last_two_short _ Hm). reflexivity. }
  destruct (Nat.ltb_spec (length (dropna signal)) 2) as [Hs|Hs].
  { rewrite (last_two_short _ Hs). simpl.
    destruct (Spec.last_two (dropna macd)) as [[? ?]|]; reflexivity. }
  destruct (split_last_two _ Hm) as (pm & mp & ml & ->).
  destruct (split_last_two _ Hs) as (ps & sp & sl & ->).
  rewrite !last_two_app, !iloc_minus_1_two, !iloc_minus_2. simpl.
  destruct ((ml >? sl) && (mp <=? sp) || (ml >? mp))%float; reflexivity.
Qed.

Lemma last_two_defined_length (s : Series) :
  length (dropna s) < 2 -> Spec.last_two_defined s = None.
Proof. apply last_two_short. Qed.

(** C1.  The MACD crossover-or-rising evaluator always returns a verdict;
    the verdict is Pass exactly when both series have two defined points
    and, on the last two defined points of each, either the previous MACD
    is at most the previous signal while the last MACD exceeds the last
    signal, or the last MACD exceeds the previous MACD; otherwise it is
    Fail, in particular when a series has fewer than two defined points;
    and two calls whose series agree on their last two defined points
    return the same verdict, whatever came before. *)
Theorem macd_crossover_or_rising_last_two (macd signal : Series) :
  exists v,
    check_macd_crossover_or_rising macd signal = Ok v
    /\ (status v = PASS <->
        exists macd_prev macd_last signal_prev signal_last,
          Spec.last_two_defined macd = Some (macd_prev, macd_last)
          /\ Spec.last_two_defined signal = Some (signal_prev, signal_last)
          /\ (((macd_prev <=? signal_prev)%float = true
               /\ (macd_last >? signal_last)%float = true)
              \/ (macd_last >? macd_prev)%float = true))
    /\ (status v = PASS \/ status v = FAIL)
    /\ (length (dropna macd) < 2 \/ length (dropna signal) < 2 ->
        status v = FAIL)
    /\ (forall macd' signal' : Series,
          Spec.last_two_defined macd' = Spec.last_two_defined macd ->
          Spec.last_two_defined signal' = Spec.last_two_defined signal ->
          check_macd_crossover_or_rising macd' signal' = Ok v).
Proof.
  exists (macd_verdict_of (Spec.last_two_defined macd)
            (Spec.last_two_defined signal)).
  split; [apply check_macd_crossover_or_rising_eval|].
  assert (Hstable : forall macd' signal' : Series,
            Spec.last_two_defined macd' = Spec.last_two_defined macd ->
            Spec.last_two_defined signal' = Spec.last_two_defined signal ->
            check_macd_crossover_or_rising macd' signal' =
            Ok (macd_verdict_of (Spec.last_two_defined macd)
                  (Spec.last_two_defined signal))).
  { intros macd' signal' Hm Hs.
    rewrite check_macd_crossover_or_rising_eval, Hm, Hs. reflexivity. }
  assert (Hshort : length (dropna macd) < 2 \/ length (dropna signal) < 2 ->
                   Spec.last_two_defined macd = None
                   \/ Spec.last_two_defined signal = None).
  { intros [H|H]; [left | right]; apply last_two_defined_length, H. }
  destruct (Spec.last_two_defined macd) as [[mp ml]|].
  2:{ simpl. repeat split; auto.
      - discriminate.
      - intros (? & ? & ? & ? & H & _). discriminate. }
  destruct (Spec.last_two_defined signal) as [[sp sl]|].
  2:{ simpl. repeat split; auto.
      - discriminate.
      - intros (? & ? & ? & ? & _ & H & _). discriminate. }
  unfold macd_verdict_of.
  destruct (ml >? sl)%float eqn:E1, (mp <=? sp)%float eqn:E2,
           (ml >? mp)%float eqn:E3; simpl;
    (split; [split;
       [ intros H; try discriminate H;
         exists mp, ml, sp, sl; repeat split; auto
       | intros (a & b & c & d & Ha & Hb & Hc);
         injection Ha as <- <-; injection Hb as <- <-;
         try reflexivity;
         destruct Hc as [[Hc1 Hc2]|Hc]; congruence ]
     | split; [auto | split; [intros H; destruct (Hshort H); discriminate|]]]);
    intros macd' signal' Hm Hs; rewrite (Hstable macd' signal' Hm Hs);
    unfold macd_verdict_of; rewrite E1, E2, E3; reflexivity.
Qed.

(** ** Inversion of the exception plumbing *)

Lemma exc_bind_Ok {A B : Type} (m : exc A) (k : A -> exc B) (b : B) :
  exc_bind m k = Ok b -> exists a, m = Ok a /\ k a = Ok b.
Proof. destruct m as [a|e]; simpl; [eauto | discriminate]. Qed.

Lemma try_except_total {A : Type} (body : exc A) (handler : exn -> A) :
  exists a, try_except body handler = Ok a.
Proof. destruct body; simpl; eauto. Qed.

Lemma try_except_Ok {A : Type} (body : exc A) (handler : exn -> A) (a : A) :
  try_except body handler = Ok a ->
  body = Ok a \/ exists e, body = Raise e /\ a = handler e.
Proof. destruct body as [x|e]; simpl; intros [= <-]; eauto. Qed.

Ltac exc_inv H :=
  repeat (let a := fresh "x" in
          let E := fresh "E" in
          apply exc_bind_Ok in H as (a & E & H)).

Ltac case_if H :=
  match type of H with
  | context [if ?c then _ else _] => destruct c eqn:?
  end.

(** ** RSI *)

Lemma iloc_last_two_app (pre : Series) (a b : float) :
  iloc_last 2 (pre ++ [a; b])%list = [a; b].
Proof.
  unfold iloc_last. rewrite length_app. simpl length.
  replace (length pre + 2 - 2) with (length pre) by lia.
  apply drop_app_length.
Qed.

(** The RSI evaluator as a function of the last two defined values of
    the RSI column. *)
Lemma check_rsi_condition_eval (df : DataFrame) :
  check_rsi_condition df =
  match columns df !! "RSI" with
  | None => Ok (mkVerdict FAIL (Text "Not enough RSI data") PNone)
  | Some rsi =>
      match Spec.last_two_defined rsi with
      | None => Ok (mkVerdict FAIL (Text "Not enough RSI data") PNone)
      | Some (previous_rsi, current_rsi) =>
          if ((of_Z 30 <=? current_rsi) && (current_rsi <=? of_Z 60)
              && ((of_Z 30 <=? previous_rsi) && (previous_rsi <=? of_Z 60))
              && (current_rsi >? previous_rsi))%float
          then Ok (mkVerdict PASS
                     (Text2f "RSI is between 30-60 and rising (" current_rsi ")")
                     (PFloat current_rsi))
          else Ok (mkVerdict FAIL
                     (Text2f "RSI condition not met (" current_rsi ")")
                     (PFloat current_rsi))
      end
  end.
Proof.
  unfold check_rsi_condition, Spec.last_two_defined.
  destruct (columns df !! "RSI") as [rsi|]; [|reflexivity].
  destruct (Nat.ltb_spec (length (dropna rsi)) 2) as [Hlen|Hlen].
  { rewrite (last_two_short _ Hlen). reflexivity. }
  destruct (split_last_two _ Hlen) as (pre & a & b & ->).
  rewrite last_two_app, iloc_last_two_app.
  reflexivity.
Qed.

(** With the default period the RSI computation cannot raise. *)
Lemma calculate_rsi_default_total (df : DataFrame) :
  exists rsi, calculate_rsi df 14 = Ok rsi.
Proof.
  unfold calculate_rsi, has_column, getitem.
  destruct (columns df !! "Close") as [close|]; simpl; [|eauto].
  destruct (Z.of_nat (len df) <? 14)%Z; simpl; eauto.
Qed.

Lemma check_rsi_condition_status (df : DataFrame) :
  exists v, check_rsi_condition df = Ok v /\ (status v = PASS \/ status v = FAIL).
Proof.
  rewrite check_rsi_condition_eval.
  destruct (columns df !! "RSI") as [rsi|]; [|eauto].
  destruct (Spec.last_two_defined rsi) as [[p c]|]; [|eauto].
  match goal with |- context [if ?c then _ else _] => destruct c end; eauto.
Qed.

(** ** Status of the other evaluators *)

Lemma check_macd_crossover_or_rising_status (macd signal : Series) :
  exists v, check_macd_crossover_or_rising macd signal = Ok v
            /\ (status v = PASS \/ status v = FAIL).
Proof.
  rewrite check_macd_crossover_or_rising_eval.
  eexists; split; [reflexivity|]. unfold macd_verdict_of.
  destruct (Spec.last_two_defined macd) as [[mp ml]|]; [|auto].
  destruct (Spec.last_two_defined signal) as [[sp sl]|]; [|auto].
  match goal with |- context [if ?c then _ else _] => destruct c end; auto.
Qed.

Lemma check_dmi_trend_status (ADXIndicator : ta_library) (df : DataFrame) :
  exists v, check_dmi_trend ADXIndicator df = Ok v
            /\ (status v = PASS \/ status v = FAIL).
Proof.
  unfold check_dmi_trend.
  destruct (len df <? 28)%nat; [eauto|].
  match goal with |- context [try_except ?b ?h] =>
    destruct (try_except_total b h) as [v Hv]; exists v; split; [exact Hv|];
    apply try_except_Ok in Hv as [Hv|(e & _ & ->)]; [|right; reflexivity]
  end.
  exc_inv Hv. case_if Hv; injection Hv as <-; eauto.
Qed.

Lemma check_ema_crossover_status (df : DataFrame) (fast slow : Z) (v : Verdict) :
  check_ema_crossover df fast slow = Ok v -> status v = PASS \/ status v = FAIL.
Proof.
  unfold check_ema_crossover. intros H.
  case_if H; [injection H as <-; eauto|].
  exc_inv H.
  case_if H; [injection H as <-; eauto|].
  exc_inv H. case_if H; injection H as <-; eauto.
Qed.

Lemma check_short_squeeze_risk_status (df : DataFrame) :
  exists v, check_short_squeeze_risk df = Ok v
            /\ (status v = PASS \/ status v = WARN \/ status v = FAIL).
Proof.
  unfold check_short_squeeze_risk.
  destruct (len df <? 30)%nat; [eauto 6|].
  match goal with |- context [try_except ?b ?h] =>
    destruct (try_except_total b h) as [v Hv]; exists v; split; [exact Hv|];
    apply try_except_Ok in Hv as [Hv|(e & _ & ->)]; [|auto]
  end.
  exc_inv Hv. case_if Hv; injection Hv as <-; eauto.
Qed.

(** C10.  Every evaluator's verdict carries one of the three status
    glyphs, which are pairwise distinct; the RSI, MACD, DMI and EMA
    evaluators only ever give Pass or Fail (the first three on every
    input, the EMA evaluator whenever it returns), and the short-squeeze
    evaluator always returns Pass, Warn or Fail. *)
Theorem evaluator_status_range (ADXIndicator : ta_library)
    (df : DataFrame) (macd signal : Series) (fast slow : Z) :
  (exists v, check_rsi_condition df = Ok v
             /\ (status v = PASS \/ status v = FAIL))
  /\ (exists v, check_macd_crossover_or_rising macd signal = Ok v
                /\ (status v = PASS \/ status v = FAIL))
  /\ (exists v, check_dmi_trend ADXIndicator df = Ok v
                /\ (status v = PASS \/ status v = FAIL))
  /\ (forall v, check_ema_crossover df fast slow = Ok v ->
                status v = PASS \/ status v = FAIL)
  /\ (exists v, check_short_squeeze_risk df = Ok v
                /\ (status v = PASS \/ status v = WARN \/ status v = FAIL))
  /\ PASS <> WARN /\ PASS <> FAIL /\ WARN <> FAIL.
Proof.
  split; [apply check_rsi_condition_status|].
  split; [apply check_macd_crossover_or_rising_status|].
  split; [apply check_dmi_trend_status|].
  split; [intros v; apply check_ema_crossover_status|].
  split; [apply check_short_squeeze_risk_status|].
  apply statuses_distinct.
Qed.

(** ** Insufficient history *)

(** C6.  An indicator given fewer bars than its lookback returns the
    empty series and does not raise: the RSI below [period] bars, the
    MACD (both of its series) below [slow] bars. *)
Theorem short_history_gives_empty_series
    (df : DataFrame) (period fast slow signal_period : Z) :
  ((Z.of_nat (len df) < period)%Z ->
   calculate_rsi df period = Ok empty_series)
  /\ ((Z.of_nat (len df) < slow)%Z ->
      get_macd df fast slow signal_period = Ok (empty_series, empty_series)).
Proof.
  split; intros Hshort.
  - unfold calculate_rsi.
    apply Z.ltb_lt in Hshort. rewrite Hshort, orb_true_r. reflexivity.
  - unfold get_macd.
    apply Z.ltb_lt in Hshort. rewrite Hshort. reflexivity.
Qed.

(** ** Malformed tables *)

(** C7.  On a table of 21 bars without a Close column the EMA crossover
    evaluator raises [KeyError] instead of returning a Fail verdict,
    while the DMI and short-squeeze evaluators turn the same lookup
    failure into a verdict. *)
Theorem check_ema_crossover_raises_without_close :
  check_ema_crossover Samples.frame_without_close 8 21 = Raise (KeyError "Close")
  /\ check_dmi_trend Samples.failing_ta
       (Samples.frame 28 [("Open", Samples.flat 28 10)])
     = Ok (mkVerdict FAIL (TextExc "Error calculating DMI: " (KeyError "High")) PNone)
  /\ check_short_squeeze_risk
       (Samples.frame 30 [("Open", Samples.flat 30 10)])
     = Ok (mkVerdict FAIL
             (TextExc "Error analyzing squeeze risk: " (KeyError "Close")) PNone).
Proof.
  split; [vm_compute; reflexivity|].
  split; vm_compute; reflexivity.
Qed.

(** ** Rounding *)

Lemma pow2_pos (k : Z) : (0 < Binary64.pow2 k)%Q.
Proof.
  unfold Binary64.pow2. destruct (Z.leb_spec 0 k) as [H|H].
  - rewrite <- (Zlt_Qlt 0). apply Z.pow_pos_nonneg; lia.
  - reflexivity.
Qed.

Lemma pow2_of_nonneg (k : Z) :
  (0 <= k)%Z -> Binary64.pow2 k = inject_Z (2 ^ k).
Proof.
  intros H. unfold Binary64.pow2.
  destruct (Z.leb_spec 0 k); [reflexivity | lia].
Qed.

Lemma pow2_of_neg (k : Z) :
  (k < 0)%Z -> (Binary64.pow2 k * inject_Z (2 ^ (- k)) == 1)%Q.
Proof.
  intros H. unfold Binary64.pow2. destruct (Z.leb_spec 0 k); [lia|].
  assert (Hp : (0 < 2 ^ (- k))%Z) by (apply Z.pow_pos_nonneg; lia).
  unfold Qeq, Qmult, inject_Z. cbn [Qnum Qden].
  rewrite Pos.mul_1_r, Z2Pos.id by exact Hp. lia.
Qed.

Lemma pow2_add (a b : Z) :
  (Binary64.pow2 (a + b) == Binary64.pow2 a * Binary64.pow2 b)%Q.
Proof.
  assert (Hpos : forall k, (0 <= k)%Z -> (0 < inject_Z (2 ^ k))%Q).
  { intros k Hk. rewrite <- (Zlt_Qlt 0). apply Z.pow_pos_nonneg; lia. }
  assert (Hinv : forall k, (k < 0)%Z ->
            (Binary64.pow2 k == / inject_Z (2 ^ (- k)))%Q).
  { intros k Hk. pose proof (pow2_of_neg k Hk) as H.
    pose proof (Hpos (- k)%Z ltac:(lia)) as Hp.
    apply (Qmult_inj_r _ _ (inject_Z (2 ^ (- k)))); [lra|].
    rewrite H. field. lra. }
  assert (Hsplit : forall u v, (0 <= u)%Z -> (0 <= v)%Z ->
            (inject_Z (2 ^ (u + v)) == inject_Z (2 ^ u) * inject_Z (2 ^ v))%Q).
  { intros u v Hu Hv. rewrite Z.pow_add_r by assumption.
    rewrite inject_Z_mult. reflexivity. }
  destruct (Z.leb_spec 0 a) as [Ha|Ha], (Z.leb_spec 0 b) as [Hb|Hb].
  - rewrite !pow2_of_nonneg by lia. apply Hsplit; assumption.
  - rewrite (pow2_of_nonneg a Ha), (Hinv b Hb).
    pose proof (Hpos (- b)%Z ltac:(lia)) as Hp.
    destruct (Z.leb_spec 0 (a + b)) as [Hab|Hab].
    + rewrite (pow2_of_nonneg _ Hab).
      pose proof (Hsplit (a + b) (- b) ltac:(lia) ltac:(lia))%Z as E.
      replace (a + b + - b)%Z with a in E by lia.
      rewrite E. field. lra.
    + rewrite (Hinv _ Hab).
      pose proof (Hsplit a (- (a + b)) ltac:(lia) ltac:(lia))%Z as E.
      replace (a + - (a + b))%Z with (- b)%Z in E by lia.
      pose proof (Hpos (- (a + b))%Z ltac:(lia)) as Hq.
      pose proof (Hpos a Ha) as Hr.
      rewrite E. field. split; lra.
  - rewrite (pow2_of_nonneg b Hb), (Hinv a Ha).
    pose proof (Hpos (- a)%Z ltac:(lia)) as Hp.
    destruct (Z.leb_spec 0 (a + b)) as [Hab|Hab].
    + rewrite (pow2_of_nonneg _ Hab).
      pose proof (Hsplit (a + b) (- a) ltac:(lia) ltac:(lia))%Z as E.
      replace (a + b + - a)%Z with b in E by lia.
      rewrite E. field. lra.
    + rewrite (Hinv _ Hab).
      pose proof (Hsplit b (- (a + b)) ltac:(lia) ltac:(lia))%Z as E.
      replace (b + - (a + b))%Z with (- a)%Z in E by lia.
      pose proof (Hpos (- (a + b))%Z ltac:(lia)) as Hq.
      pose proof (Hpos b Hb) as Hr.
      rewrite E. field. split; lra.
  - rewrite (Hinv a Ha), (Hinv b Hb), (Hinv (a + b)%Z ltac:(lia)).
    pose proof (Hsplit (- a) (- b) ltac:(lia) ltac:(lia))%Z as E.
    replace (- a + - b)%Z with (- (a + b))%Z in E by lia.
    pose proof (Hpos (- a)%Z ltac:(lia)) as Hp.
    pose proof (Hpos (- b)%Z ltac:(lia)) as Hq.
    rewrite E. field. split; lra.
Qed.

Lemma pow2_succ (k : Z) : (Binary64.pow2 (k + 1) == 2 * Binary64.pow2 k)%Q.
Proof. rewrite pow2_add. change (Binary64.pow2 1) with 2%Q. ring. Qed.

Lemma pow2_le (a b : Z) :
  (a <= b)%Z -> (Binary64.pow2 a <= Binary64.pow2 b)%Q.
Proof.
  intros H. replace b with (a + (b - a))%Z by lia. rewrite pow2_add.
  assert (H1 : (1 <= Binary64.pow2 (b - a))%Q).
  { rewrite pow2_of_nonneg by lia. rewrite <- (Zle_Qle 1).
    pose proof (Z.pow_pos_nonneg 2 (b - a) ltac:(lia) ltac:(lia)). lia. }
  pose proof (pow2_pos a). nra.
Qed.

Lemma Qmake_as_div (n d : positive) :
  (Zpos n # d == inject_Z (Zpos n) / inject_Z (Zpos d))%Q.
Proof. apply Qmake_Qdiv. Qed.

Lemma log2_bounds (n : positive) :
  (Binary64.pow2 (Z.log2 (Zpos n)) <= inject_Z (Zpos n))%Q
  /\ (inject_Z (Zpos n) < Binary64.pow2 (Z.log2 (Zpos n) + 1))%Q.
Proof.
  pose proof (Z.log2_spec (Zpos n) ltac:(lia)) as [Hlo Hhi].
  pose proof (Z.log2_nonneg (Zpos n)) as H0.
  rewrite !pow2_of_nonneg by lia. split.
  - rewrite <- Zle_Qle. exact Hlo.
  - rewrite <- Zlt_Qlt. exact Hhi.
Qed.

(** [Binary64.ilog2] is the binary exponent of the quotient. *)
Lemma ilog2_spec (n d : positive) :
  (Binary64.pow2 (Binary64.ilog2 n d) <= Zpos n # d)%Q
  /\ (Zpos n # d < Binary64.pow2 (Binary64.ilog2 n d + 1))%Q.
Proof.
  unfold Binary64.ilog2. cbv zeta.
  set (a := Z.log2 (Zpos n)). set (b := Z.log2 (Zpos d)).
  destruct (log2_bounds n) as [Hn1 Hn2]. fold a in Hn1, Hn2.
  destruct (log2_bounds d) as [Hd1 Hd2]. fold b in Hd1, Hd2.
  pose proof (pow2_pos a) as Pa. pose proof (pow2_pos b) as Pb.
  pose proof (pow2_pos (a - b)) as Pab.
  pose proof (pow2_add (a - b) b) as E1.
  replace (a - b + b)%Z with a in E1 by lia.
  pose proof (pow2_succ a) as E2. pose proof (pow2_succ b) as E3.
  pose proof (pow2_succ (a - b)) as E4.
  pose proof (pow2_succ (a - b - 1)) as E5.
  replace (a - b - 1 + 1)%Z with (a - b)%Z in E5 by lia.
  pose proof (pow2_pos (a - b - 1)) as Pab1.
  assert (HD : (0 < inject_Z (Zpos d))%Q) by (rewrite <- (Zlt_Qlt 0); lia).
  assert (HN : (0 < inject_Z (Zpos n))%Q) by (rewrite <- (Zlt_Qlt 0); lia).
  pose proof (Qmake_as_div n d) as Hx.
  set (x := Zpos n # d) in *.
  set (N := inject_Z (Zpos n)) in *. set (D := inject_Z (Zpos d)) in *.
  assert (Hup : (x < Binary64.pow2 (a - b + 1))%Q).
  { rewrite Hx. apply Qlt_shift_div_r; [exact HD|]. rewrite E4. nra. }
  assert (Hlow : (Binary64.pow2 (a - b - 1) <= x)%Q).
  { rewrite Hx. apply Qle_shift_div_l; [exact HD|]. nra. }
  destruct (Qle_bool (Binary64.pow2 (a - b)) x) eqn:E.
  - apply Qle_bool_iff in E. split; assumption.
  - split; [exact Hlow|].
    replace (a - b - 1 + 1)%Z with (a - b)%Z by lia.
    destruct (Qlt_le_dec x (Binary64.pow2 (a - b))) as [H|H]; [exact H|].
    apply Qle_bool_iff in H. congruence.
Qed.

(** [Binary64.nearest_even] is within half a unit, and even on a tie. *)
Lemma nearest_even_spec (num den : Z) :
  (0 < den)%Z ->
  (2 * Z.abs (num - Binary64.nearest_even num den * den) <= den)%Z
  /\ ((2 * Z.abs (num - Binary64.nearest_even num den * den) = den)%Z ->
      Z.even (Binary64.nearest_even num den) = true).
Proof.
  intros Hden. unfold Binary64.nearest_even. cbv zeta.
  pose proof (Z.div_mod num den ltac:(lia)) as Hdm.
  pose proof (Z.mod_pos_bound num den Hden) as Hr.
  set (q := (num / den)%Z) in *. set (r := (num mod den)%Z) in *.
  destruct (Z.compare_spec (2 * r) den) as [E|E|E].
  - destruct (Z.even q) eqn:Hq.
    + split; [|intros _; exact Hq]. nia.
    + split; [nia|]. intros _.
      rewrite Z.even_add, Hq. reflexivity.
  - split; [nia|]. intros H. exfalso. nia.
  - split; [nia|]. intros H. exfalso. nia.
Qed.

Lemma nearest_even_nonneg (num den : Z) :
  (0 <= num)%Z -> (0 < den)%Z -> (0 <= Binary64.nearest_even num den)%Z.
Proof.
  intros Hnum Hden. unfold Binary64.nearest_even. cbv zeta.
  pose proof (Z.div_pos num den Hnum Hden).
  destruct (2 * (num mod den) ?= den)%Z; [destruct (Z.even _)| |]; lia.
Qed.

Lemma nearest_even_bounds (num den : Z) :
  (0 < den)%Z ->
  let m := Binary64.nearest_even num den in
  (2 * num <= 2 * m * den + den)%Z
  /\ (2 * m * den <= 2 * num + den)%Z
  /\ ((2 * num = 2 * m * den + den \/ 2 * m * den = 2 * num + den)%Z ->
      Z.even m = true).
Proof.
  intros Hden m. destruct (nearest_even_spec num den Hden) as [Hb Ht].
  fold m in Hb, Ht. split; [lia|]. split; [lia|].
  intros H. apply Ht. lia.
Qed.

Lemma Qle_by_scaling (d a b : Q) :
  (0 < d)%Q -> (d * a <= d * b)%Q -> (a <= b)%Q.
Proof. intros Hd H. nra. Qed.

Lemma Qlt_by_scaling (d a b : Q) :
  (0 < d)%Q -> (a * d < b * d)%Q -> (a < b)%Q.
Proof. intros Hd H. nra. Qed.

(** The significand [m] and the exponent [e] that [round_pos] chooses
    for a positive quotient: the quotient lies within half a unit in the
    last place of [m * 2^e], a tie goes to the even significand, and
    the significand has 53 bits unless the result is subnormal.  The
    result is [m * 2^e], or an overflow from [2^1024] on. *)
Theorem round_pos_correct (n d : positive) :
  let x := Zpos n # d in
  let k := Binary64.ilog2 n d in
  let e := Z.max (k - 52) (-1074) in
  (Binary64.pow2 k <= x)%Q /\ (x < Binary64.pow2 (k + 1))%Q
  /\ exists m : Z,
       (0 <= m <= 2 ^ 53)%Z
       /\ ((-1074 <= k - 52)%Z -> (2 ^ 52 <= m)%Z)
       /\ ((inject_Z m - (1 # 2)) * Binary64.pow2 e <= x)%Q
       /\ (x <= (inject_Z m + (1 # 2)) * Binary64.pow2 e)%Q
       /\ ((x == (inject_Z m - (1 # 2)) * Binary64.pow2 e
            \/ x == (inject_Z m + (1 # 2)) * Binary64.pow2 e)%Q ->
           Z.even m = true)
       /\ Binary64.round_pos n d
          = (let y := Qred (inject_Z m * Binary64.pow2 e) in
             if Qle_bool (Binary64.pow2 1024) y then None else Some y).
Proof.
  intros x k e.
  destruct (ilog2_spec n d) as [Hlo Hhi]. fold k x in Hlo, Hhi.
  split; [exact Hlo|]. split; [exact Hhi|].
  set (N := Zpos n). set (D := Zpos d).
  assert (HD : (0 < inject_Z D)%Q) by (rewrite <- (Zlt_Qlt 0); unfold D; lia).
  assert (Hx : (x * inject_Z D == inject_Z N)%Q).
  { unfold x. rewrite (Qmake_as_div n d). fold N D. field. lra. }
  pose proof (pow2_pos e) as Pe.
  set (m := if (0 <=? e)%Z then Binary64.nearest_even N (D * 2 ^ e)
            else Binary64.nearest_even (N * 2 ^ (- e)) D).
  assert (Hbounds :
    ((inject_Z m - (1 # 2)) * Binary64.pow2 e <= x)%Q
    /\ (x <= (inject_Z m + (1 # 2)) * Binary64.pow2 e)%Q
    /\ ((x == (inject_Z m - (1 # 2)) * Binary64.pow2 e
         \/ x == (inject_Z m + (1 # 2)) * Binary64.pow2 e)%Q ->
        Z.even m = true)
    /\ (0 <= m)%Z).
  { unfold m. destruct (Z.leb_spec 0 e) as [He|He].
    - assert (Hp : (0 < 2 ^ e)%Z) by (apply Z.pow_pos_nonneg; lia).
      destruct (nearest_even_bounds N (D * 2 ^ e) ltac:(unfold D; lia))
        as (H1 & H2 & H3).
      pose proof (nearest_even_nonneg N (D * 2 ^ e) ltac:(unfold N; lia)
                    ltac:(unfold D; lia)) as H0.
      set (q := Binary64.nearest_even N (D * 2 ^ e)) in *.
      rewrite (pow2_of_nonneg e He) in *.
      set (P := inject_Z (2 ^ e)) in *.
      rewrite Zle_Qle in H1, H2.
      rewrite ?inject_Z_plus, ?inject_Z_mult in H1, H2.
      fold P in H1, H2. change (inject_Z 2) with 2%Q in H1, H2.
      rewrite <- Hx in H1, H2.
      split; [|split; [|split; [|exact H0]]].
      + apply (Qle_by_scaling (inject_Z D)); [exact HD|]. nra.
      + apply (Qle_by_scaling (inject_Z D)); [exact HD|]. nra.
      + intros Htie. apply H3.
        destruct Htie as [Htie|Htie]; [right | left];
          apply inject_Z_injective;
          rewrite ?inject_Z_plus, ?inject_Z_mult; fold P;
          change (inject_Z 2) with 2%Q; rewrite <- Hx, Htie; ring.
    - assert (Hp : (0 < 2 ^ (- e))%Z) by (apply Z.pow_pos_nonneg; lia).
      destruct (nearest_even_bounds (N * 2 ^ (- e)) D ltac:(unfold D; lia))
        as (H1 & H2 & H3).
      pose proof (nearest_even_nonneg (N * 2 ^ (- e)) D ltac:(unfold N; lia)
                    ltac:(unfold D; lia)) as H0.
      set (q := Binary64.nearest_even (N * 2 ^ (- e)) D) in *.
      pose proof (pow2_of_neg e He) as HPT.
      set (P := Binary64.pow2 e) in *. set (T := inject_Z (2 ^ (- e))) in *.
      assert (HT : (0 < T)%Q) by (unfold T; rewrite <- (Zlt_Qlt 0); exact Hp).
      rewrite Zle_Qle in H1, H2.
      rewrite ?inject_Z_plus, ?inject_Z_mult in H1, H2.
      fold T in H1, H2. change (inject_Z 2) with 2%Q in H1, H2.
      rewrite <- Hx in H1, H2.
      assert (HxT : (x == x * T * P)%Q).
      { assert (E : (x * T * P == x * (P * T))%Q) by ring.
        rewrite E, HPT. ring. }
      split; [|split; [|split; [|exact H0]]].
      + assert (Ha : (inject_Z q - (1 # 2) <= x * T)%Q).
        { apply (Qle_by_scaling (inject_Z D)); [exact HD|]. nra. }
        rewrite HxT. nra.
      + assert (Ha : (x * T <= inject_Z q + (1 # 2))%Q).
        { apply (Qle_by_scaling (inject_Z D)); [exact HD|]. nra. }
        rewrite HxT. nra.
      + intros Htie. apply H3.
        assert (HxT' : forall c : Q, (x == c * P)%Q -> (x * T == c)%Q).
        { intros c Hc. rewrite Hc.
          assert (E : (c * P * T == c * (P * T))%Q) by ring.
          rewrite E, HPT. ring. }
        destruct Htie as [Htie|Htie]; [right | left];
          apply HxT' in Htie;
          apply inject_Z_injective;
          rewrite ?inject_Z_plus, ?inject_Z_mult; fold T;
          change (inject_Z 2) with 2%Q; rewrite <- Hx.
        * assert (E : (x * inject_Z D * T == x * T * inject_Z D)%Q) by ring.
          rewrite E, Htie. ring.
        * assert (E : (x * inject_Z D * T == x * T * inject_Z D)%Q) by ring.
          rewrite E, Htie. ring. }
  destruct Hbounds as (Hb1 & Hb2 & Htie & Hm0).
  exists m. split.
  { split; [exact Hm0|].
    assert (Hk : (k + 1 <= e + 53)%Z) by (unfold e; lia).
    pose proof (pow2_le _ _ Hk) as Hle.
    rewrite (pow2_add e 53) in Hle.
    change (Binary64.pow2 53) with (inject_Z (2 ^ 53)) in Hle.
    assert (Hlt : (inject_Z m < inject_Z (2 ^ 53 + 1))%Q).
    { rewrite inject_Z_plus. change (inject_Z 1) with 1%Q.
      set (B := inject_Z (2 ^ 53)) in *.
      assert (H : ((inject_Z m - (1 # 2)) * Binary64.pow2 e < B * Binary64.pow2 e)%Q).
      { apply Qle_lt_trans with x; [exact Hb1|].
        apply Qlt_le_trans with (Binary64.pow2 (k + 1)); [exact Hhi|].
        rewrite (Qmult_comm B). exact Hle. }
      apply Qlt_by_scaling in H; [lra | exact Pe]. }
    rewrite <- Zlt_Qlt in Hlt. lia. }
  split.
  { intros Hnormal.
    assert (He : e = (k - 52)%Z) by (unfold e; lia).
    pose proof (pow2_add e 52) as Hadd. rewrite He in Hadd.
    replace (k - 52 + 52)%Z with k in Hadd by lia.
    change (Binary64.pow2 52) with (inject_Z (2 ^ 52)) in Hadd.
    rewrite <- He in Hadd.
    assert (Hlt : (inject_Z (2 ^ 52 + -1) < inject_Z m)%Q).
    { rewrite inject_Z_plus. change (inject_Z (-1)) with (-1)%Q.
      set (B := inject_Z (2 ^ 52)) in *.
      assert (H : (Binary64.pow2 e * B <= Binary64.pow2 e * (inject_Z m + (1 # 2)))%Q).
      { rewrite <- Hadd. apply Qle_trans with x; [exact Hlo|].
        rewrite Qmult_comm. exact Hb2. }
      apply Qle_by_scaling in H; [lra | exact Pe]. }
    rewrite <- Zlt_Qlt in Hlt. lia. }
  split; [exact Hb1|]. split; [exact Hb2|]. split; [exact Htie|].
  reflexivity.
Qed.

(** The doubles of 0.1 and 0.3, the sum 0.1 + 0.2 that is not 0.3, ties
    to even at the end of the 53-bit range, overflow and the smallest
    positive double. *)
Lemma binary64_round_examples :
  literal (1 # 10) = Fin (3602879701896397 # 36028797018963968)
  /\ literal (3 # 10) = Fin (5404319552844595 # 18014398509481984)
  /\ fadd binary64 (literal (1 # 10)) (literal (2 # 10))
     = Fin (1351079888211149 # 4503599627370496)
  /\ fdiv binary64 (of_Z 1) (of_Z 3) = Fin (6004799503160661 # 18014398509481984)
  /\ Binary64.round (of_Z (2 ^ 53 + 1)) = of_Z (2 ^ 53)
  /\ Binary64.round (of_Z (2 ^ 53 + 3)) = of_Z (2 ^ 53 + 4)
  /\ Binary64.round (of_Z (2 ^ 1024 - 2 ^ 970 - 1)) = of_Z (2 ^ 1024 - 2 ^ 971)
  /\ Binary64.round (of_Z (2 ^ 1024 - 2 ^ 970)) = PInf
  /\ Binary64.round (Fin (Binary64.pow2 (-1074))) = Fin (Binary64.pow2 (-1074))
  /\ Binary64.round (Fin (Binary64.pow2 (-1075))) = Fin 0
  /\ fdiv binary64 (of_Z 1) (of_Z 0) = PInf
  /\ fsub binary64 PInf PInf = NaN.
Proof. repeat split; vm_compute; reflexivity. Qed.

Lemma mean_in_order_length (A : arithmetic) (window : nat) (s : Series) :
  length (Rounded.mean_in_order A window s) = length s.
Proof.
  unfold Rounded.mean_in_order, rolling.
  rewrite length_fmap, length_seq. reflexivity.
Qed.

(** ** EMA crossover *)

Lemma ewm_loop_length (alpha : float) (minp : nat) (vals : Series) :
  forall (weighted old_wt new_wt : float) (nobs : nat),
    length (ewm_loop alpha minp weighted old_wt new_wt nobs vals) = length vals.
Proof.
  induction vals as [|cur rest IH]; intros weighted old_wt new_wt nobs; simpl.
  - reflexivity.
  - destruct (notna weighted), (notna cur);
      try destruct (Float.neb weighted cur); simpl; rewrite IH; reflexivity.
Qed.

Lemma ewm_mean_length (alpha : float) (min_periods : nat) (vals : Series) :
  length (ewm_mean alpha min_periods vals) = length vals.
Proof.
  destruct vals as [|first rest]; simpl; [reflexivity|].
  rewrite ewm_loop_length. reflexivity.
Qed.

Lemma rounded_ewm_loop_length (A : arithmetic) (com factor : float) (minp : nat)
    (vals : Series) :
  forall (weighted old_wt new_wt : float) (nobs : nat),
    length (Rounded.ewm_loop A com factor minp weighted old_wt new_wt nobs vals)
    = length vals.
Proof.
  induction vals as [|cur rest IH]; intros weighted old_wt new_wt nobs; simpl.
  - reflexivity.
  - destruct (notna weighted), (notna cur);
      try destruct (Float.neb weighted cur); simpl; rewrite IH; reflexivity.
Qed.

Lemma rounded_ewm_mean_length (A : arithmetic) (com : float) (min_periods : nat)
    (vals : Series) :
  length (Rounded.ewm_mean A com min_periods vals) = length vals.
Proof.
  destruct vals as [|first rest]; simpl; [reflexivity|].
  rewrite rounded_ewm_loop_length. reflexivity.
Qed.

(** On a series of defined values pandas' loop computes the moving
    average of the specification, in the same arithmetic. *)
Lemma rounded_ewm_loop_ema (A : arithmetic) (com alpha : float) (xs : Series) :
  RoundedSpec.regular A com alpha ->
  Forall (fun x => notna x = true) xs ->
  forall (weighted : float) (nobs : nat),
    Rounded.ewm_loop A com (fsub A (of_Z 1) alpha) 1 weighted (of_Z 1) alpha
      (S nobs) xs
    = RoundedSpec.ema_from A alpha weighted xs.
Proof.
  intros Hcom Hxs. induction Hxs as [|x xs Hx _ IH]; intros weighted nobs.
  - reflexivity.
  - cbn [Rounded.ewm_loop RoundedSpec.ema_from]. rewrite Hx.
    assert (Hreset :
      (if Float.eqb com (of_Z 1)
       then fsub A (of_Z 1) (fmul A (of_Z 1) (fsub A (of_Z 1) alpha))
       else alpha) = alpha).
    { destruct (Float.eqb com (of_Z 1)) eqn:E; [apply Hcom, E | reflexivity]. }
    rewrite Hreset.
    unfold RoundedSpec.ema_step, notna, Float.neb.
    destruct (isnan weighted); cbn [negb].
    + cbn [Nat.leb]. f_equal. apply IH.
    + destruct (Float.eqb weighted x); cbn [negb Nat.leb]; f_equal; apply IH.
Qed.

Lemma rounded_ewm_mean_ema (A : arithmetic) (span : Z) (xs : Series) :
  RoundedSpec.regular A (Rounded.com_of_span A span) (RoundedSpec.smoothing A span) ->
  Forall (fun x => notna x = true) xs ->
  Rounded.ewm_mean A (Rounded.com_of_span A span) 0 xs
  = RoundedSpec.ema A (RoundedSpec.smoothing A span) xs.
Proof.
  intros Hcom Hxs. destruct Hxs as [|x xs Hx Hxs]; [reflexivity|].
  unfold Rounded.ewm_mean, RoundedSpec.ema. cbv zeta.
  rewrite Hx. cbn [Nat.max Nat.leb]. f_equal.
  apply (rounded_ewm_loop_ema A _ _ xs Hcom Hxs).
Qed.

Lemma regular_off_one (A : arithmetic) (com alpha : float) :
  Float.eqb com (of_Z 1) = false -> RoundedSpec.regular A com alpha.
Proof. intros H H'. congruence. Qed.

(** The two averages the evaluator compares. *)
Lemma rounded_check_ema_crossover_eval (A : arithmetic) (df : DataFrame)
    (close : Series) :
  columns df !! "Close" = Some close ->
  length close = len df ->
  21 <= len df ->
  exists prev_fast curr_fast prev_slow curr_slow,
    Spec.last_two (Rounded.ewm_mean A (Rounded.com_of_span A 8) 0 close)
    = Some (prev_fast, curr_fast)
    /\ Spec.last_two (Rounded.ewm_mean A (Rounded.com_of_span A 21) 0 close)
       = Some (prev_slow, curr_slow)
    /\ Rounded.check_ema_crossover A df 8 21 =
       Ok (if ((prev_fast <=? prev_slow) && (curr_fast >? curr_slow))%float
           then mkVerdict PASS (Text "EMA 8 just crossed above EMA 21")
                  (PDict [("ema_fast", curr_fast); ("ema_slow", curr_slow)])
           else mkVerdict FAIL (Text "No recent bullish EMA crossover")
                  (PDict [("ema_fast", curr_fast); ("ema_slow", curr_slow)])).
Proof.
  intros Hclose Hlen Hbars.
  destruct (split_last_two (Rounded.ewm_mean A (Rounded.com_of_span A 8) 0 close))
    as (pf & a & b & Hf); [rewrite rounded_ewm_mean_length; lia|].
  destruct (split_last_two (Rounded.ewm_mean A (Rounded.com_of_span A 21) 0 close))
    as (ps & c & d & Hs); [rewrite rounded_ewm_mean_length; lia|].
  exists a, b, c, d.
  rewrite Hf, Hs, !last_two_app. split; [reflexivity|]. split; [reflexivity|].
  unfold Rounded.check_ema_crossover, getitem. rewrite Hclose.
  replace (Z.of_nat (len df) <? 21)%Z with false
    by (symmetry; apply Z.ltb_ge; lia).
  replace (len df <? 2)%nat with false
    by (symmetry; apply Nat.ltb_ge; lia).
  unfold Rounded.ewm_span.
  change (8 <? 1)%Z with false. change (21 <? 1)%Z with false.
  cbv beta iota. cbn [exc_bind].
  rewrite Hf, Hs.
  rewrite !iloc_minus_2, !iloc_minus_1_two. cbn [exc_bind].
  destruct ((a <=? c) && (b >? d))%float; reflexivity.
Qed.

(** Without rounding, a step of the loop moves the running value
    towards the new value by [alpha] times the distance, and the weight
    of an observation stays [alpha]. *)
Lemma exact_ewm_step (alpha f n w w' x : Q) (reset : bool) :
  (f == 1 - alpha)%Q -> (n == alpha)%Q -> (w == w')%Q ->
  exists q m,
    (if reset then fsub exact (of_Z 1) (fmul exact (of_Z 1) (Fin f)) else Fin n)
    = Fin m
    /\ (m == alpha)%Q
    /\ fdiv exact
         (fadd exact (fmul exact (fmul exact (of_Z 1) (Fin f)) (Fin w))
            (fmul exact (Fin m) (Fin x)))
         (fadd exact (fmul exact (of_Z 1) (Fin f)) (Fin m))
       = Fin q
    /\ (q == (1 - alpha) * w' + alpha * x)%Q.
Proof.
  intros Hf Hn Hw.
  set (m := if reset then Qred (inject_Z 1 + Qred (- Qred (inject_Z 1 * f))) else n).
  assert (Hm : (m == alpha)%Q).
  { unfold m. destruct reset; [|exact Hn].
    rewrite !Qred_correct, Hf. unfold inject_Z. ring. }
  set (b := Qred (Qred (inject_Z 1 * f) + m)).
  assert (Hb : (b == 1)%Q).
  { unfold b. rewrite !Qred_correct, Hf, Hm. unfold inject_Z. ring. }
  assert (Hb0 : Qeq_bool b 0 = false).
  { destruct (Qeq_bool b 0) eqn:E; [|reflexivity].
    apply Qeq_bool_eq in E. rewrite Hb in E. discriminate E. }
  eexists _, m. split; [unfold m; destruct reset; reflexivity|].
  split; [exact Hm|].
  cbn [fdiv fadd fmul exact Float.div Float.add Float.mul of_Z]. fold b.
  rewrite Hb0. split; [reflexivity|].
  rewrite !Qred_correct. fold b. rewrite Hb, Hf, Hm, <- Hw. unfold inject_Z. field.
Qed.

Lemma exact_ewm_loop_ema (com : float) (alpha f : Q) (xs : list Q) :
  (f == 1 - alpha)%Q ->
  forall (w w' n : Q) (nobs : nat),
    (n == alpha)%Q -> (w == w')%Q ->
    Forall2 Spec.same_number
      (Rounded.ewm_loop exact com (Fin f) 1 (Fin w) (of_Z 1) (Fin n) (S nobs)
         (Fin <$> xs))
      (Fin <$> Spec.ema_from alpha w' xs).
Proof.
  intros Hf. induction xs as [|x xs IH]; intros w w' n nobs Hn Hw.
  - constructor.
  - cbn [Rounded.ewm_loop fmap list_fmap Spec.ema_from notna isnan negb].
    destruct (Float.neb (Fin w) (Fin x)) eqn:Hwx.
    + destruct (exact_ewm_step alpha f n w w' x (Float.eqb com (of_Z 1)) Hf Hn Hw)
        as (q & m & Hreset & Hm & Hq & Hval).
      rewrite Hreset, Hq. cbn [Nat.leb].
      constructor; [exact Hval | apply IH; assumption].
    + cbn [Nat.leb].
      assert (Hval : (w == (1 - alpha) * w' + alpha * x)%Q).
      { unfold Float.neb, Float.eqb in Hwx. apply negb_false_iff in Hwx.
        apply Qeq_bool_eq in Hwx. rewrite <- Hw, <- Hwx. ring. }
      constructor; [exact Hval | apply IH; assumption].
Qed.

(** Without rounding, the centre of mass [(span - 1) / 2] gives the
    smoothing factor [2 / (span + 1)]. *)
Lemma exact_alpha_of_span (span : Z) :
  (1 <= span)%Z ->
  exists a f,
    Rounded.alpha_of exact (Rounded.com_of_span exact span) = Fin a
    /\ fsub exact (of_Z 1) (Fin a) = Fin f
    /\ (a == 2 # Z.to_pos (span + 1))%Q
    /\ (f == 1 - (2 # Z.to_pos (span + 1)))%Q.
Proof.
  intros Hspan.
  assert (Hc : (Qred (inject_Z (span - 1) / inject_Z 2)
                == inject_Z (span - 1) / 2)%Q)
    by (rewrite Qred_correct; reflexivity).
  assert (Hpos : (0 <= inject_Z (span - 1))%Q)
    by (rewrite <- (Zle_Qle 0); lia).
  set (c := Qred (inject_Z (span - 1) / inject_Z 2)) in *.
  set (d := Qred (inject_Z 1 + c)).
  assert (Hd : (d == (inject_Z (span - 1) + 2) / 2)%Q).
  { unfold d. rewrite Qred_correct, Hc. unfold inject_Z at 1. field. }
  assert (Hd0 : Qeq_bool d 0 = false).
  { destruct (Qeq_bool d 0) eqn:E; [|reflexivity].
    apply Qeq_bool_eq in E. rewrite Hd in E. exfalso.
    assert (Hh : ((inject_Z (span - 1) + 2) / 2
                  == inject_Z (span - 1) * (1 # 2) + 1)%Q) by field.
    rewrite Hh in E. lra. }
  assert (Hsp : (inject_Z (span - 1) + 2 == inject_Z (span + 1))%Q).
  { unfold Qeq, Qplus, inject_Z. simpl. lia. }
  assert (Ha : (Qred (inject_Z 1 / d) == 2 # Z.to_pos (span + 1))%Q).
  { rewrite Qred_correct, Hd, Hsp. unfold inject_Z at 1.
    rewrite (Qmake_Qdiv 2 (Z.to_pos (span + 1))).
    rewrite Z2Pos.id by lia.
    field. intros H0. rewrite <- Hsp in H0. lra. }
  exists (Qred (inject_Z 1 / d)), (Qred (inject_Z 1 + Qred (- Qred (inject_Z 1 / d)))).
  split.
  { unfold Rounded.alpha_of, Rounded.com_of_span.
    cbn [fdiv fadd exact Float.div Float.add of_Z].
    change (Qeq_bool (inject_Z 2) 0) with false. cbv iota. fold c. fold d.
    rewrite Hd0. reflexivity. }
  split; [reflexivity|]. split; [exact Ha|].
  rewrite !Qred_correct. rewrite Qred_correct in Ha. rewrite Ha.
  unfold inject_Z. ring.
Qed.

(** Without rounding, on finite values, the exponentially weighted mean
    of a span is the textbook moving average with factor
    [2 / (span + 1)]. *)
Lemma exact_ewm_mean_ema (span : Z) (prices : list Q) :
  (1 <= span)%Z ->
  Forall2 Spec.same_number
    (Rounded.ewm_mean exact (Rounded.com_of_span exact span) 0 (Fin <$> prices))
    (Fin <$> Spec.ema (2 # Z.to_pos (span + 1)) prices).
Proof.
  intros Hspan. destruct prices as [|x xs]; [constructor|].
  destruct (exact_alpha_of_span span Hspan) as (a & f & Ha & Hf & Haq & Hfq).
  unfold Rounded.ewm_mean. cbv zeta. rewrite Ha, Hf.
  cbn [fmap list_fmap Spec.ema notna isnan negb Nat.max Nat.leb].
  constructor; [simpl; reflexivity|].
  apply exact_ewm_loop_ema; [exact Hfq | exact Haq | reflexivity].
Qed.

(** C3.  With the default spans 8 and 21 and whatever the rounding of
    the arithmetic, on a bar table of at least 21 rows the EMA crossover
    evaluator returns Pass exactly when, at the last two bars, the fast
    average was at most the slow one and is now above it, and Fail
    otherwise; on fewer than 21 rows it returns Fail.  On defined prices
    the two averages follow the recurrence of the exponential moving
    average, computed in the same arithmetic; without rounding they are
    the moving averages with factors 2/9 and 2/22.  In binary64 a
    crossover at the last bar passes and the same crossover one bar
    earlier fails; so do the two series 102, ..., 102, 3, 170 and
    102, ..., 102, 3, 170, 171, on which the slow average is one unit in
    the last place below 100 and arithmetic without rounding gives the
    opposite verdicts. *)
Theorem ema_crossover_fresh_at_last_bar (A : arithmetic) (df : DataFrame)
    (close : Series) :
  columns df !! "Close" = Some close ->
  length close = len df ->
  (21 <= len df ->
   exists v prev_fast curr_fast prev_slow curr_slow,
     Rounded.check_ema_crossover A df 8 21 = Ok v
     /\ Spec.last_two (Rounded.ewm_mean A (Rounded.com_of_span A 8) 0 close)
        = Some (prev_fast, curr_fast)
     /\ Spec.last_two (Rounded.ewm_mean A (Rounded.com_of_span A 21) 0 close)
        = Some (prev_slow, curr_slow)
     /\ (status v = PASS <->
         (prev_fast <=? prev_slow)%float = true
         /\ (curr_fast >? curr_slow)%float = true)
     /\ (status v = PASS \/ status v = FAIL))
  /\ (len df < 21 ->
      exists v, Rounded.check_ema_crossover A df 8 21 = Ok v /\ status v = FAIL)
  /\ (Forall (fun x => notna x = true) close ->
      Float.eqb (Rounded.com_of_span A 8) (of_Z 1) = false ->
      Float.eqb (Rounded.com_of_span A 21) (of_Z 1) = false ->
      Rounded.ewm_mean A (Rounded.com_of_span A 8) 0 close
      = RoundedSpec.ema A (RoundedSpec.smoothing A 8) close
      /\ Rounded.ewm_mean A (Rounded.com_of_span A 21) 0 close
         = RoundedSpec.ema A (RoundedSpec.smoothing A 21) close)
  /\ (forall prices : list Q,
        close = Fin <$> prices ->
        Forall2 Spec.same_number
          (Rounded.ewm_mean exact (Rounded.com_of_span exact 8) 0 close)
          (Fin <$> Spec.ema (2 # 9) prices)
        /\ Forall2 Spec.same_number
             (Rounded.ewm_mean exact (Rounded.com_of_span exact 21) 0 close)
             (Fin <$> Spec.ema (2 # 22) prices))
  /\ (exists v, Rounded.check_ema_crossover binary64
                  Samples.ema_cross_at_last_bar 8 21 = Ok v
                /\ status v = PASS)
  /\ (exists v, Rounded.check_ema_crossover binary64
                  Samples.ema_cross_one_bar_earlier 8 21 = Ok v
                /\ status v = FAIL)
  /\ (exists v w, Rounded.check_ema_crossover binary64
                    RoundingSamples.ema_rounding_pass 8 21 = Ok v
                  /\ status v = PASS
                  /\ Rounded.check_ema_crossover exact
                       RoundingSamples.ema_rounding_pass 8 21 = Ok w
                  /\ status w = FAIL)
  /\ (exists v w, Rounded.check_ema_crossover binary64
                    RoundingSamples.ema_rounding_fail 8 21 = Ok v
                  /\ status v = FAIL
                  /\ Rounded.check_ema_crossover exact
                       RoundingSamples.ema_rounding_fail 8 21 = Ok w
                  /\ status w = PASS).
Proof.
  intros Hclose Hlen.
  split; [|split; [|split; [|split; [|split; [|split; [|split]]]]]].
  - intros Hbars.
    destruct (rounded_check_ema_crossover_eval A df close Hclose Hlen Hbars)
      as (a & b & c & d & Hf & Hs & Hv).
    eexists _, a, b, c, d. split; [exact Hv|]. split; [exact Hf|].
    split; [exact Hs|].
    destruct (a <=? c)%float, (b >? d)%float; simpl;
      (split; [split; [intros H; try discriminate H; auto
                      | intros [H1 H2]; try discriminate; reflexivity]
              | auto]).
  - intros Hshort. unfold Rounded.check_ema_crossover.
    replace (Z.of_nat (len df) <? 21)%Z with true
      by (symmetry; apply Z.ltb_lt; lia).
    eauto.
  - intros Hdef H8 H21.
    split; apply rounded_ewm_mean_ema; auto using regular_off_one.
  - intros prices ->.
    split; [apply (exact_ewm_mean_ema 8) | apply (exact_ewm_mean_ema 21)]; lia.
  - eexists. split; [vm_compute; reflexivity|reflexivity].
  - eexists. split; [vm_compute; reflexivity|reflexivity].
  - eexists _, _. split; [vm_compute; reflexivity|].
    split; [reflexivity|]. split; [vm_compute; reflexivity | reflexivity].
  - eexists _, _. split; [vm_compute; reflexivity|].
    split; [reflexivity|]. split; [vm_compute; reflexivity | reflexivity].
Qed.

(** ** Short-squeeze risk *)

Lemma iloc_minus_1_last (s : Series) :
  iloc s (-1) = match last s with
                | Some x => Ok x
                | None => Raise IndexError
                end.
Proof.
  destruct s as [|x s] using rev_ind; [reflexivity|].
  rewrite iloc_minus_1, last_snoc. reflexivity.
Qed.



Lemma Qlt_bool_iff (a b : Q) : Float.Qlt_bool a b = true <-> (a < b)%Q.
Proof.
  unfold Float.Qlt_bool. rewrite negb_true_iff.
  destruct (Qle_bool b a) eqn:E.
  - apply Qle_bool_iff in E. split; [discriminate | intros H; exfalso; lra].
  - split; [intros _ | reflexivity].
    destruct (Qlt_le_dec a b) as [H|H]; [exact H|].
    apply Qle_bool_iff in H. congruence.
Qed.

Lemma Qlt_bool_false_iff (a b : Q) : Float.Qlt_bool a b = false <-> (b <= a)%Q.
Proof.
  unfold Float.Qlt_bool. rewrite negb_false_iff. apply Qle_bool_iff.
Qed.

Lemma ltb_max (x y a : float) :
  notna x = true -> notna y = true ->
  Float.ltb (Float.max x y) a = Float.ltb x a && Float.ltb y a.
Proof.
  intros Hx Hy. unfold Float.max.
  destruct x as [p| | |], y as [q| | |]; try discriminate;
    destruct a as [r| | |]; simpl;
    try reflexivity;
    try (destruct (Float.Qlt_bool _ _); reflexivity).
  destruct (Float.Qlt_bool p q) eqn:E1; simpl;
    destruct (Float.Qlt_bool p r) eqn:E2, (Float.Qlt_bool q r) eqn:E3;
    try reflexivity; exfalso;
    rewrite ?Qlt_bool_iff, ?Qlt_bool_false_iff in *; lra.
Qed.

Lemma notna_max (x y : float) :
  notna x = true -> notna y = true -> notna (Float.max x y) = true.
Proof. intros Hx Hy. unfold Float.max. destruct (Float.ltb x y); assumption. Qed.

Lemma ltb_fold_max (w : Series) :
  forall acc a : float,
    notna acc = true -> forallb notna w = true ->
    Float.ltb (fold_left Float.max w acc) a =
    Float.ltb acc a && forallb (fun x => Float.ltb x a) w.
Proof.
  induction w as [|x w IH]; intros acc a Hacc Hw; simpl.
  - rewrite andb_true_r. reflexivity.
  - simpl in Hw. apply andb_true_iff in Hw as [Hx Hw].
    rewrite IH by (auto using notna_max).
    rewrite ltb_max by assumption. rewrite andb_assoc. reflexivity.
Qed.

(** A number exceeds the maximum of a window of defined values exactly
    when the window is not empty and the number exceeds each value. *)
Lemma gtb_series_max (w : Series) (a : float) :
  forallb notna w = true ->
  (a >? series_max w)%float =
  negb (length w =? 0)%nat && forallb (fun x => a >? x)%float w.
Proof.
  intros Hw. unfold Float.gtb, series_max.
  destruct w as [|x w]; [reflexivity|].
  simpl in Hw. apply andb_true_iff in Hw as [Hx Hw].
  rewrite ltb_fold_max by assumption. reflexivity.
Qed.

(** A close breaks the resistance exactly when the 30 bars before the
    last one exist, are all defined, and each closed below it. *)
Lemma breaks_resistance (close : Series) (a : float) :
  (a >? Spec.resistance_excluding_current close)%float =
  let before := take (length close - 1) close in
  let window := drop (length before - 30) before in
  (30 <=? length before)%nat && forallb notna window
  && forallb (fun x => a >? x)%float window.
Proof.
  unfold Spec.resistance_excluding_current. cbv zeta.
  set (before := take (length close - 1) close).
  set (window := drop (length before - 30) before).
  destruct (Nat.leb_spec 30 (length before)) as [Hlen|Hlen]; cbn [andb];
    [|reflexivity].
  destruct (forallb notna window) eqn:Hdef; cbn [andb]; [|reflexivity].
  rewrite gtb_series_max by exact Hdef.
  replace (length window =? 0)%nat with false; [reflexivity|].
  symmetry. apply Nat.eqb_neq. unfold window. rewrite length_drop. lia.
Qed.







(** ** The two presentations without rounding *)

Lemma same_number_refl (x : float) : Spec.same_number x x.
Proof. destruct x; simpl; [reflexivity | exact I | exact I | exact I]. Qed.

Lemma Qeq_bool_same (a a' b b' : Q) :
  (a == a')%Q -> (b == b')%Q -> Qeq_bool a b = Qeq_bool a' b'.
Proof.
  intros Ha Hb. destruct (Qeq_bool a' b') eqn:E.
  - apply Qeq_bool_iff. apply Qeq_bool_iff in E. rewrite Ha, Hb. exact E.
  - destruct (Qeq_bool a b) eqn:E'; [|reflexivity].
    apply Qeq_bool_iff in E'. rewrite Ha, Hb in E'.
    apply Qeq_bool_iff in E'. congruence.
Qed.

Lemma Qlt_bool_same (a a' b b' : Q) :
  (a == a')%Q -> (b == b')%Q -> Float.Qlt_bool a b = Float.Qlt_bool a' b'.
Proof.
  intros Ha Hb. unfold Float.Qlt_bool. f_equal.
  destruct (Qle_bool b' a') eqn:E.
  - apply Qle_bool_iff. apply Qle_bool_iff in E. rewrite Ha, Hb. exact E.
  - destruct (Qle_bool b a) eqn:E'; [|reflexivity].
    apply Qle_bool_iff in E'. rewrite Ha, Hb in E'.
    apply Qle_bool_iff in E'. congruence.
Qed.

(** Operands that denote the same numbers give the same result. *)
Lemma add_same (x x' y y' : float) :
  Spec.same_number x x' -> Spec.same_number y y' ->
  (x + y)%float = (x' + y')%float.
Proof.
  destruct x, x', y, y'; simpl; intros Hx Hy; try contradiction;
    try reflexivity.
  f_equal. apply Qred_complete. rewrite Hx, Hy. reflexivity.
Qed.

Lemma neg_same (x x' : float) :
  Spec.same_number x x' -> (- x)%float = (- x')%float.
Proof.
  destruct x, x'; simpl; intros Hx; try contradiction; try reflexivity.
  f_equal. apply Qred_complete. rewrite Hx. reflexivity.
Qed.

Lemma sub_same (x x' y y' : float) :
  Spec.same_number x x' -> Spec.same_number y y' ->
  (x - y)%float = (x' - y')%float.
Proof.
  intros Hx Hy. unfold Float.sub. rewrite (neg_same y y' Hy).
  apply add_same; [exact Hx | apply same_number_refl].
Qed.

Lemma mul_same (x x' y y' : float) :
  Spec.same_number x x' -> Spec.same_number y y' ->
  (x * y)%float = (x' * y')%float.
Proof.
  destruct x, x', y, y'; simpl; intros Hx Hy; try contradiction;
    try reflexivity;
    try (unfold Float.inf_times;
         first [ rewrite (Qeq_bool_same _ _ 0 0 Hx (Qeq_refl 0)),
                   (Qlt_bool_same 0 0 _ _ (Qeq_refl 0) Hx)
               | rewrite (Qeq_bool_same _ _ 0 0 Hy (Qeq_refl 0)),
                   (Qlt_bool_same 0 0 _ _ (Qeq_refl 0) Hy) ];
         reflexivity).
  f_equal. apply Qred_complete. rewrite Hx, Hy. reflexivity.
Qed.

Lemma div_same (x x' y y' : float) :
  Spec.same_number x x' -> Spec.same_number y y' ->
  (x / y)%float = (x' / y')%float.
Proof.
  destruct x, x', y, y'; simpl; intros Hx Hy; try contradiction;
    try reflexivity;
    try (rewrite (Qlt_bool_same _ _ 0 0 Hy (Qeq_refl 0)); reflexivity).
  rewrite (Qeq_bool_same _ _ 0 0 Hy (Qeq_refl 0)),
    (Qeq_bool_same _ _ 0 0 Hx (Qeq_refl 0)),
    (Qlt_bool_same 0 0 _ _ (Qeq_refl 0) Hx).
  destruct (Qeq_bool q2 0) eqn:E; [reflexivity|].
  f_equal. apply Qred_complete. rewrite Hx, Hy. reflexivity.
Qed.

Lemma eqb_same (x x' y y' : float) :
  Spec.same_number x x' -> Spec.same_number y y' ->
  Float.eqb x y = Float.eqb x' y'.
Proof.
  destruct x, x', y, y'; simpl; intros Hx Hy; try contradiction;
    try reflexivity.
  apply Qeq_bool_same; assumption.
Qed.

(** Without rounding the loop of [Rounded] is the loop above. *)
Lemma ewm_loop_exact (com alpha alpha' : float) (minp : nat) :
  Spec.same_number alpha' alpha ->
  Float.eqb com (of_Z 1) = Float.eqb ((of_Z 1 - alpha) / alpha) (of_Z 1) ->
  forall (vals : Series) (weighted old_wt old_wt' new_wt new_wt' : float)
         (nobs : nat),
    Spec.same_number old_wt' old_wt ->
    Spec.same_number new_wt' new_wt ->
    Rounded.ewm_loop exact com (fsub exact (of_Z 1) alpha') minp
      weighted old_wt' new_wt' nobs vals
    = ewm_loop alpha minp weighted old_wt new_wt nobs vals.
Proof.
  intros Halpha Hcom.
  induction vals as [|cur rest IH];
    intros weighted old_wt old_wt' new_wt new_wt' nobs Ho Hn; [reflexivity|].
  cbn [Rounded.ewm_loop ewm_loop fsub fmul fadd fdiv exact].
  rewrite Hcom.
  assert (Hold : (old_wt' * (of_Z 1 - alpha'))%float
                 = (old_wt * (of_Z 1 - alpha))%float).
  { apply mul_same; [exact Ho|].
    rewrite (sub_same _ (of_Z 1) _ alpha (same_number_refl _) Halpha).
    apply same_number_refl. }
  rewrite Hold.
  set (o := (old_wt * (of_Z 1 - alpha))%float).
  set (reset := Float.eqb ((of_Z 1 - alpha) / alpha) (of_Z 1)).
  assert (Hnew : Spec.same_number
                   (if reset then (of_Z 1 - o)%float else new_wt')
                   (if reset then (of_Z 1 - o)%float else new_wt)).
  { destruct reset; [apply same_number_refl | exact Hn]. }
  set (n' := if reset then (of_Z 1 - o)%float else new_wt') in *.
  set (n := if reset then (of_Z 1 - o)%float else new_wt) in *.
  assert (Hw : ((o * weighted + n' * cur) / (o + n'))%float
               = ((o * weighted + n * cur) / (o + n))%float).
  { apply div_same.
    - rewrite (mul_same n' n cur cur Hnew (same_number_refl _)).
      apply same_number_refl.
    - rewrite (add_same o o n' n (same_number_refl _) Hnew).
      apply same_number_refl. }
  rewrite Hw.
  destruct (notna weighted), (notna cur);
    try destruct (Float.neb weighted cur);
    cbv beta iota; f_equal; apply IH;
    first [assumption | apply same_number_refl].
Qed.

Lemma ewm_mean_exact (com alpha : float) (min_periods : nat) (vals : Series) :
  Spec.same_number (Rounded.alpha_of exact com) alpha ->
  Float.eqb com (of_Z 1) = Float.eqb ((of_Z 1 - alpha) / alpha) (of_Z 1) ->
  Rounded.ewm_mean exact com min_periods vals = ewm_mean alpha min_periods vals.
Proof.
  intros Halpha Hcom. destruct vals as [|first rest]; [reflexivity|].
  unfold Rounded.ewm_mean, ewm_mean. cbv zeta. f_equal.
  apply ewm_loop_exact; [exact Halpha | exact Hcom | apply same_number_refl
                        | exact Halpha].
Qed.

(** The centre of mass of a span is the one of its smoothing factor. *)
Lemma com_of_span_factor (span : Z) :
  (1 <= span)%Z ->
  Spec.same_number
    ((of_Z 1 - Fin (2 # Z.to_pos (span + 1))) / Fin (2 # Z.to_pos (span + 1)))%float
    (Rounded.com_of_span exact span).
Proof.
  intros Hspan. unfold Rounded.com_of_span.
  cbn [fdiv exact Float.div Float.sub Float.add Float.neg of_Z].
  change (Qeq_bool (inject_Z 2) 0) with false.
  change (Qeq_bool (2 # Z.to_pos (span + 1)) 0) with false.
  cbv iota. simpl. rewrite !Qred_correct.
  rewrite (Qmake_Qdiv 2 (Z.to_pos (span + 1))).
  rewrite Z2Pos.id by lia.
  assert (Hs : (inject_Z (span + 1) == inject_Z (span - 1) + 2)%Q)
    by (unfold Qeq, Qplus, inject_Z; simpl; lia).
  assert (Hpos : (0 <= inject_Z (span - 1))%Q)
    by (rewrite <- (Zle_Qle 0); lia).
  rewrite Hs. unfold inject_Z at 1 2 4. field. lra.
Qed.

Lemma ewm_span_exact (span : Z) (s : Series) :
  Rounded.ewm_span exact span s = ewm_span span s.
Proof.
  unfold Rounded.ewm_span, ewm_span.
  destruct (Z.ltb_spec span 1) as [Hlt|Hge]; [reflexivity|]. f_equal.
  destruct (exact_alpha_of_span span Hge) as (a & f & Ha & _ & Haq & _).
  apply ewm_mean_exact.
  - rewrite Ha. exact Haq.
  - symmetry. apply eqb_same; [apply com_of_span_factor, Hge|].
    apply same_number_refl.
Qed.

(** Without rounding the methods of [Rounded] are the methods above. *)
Lemma get_macd_exact (data : DataFrame) (fast slow signal_period : Z) :
  Rounded.get_macd exact data fast slow signal_period
  = get_macd data fast slow signal_period.
Proof.
  unfold Rounded.get_macd, get_macd.
  destruct (Z.of_nat (len data) <? slow)%Z; [reflexivity|].
  destruct (getitem data "Close") as [close|e]; [|reflexivity].
  cbn [exc_bind]. rewrite !ewm_span_exact.
  destruct (ewm_span fast close) as [ema_fast|e]; [|reflexivity].
  cbn [exc_bind].
  destruct (ewm_span slow close) as [ema_slow|e]; [|reflexivity].
  cbn [exc_bind]. rewrite ewm_span_exact. reflexivity.
Qed.

Lemma check_ema_crossover_exact (df : DataFrame) (fast slow : Z) :
  Rounded.check_ema_crossover exact df fast slow
  = check_ema_crossover df fast slow.
Proof.
  unfold Rounded.check_ema_crossover, check_ema_crossover.
  destruct (Z.of_nat (len df) <? slow)%Z; [reflexivity|].
  destruct (getitem df "Close") as [close|e]; [|reflexivity].
  cbn [exc_bind]. rewrite !ewm_span_exact. reflexivity.
Qed.

Lemma check_short_squeeze_risk_exact (df : DataFrame) :
  Rounded.check_short_squeeze_risk exact (Rounded.mean_in_order exact) df
  = check_short_squeeze_risk df.
Proof. reflexivity. Qed.

(** ** The store under the analysis pass *)

Lemma preserves_ret {A : Type} (a : A) : preserves_store (ret a).
Proof. intros h. reflexivity. Qed.

Lemma preserves_lift {A : Type} (r : exc A) : preserves_store (lift r).
Proof. intros h. reflexivity. Qed.

Lemma preserves_deref (l : ref) : preserves_store (deref l).
Proof. intros h. reflexivity. Qed.

Lemma preserves_bind {A B : Type} (m : store_monad A) (k : A -> store_monad B) :
  preserves_store m -> (forall a, preserves_store (k a)) ->
  preserves_store (bind m k).
Proof.
  intros Hm Hk h. unfold bind. specialize (Hm h).
  destruct (m h) as [[a|e] h1]; simpl in Hm; subst h1; [apply Hk | reflexivity].
Qed.

Lemma preserves_sets_rsi {A : Type} (l : ref) (m : store_monad A) :
  preserves_store m -> sets_rsi_only l m.
Proof. intros Hm h. left. apply Hm. Qed.

Lemma sets_rsi_then_preserves {A B : Type} (l : ref)
    (m : store_monad A) (k : A -> store_monad B) :
  sets_rsi_only l m -> (forall a, preserves_store (k a)) ->
  sets_rsi_only l (bind m k).
Proof.
  intros Hm Hk h. unfold bind. specialize (Hm h).
  destruct (m h) as [[a|e] h1]; simpl in Hm.
  - rewrite (Hk a h1). exact Hm.
  - exact Hm.
Qed.

Lemma preserves_then_sets_rsi {A B : Type} (l : ref)
    (m : store_monad A) (k : A -> store_monad B) :
  preserves_store m -> (forall a, sets_rsi_only l (k a)) ->
  sets_rsi_only l (bind m k).
Proof.
  intros Hm Hk h. unfold bind. specialize (Hm h).
  destruct (m h) as [[a|e] h1]; simpl in Hm; subst h1.
  - apply Hk.
  - left. reflexivity.
Qed.

Ltac preserves :=
  repeat first
    [ apply preserves_ret
    | apply preserves_lift
    | apply preserves_deref
    | apply preserves_bind; [|intros ?]
    | match goal with
      | |- preserves_store (if ?c then _ else _) => destruct c
      end ].

Lemma bind_deref {A : Type} (l : ref) (k : DataFrame -> store_monad A)
    (h : gmap nat DataFrame) :
  bind (deref l) k h = k (h !!! l) h.
Proof. reflexivity. Qed.

(** The RSI step: the column is written once, before the evaluator runs. *)
Lemma rsi_step_sets_rsi (l : ref) (r : result) :
  sets_rsi_only l
    (data <~ deref l;;
     rsi <~ lift (calculate_rsi data 14);;
     _ <~ assign_column l "RSI" rsi;;
     data <~ deref l;;
     v <~ lift (check_rsi_condition data);;
     ret (dict_set r "rsi_confirmation" (EVerdict v))).
Proof.
  intros h. unfold bind, deref, lift, assign_column, ret. cbv beta iota.
  destruct (calculate_rsi (h !!! l) 14) as [rsi|e]; [|left; reflexivity].
  right. exists rsi. cbv beta iota.
  destruct (check_rsi_condition _); reflexivity.
Qed.

Lemma analyze_ticker_sets_rsi (ADXIndicator : ta_library)
    (ticker asset_type : string) (data_df daily_df : ref)
    (current_price : option float) (criteria : gmap string bool)
    (api_client : ApiClient) :
  sets_rsi_only data_df
    (analyze_ticker ADXIndicator ticker asset_type data_df daily_df
       current_price criteria api_client).
Proof.
  unfold analyze_ticker.
  apply preserves_then_sets_rsi; [apply preserves_deref|]. intros data.
  apply sets_rsi_then_preserves; [|intros ?; preserves].
  destruct (negb (df_empty data)); [|apply preserves_sets_rsi; preserves].
  apply sets_rsi_then_preserves; [|intros ?; preserves].
  destruct (criterion criteria "rsi_confirmation");
    [apply rsi_step_sets_rsi | apply preserves_sets_rsi; preserves].
Qed.

Lemma analyze_ticker_no_rsi_preserves (ADXIndicator : ta_library)
    (ticker asset_type : string) (data_df daily_df : ref)
    (current_price : option float) (criteria : gmap string bool)
    (api_client : ApiClient) (h : gmap nat DataFrame) :
  df_empty (h !!! data_df) = true \/ criterion criteria "rsi_confirmation" = false ->
  (analyze_ticker ADXIndicator ticker asset_type data_df daily_df
     current_price criteria api_client h).2 = h.
Proof.
  intros Hskip. unfold analyze_ticker. cbv zeta. rewrite bind_deref.
  match goal with |- (?m h).2 = h => enough (preserves_store m) as Hp by apply Hp end.
  destruct Hskip as [Hempty|Hoff].
  - rewrite Hempty. cbn [negb]. preserves.
  - rewrite Hoff. preserves.
Qed.

(** What a run leaves in the store is decided by its first step when
    the steps after it do not write. *)
Lemma bind_snd_preserves {A B : Type} (m : store_monad A)
    (k : A -> store_monad B) (h : gmap nat DataFrame) :
  (forall a, preserves_store (k a)) -> (bind m k h).2 = (m h).2.
Proof.
  intros Hk. unfold bind. destruct (m h) as [[a|e] h1]; [apply Hk | reflexivity].
Qed.

(** With the RSI criterion on and a long series that is not empty, the
    analysis pass leaves the store with the RSI column written. *)
Lemma analyze_ticker_writes_rsi (ADXIndicator : ta_library)
    (ticker asset_type : string) (data_df daily_df : ref)
    (current_price : option float) (criteria : gmap string bool)
    (api_client : ApiClient) (h : gmap nat DataFrame) :
  df_empty (h !!! data_df) = false ->
  criterion criteria "rsi_confirmation" = true ->
  exists rsi,
    calculate_rsi (h !!! data_df) 14 = Ok rsi
    /\ (analyze_ticker ADXIndicator ticker asset_type data_df daily_df
          current_price criteria api_client h).2
       = <[data_df := setitem (h !!! data_df) "RSI" rsi]> h.
Proof.
  intros Hne Hon.
  destruct (calculate_rsi_default_total (h !!! data_df)) as [rsi Hrsi].
  exists rsi. split; [exact Hrsi|].
  unfold analyze_ticker. cbv zeta. rewrite bind_deref, Hne, Hon. cbn [negb].
  rewrite bind_snd_preserves by (intros ?; preserves).
  rewrite bind_snd_preserves by (intros ?; preserves).
  unfold bind, deref, lift, assign_column, ret. cbv beta iota.
  rewrite Hrsi. cbv beta iota.
  destruct (check_rsi_condition _); reflexivity.
Qed.

Lemma yields_ret (Q : result -> Prop) (r : result) : Q r -> yields Q (ret r).
Proof. intros HQ h r' H. injection H as <-. exact HQ. Qed.

Lemma yields_bind {A : Type} (Q : result -> Prop) (m : store_monad A)
    (k : A -> store_monad result) :
  (forall a, yields Q (k a)) -> yields Q (bind m k).
Proof.
  intros Hk h r. unfold bind. destruct (m h) as [[a|e] h1]; [apply Hk|].
  discriminate.
Qed.

Lemma yields_bind_same (Q : result -> Prop) (m : store_monad result)
    (k : result -> store_monad result) :
  yields Q m -> (forall a, Q a -> yields Q (k a)) -> yields Q (bind m k).
Proof.
  intros Hm Hk h r. unfold bind. destruct (m h) as [[a|e] h1] eqn:E.
  - apply Hk. apply (Hm h). rewrite E. reflexivity.
  - discriminate.
Qed.

Lemma bind_fst_Ok {A B : Type} (m : store_monad A) (k : A -> store_monad B)
    (h : gmap nat DataFrame) (b : B) :
  (bind m k h).1 = Ok b ->
  exists a h1, m h = (Ok a, h1) /\ (k a h1).1 = Ok b.
Proof.
  unfold bind. destruct (m h) as [[a|e] h1]; [eauto | discriminate].
Qed.

Lemma dict_get_set_ne {V : Type} (d : list (string * V)) (k k' : string) (v : V) :
  k <> k' -> dict_get (dict_set d k' v) k = dict_get d k.
Proof.
  intros Hk. induction d as [|[k0 v0] d IH]; simpl.
  - destruct (String.eqb_spec k' k); [congruence | reflexivity].
  - destruct (String.eqb_spec k0 k') as [->|Hne]; simpl.
    + destruct (String.eqb_spec k' k); [congruence | reflexivity].
    + destruct (String.eqb k0 k); [reflexivity | exact IH].
Qed.

Lemma dict_get_set_eq {V : Type} (d : list (string * V)) (k : string) (v : V) :
  dict_get (dict_set d k v) k = Some v.
Proof.
  induction d as [|[k0 v0] d IH]; simpl.
  - rewrite String.eqb_refl. reflexivity.
  - destruct (String.eqb k0 k) eqn:E; simpl; rewrite E; [reflexivity | exact IH].
Qed.

(** A later criterion leaves the entry of the RSI criterion in place. *)
Ltac keeps_entry :=
  repeat first
    [ apply yields_ret; cbv beta;
      first [assumption | rewrite dict_get_set_ne by discriminate; assumption]
    | apply yields_bind_same; [|intros ? ?]
    | apply yields_bind; intros ?
    | match goal with
      | |- yields _ (if ?c then _ else _) => destruct c
      end ].

(** The entry of the RSI criterion is the verdict of the RSI evaluator
    on the long series with its RSI column written. *)
Lemma analyze_ticker_reads_rsi (ADXIndicator : ta_library)
    (ticker asset_type : string) (data_df daily_df : ref)
    (current_price : option float) (criteria : gmap string bool)
    (api_client : ApiClient) (h : gmap nat DataFrame) (rsi : Series)
    (r : result) :
  df_empty (h !!! data_df) = false ->
  criterion criteria "rsi_confirmation" = true ->
  calculate_rsi (h !!! data_df) 14 = Ok rsi ->
  (analyze_ticker ADXIndicator ticker asset_type data_df daily_df
     current_price criteria api_client h).1 = Ok r ->
  exists v,
    check_rsi_condition (setitem (h !!! data_df) "RSI" rsi) = Ok v
    /\ dict_get r "rsi_confirmation" = Some (EVerdict v).
Proof.
  intros Hne Hon Hrsi. unfold analyze_ticker. cbv zeta.
  rewrite bind_deref, Hne, Hon. cbn [negb]. intros Hrun.
  apply bind_fst_Ok in Hrun as (r1 & h1 & Hinner & Hlast).
  apply (f_equal fst) in Hinner. cbn [fst] in Hinner.
  apply bind_fst_Ok in Hinner as (r0 & h0 & Hstep & Hrest).
  unfold bind, deref, lift, assign_column, ret in Hstep. cbv beta iota in Hstep.
  rewrite Hrsi in Hstep. cbv beta iota in Hstep.
  rewrite lookup_total_insert_eq in Hstep.
  destruct (check_rsi_condition (setitem (h !!! data_df) "RSI" rsi)) as [v|e];
    [|discriminate].
  injection Hstep as <- <-.
  exists v. split; [reflexivity|].
  pose proof (dict_get_set_eq (initial_result ticker asset_type current_price)
                "rsi_confirmation" (EVerdict v)) as H0.
  assert (H1 : dict_get r1 "rsi_confirmation" = Some (EVerdict v)).
  { revert Hrest.
    match goal with
    | |- (?m _).1 = Ok r1 -> _ =>
        enough (yields (fun r => dict_get r "rsi_confirmation" = Some (EVerdict v)) m)
          as Hy by apply Hy
    end.
    keeps_entry. }
  revert Hlast.
  match goal with
  | |- (?m _).1 = Ok r -> _ =>
      enough (yields (fun r => dict_get r "rsi_confirmation" = Some (EVerdict v)) m)
        as Hy by apply Hy
  end.
  keeps_entry.
Qed.

(** C9 (as amended).  The analysis pass touches the store of bar tables
    in one place only: the RSI column of the long series.  Every other
    table is as before, and the long series keeps its index and all its
    other columns.  When the long series is not empty and the RSI
    criterion is on, the pass sets that column to the RSI it computes
    from the long series, changes nothing else in the store, and the
    entry it reports for the criterion is the verdict of the RSI
    evaluator on the table so updated.  Nothing at all changes when the
    long series is empty or the RSI criterion is off. *)
Theorem analysis_pass_only_sets_rsi_column (ADXIndicator : ta_library)
    (ticker asset_type : string) (data_df daily_df : ref)
    (current_price : option float) (criteria : gmap string bool)
    (api_client : ApiClient) (h : gmap nat DataFrame) :
  let run := analyze_ticker ADXIndicator ticker asset_type data_df daily_df
               current_price criteria api_client h in
  let h' := run.2 in
  (forall l : ref, l <> data_df -> h' !! l = h !! l)
  /\ index (h' !!! data_df) = index (h !!! data_df)
  /\ (forall name : string,
        name <> "RSI" ->
        columns (h' !!! data_df) !! name = columns (h !!! data_df) !! name)
  /\ (df_empty (h !!! data_df) = true
      \/ criterion criteria "rsi_confirmation" = false ->
      h' = h)
  /\ (df_empty (h !!! data_df) = false ->
      criterion criteria "rsi_confirmation" = true ->
      exists rsi,
        calculate_rsi (h !!! data_df) 14 = Ok rsi
        /\ h' = <[data_df := setitem (h !!! data_df) "RSI" rsi]> h
        /\ (forall r,
              run.1 = Ok r ->
              exists v,
                check_rsi_condition (setitem (h !!! data_df) "RSI" rsi) = Ok v
                /\ dict_get r "rsi_confirmation" = Some (EVerdict v))).
Proof.
  intros run h'. subst run h'.
  split; [|split; [|split; [|split]]].
  - intros l Hl.
    destruct (analyze_ticker_sets_rsi ADXIndicator ticker asset_type data_df
                daily_df current_price criteria api_client h) as [->|[s ->]];
      [reflexivity|].
    apply lookup_insert_ne. congruence.
  - destruct (analyze_ticker_sets_rsi ADXIndicator ticker asset_type data_df
                daily_df current_price criteria api_client h) as [->|[s ->]];
      [reflexivity|].
    rewrite lookup_total_insert_eq. reflexivity.
  - intros name Hname.
    destruct (analyze_ticker_sets_rsi ADXIndicator ticker asset_type data_df
                daily_df current_price criteria api_client h) as [->|[s ->]];
      [reflexivity|].
    rewrite lookup_total_insert_eq. simpl.
    apply lookup_insert_ne. congruence.
  - apply analyze_ticker_no_rsi_preserves.
  - intros Hne Hon.
    destruct (analyze_ticker_writes_rsi ADXIndicator ticker asset_type data_df
                daily_df current_price criteria api_client h Hne Hon)
      as (rsi & Hrsi & Hstore).
    exists rsi. split; [exact Hrsi|]. split; [exact Hstore|].
    intros r Hr.
    exact (analyze_ticker_reads_rsi ADXIndicator ticker asset_type data_df
               daily_df current_price criteria api_client h rsi r Hne Hon Hrsi Hr).
Qed.

(** ** The orchestrator on options *)



(** ** The orchestrator on an empty long series *)

Lemma analyze_ticker_empty (ADXIndicator : ta_library)
    (ticker asset_type : string) (data_df daily_df : ref)
    (current_price : option float) (criteria : gmap string bool)
    (api_client : ApiClient) (h : gmap nat DataFrame) :
  df_empty (h !!! data_df) = true ->
  analyze_ticker ADXIndicator ticker asset_type data_df daily_df
    current_price criteria api_client h =
  (Ok (if criterion criteria "next_earning_date" && String.eqb asset_type "Stock"
       then dict_set (initial_result ticker asset_type current_price)
              "next_earning_date"
              (EVerdict (earnings_verdict api_client ticker))
       else initial_result ticker asset_type current_price),
   h).
Proof.
  intros Hempty. unfold analyze_ticker. cbv zeta. rewrite bind_deref, Hempty.
  cbn [negb]. unfold bind, ret. cbv beta iota.
  destruct (criterion criteria "next_earning_date" && String.eqb asset_type "Stock");
    reflexivity.
Qed.

(** C8 (as amended).  When the long series is empty the orchestrator
    still returns a result and leaves the store alone, but the result
    reports none of the six indicator criteria, enabled or not: it holds
    the ticker, the asset type and the price, and nothing else except the
    earnings verdict of a Stock whose earnings criterion is on. *)
Theorem empty_series_reports_no_indicator (ADXIndicator : ta_library)
    (ticker asset_type : string) (data_df daily_df : ref)
    (current_price : option float) (criteria : gmap string bool)
    (api_client : ApiClient) (h : gmap nat DataFrame) :
  df_empty (h !!! data_df) = true ->
  exists r : result,
    analyze_ticker ADXIndicator ticker asset_type data_df daily_df
      current_price criteria api_client h = (Ok r, h)
    /\ Forall (fun key => dict_get r key = None) Spec.indicator_criteria
    /\ dict_get r "ticker" = Some (EStr ticker)
    /\ dict_get r "asset_type" = Some (EStr asset_type)
    /\ (exists formatted,
          dict_get r "current_price" = Some (EPrice current_price formatted))
    /\ dict_get r "next_earning_date" =
       (if criterion criteria "next_earning_date" && String.eqb asset_type "Stock"
        then Some (EVerdict (earnings_verdict api_client ticker))
        else None)
    /\ length r <= 4.
Proof.
  intros Hempty. rewrite (analyze_ticker_empty _ _ _ _ _ _ _ _ _ Hempty).
  eexists. split; [reflexivity|].
  destruct (criterion criteria "next_earning_date" && String.eqb asset_type "Stock");
    (split; [repeat constructor|]);
    repeat split; eauto.
Qed.

(** ** The shape of analysis results *)

Lemma bind_Ok {A B : Type} (m : store_monad A) (k : A -> store_monad B)
    (h h' : gmap nat DataFrame) (b : B) :
  bind m k h = (Ok b, h') ->
  exists a h1, m h = (Ok a, h1) /\ k a h1 = (Ok b, h').
Proof.
  unfold bind. destruct (m h) as [[a|e] h1]; [eauto | discriminate].
Qed.

Lemma lift_Ok {A : Type} (r : exc A) (h h' : gmap nat DataFrame) (a : A) :
  lift r h = (Ok a, h') -> r = Ok a.
Proof. unfold lift. congruence. Qed.

Lemma ret_Ok {A : Type} (x a : A) (h h' : gmap nat DataFrame) :
  ret x h = (Ok a, h') -> a = x.
Proof. unfold ret. congruence. Qed.

Lemma deref_Ok (l : ref) (h h' : gmap nat DataFrame) (df : DataFrame) :
  deref l h = (Ok df, h') -> df = h !!! l.
Proof. unfold deref. congruence. Qed.

(** Split a run of binds into the runs of its steps. *)
Ltac run H :=
  repeat match type of H with
         | bind _ _ _ = (Ok _, _) =>
             let a := fresh "a" in
             let h1 := fresh "h" in
             let E := fresh "E" in
             apply bind_Ok in H as (a & h1 & E & H);
             first [ apply lift_Ok in E
                   | apply deref_Ok in E; subst a
                   | idtac ]
         end;
  try apply ret_Ok in H.

Lemma initial_result_well_formed (ticker asset_type : string)
    (current_price : option float) :
  result_well_formed (initial_result ticker asset_type current_price).
Proof. repeat constructor. Qed.

Lemma dict_set_well_formed (r : result) (key : string) (v : Verdict) :
  result_well_formed r ->
  string_in key metadata_keys = false ->
  status_allowed key v ->
  result_well_formed (dict_set r key (EVerdict v)).
Proof.
  intros Hr Hkey Hv. induction Hr as [|[k e] r Hke Hr IH]; simpl.
  - constructor; [split; assumption | constructor].
  - destruct (String.eqb k key) eqn:Heq.
    + apply String.eqb_eq in Heq. subst k.
      constructor; [split; assumption | assumption].
    + constructor; assumption.
Qed.

Lemma status_allowed_pass_fail (key : string) (v : Verdict) :
  status v = PASS \/ status v = FAIL -> status_allowed key v.
Proof. unfold status_allowed. tauto. Qed.

Lemma earnings_verdict_status (api_client : ApiClient) (ticker : string) :
  status (earnings_verdict api_client ticker) = PASS
  \/ status (earnings_verdict api_client ticker) = FAIL.
Proof.
  unfold earnings_verdict.
  destruct (get_next_earnings_date api_client ticker) as [d e]. simpl.
  destruct (date_truthy d); auto.
Qed.

(** Whatever the orchestrator returns is a well-formed result. *)
Lemma analyze_ticker_well_formed (ADXIndicator : ta_library)
    (ticker asset_type : string) (data_df daily_df : ref)
    (current_price : option float) (criteria : gmap string bool)
    (api_client : ApiClient) (h h' : gmap nat DataFrame) (r : result) :
  analyze_ticker ADXIndicator ticker asset_type data_df daily_df
    current_price criteria api_client h = (Ok r, h') ->
  result_well_formed r.
Proof.
  unfold analyze_ticker. cbv zeta. intros H.
  pose proof (initial_result_well_formed ticker asset_type current_price) as W0.
  apply bind_Ok in H as (data & h0 & _ & H).
  apply bind_Ok in H as (r6 & h6 & Hsteps & H).
  assert (W6 : result_well_formed r6).
  { destruct (negb (df_empty data)); [|apply ret_Ok in Hsteps; subst; exact W0].
    apply bind_Ok in Hsteps as (r1 & h1 & S1 & Hsteps).
    assert (W1 : result_well_formed r1).
    { destruct (criterion criteria "rsi_confirmation");
        [|apply ret_Ok in S1; subst; exact W0].
      run S1. subst r1.
      apply dict_set_well_formed; [exact W0 | reflexivity |].
      apply status_allowed_pass_fail.
      match goal with E : check_rsi_condition ?d = Ok _ |- _ =>
        destruct (check_rsi_condition_status d) as (v' & Hv' & Hs);
        rewrite Hv' in E; injection E as <-; exact Hs end. }
    apply bind_Ok in Hsteps as (r2 & h2 & S2 & Hsteps).
    assert (W2 : result_well_formed r2).
    { destruct (criterion criteria "dmi_confirmation" && String.eqb asset_type "Stock");
        [|apply ret_Ok in S2; subst; exact W1].
      run S2. subst r2.
      apply dict_set_well_formed; [exact W1 | reflexivity |].
      apply status_allowed_pass_fail.
      match goal with E : check_dmi_trend _ ?d = Ok _ |- _ =>
        destruct (check_dmi_trend_status ADXIndicator d) as (v' & Hv' & Hs);
        rewrite Hv' in E; injection E as <-; exact Hs end. }
    apply bind_Ok in Hsteps as (r3 & h3 & S3 & Hsteps).
    assert (W3 : result_well_formed r3).
    { destruct (criterion criteria "ema_crossover" && String.eqb asset_type "Stock");
        [|apply ret_Ok in S3; subst; exact W2].
      run S3. subst r3.
      apply dict_set_well_formed; [exact W2 | reflexivity |].
      apply status_allowed_pass_fail.
      eapply check_ema_crossover_status; eassumption. }
    apply bind_Ok in Hsteps as (r4 & h4 & S4 & Hsteps).
    assert (W4 : result_well_formed r4).
    { destruct (criterion criteria "macd_crossover" && String.eqb asset_type "Stock");
        [|apply ret_Ok in S4; subst; exact W3].
      run S4. subst r4.
      apply dict_set_well_formed; [exact W3 | reflexivity |].
      apply status_allowed_pass_fail.
      match goal with E : check_macd_crossover_or_rising ?m ?s = Ok _ |- _ =>
        destruct (check_macd_crossover_or_rising_status m s) as (v' & Hv' & Hs);
        rewrite Hv' in E; injection E as <-; exact Hs end. }
    apply bind_Ok in Hsteps as (r5 & h5 & S5 & Hsteps).
    assert (W5 : result_well_formed r5).
    { destruct (criterion criteria "weekly_macd" && String.eqb asset_type "Stock");
        [|apply ret_Ok in S5; subst; exact W4].
      run S5. subst r5.
      apply dict_set_well_formed; [exact W4 | reflexivity |].
      apply status_allowed_pass_fail.
      match goal with E : check_macd_crossover_or_rising ?m ?s = Ok _ |- _ =>
        destruct (check_macd_crossover_or_rising_status m s) as (v' & Hv' & Hs);
        rewrite Hv' in E; injection E as <-; exact Hs end. }
    destruct (criterion criteria "avoid_squeeze" && String.eqb asset_type "Stock");
      [|apply ret_Ok in Hsteps; subst; exact W5].
    run Hsteps. subst r6.
    apply dict_set_well_formed; [exact W5 | reflexivity |].
    match goal with E : check_short_squeeze_risk ?d = Ok _ |- _ =>
      destruct (check_short_squeeze_risk_status d) as (v' & Hv' & Hs);
      rewrite Hv' in E; injection E as <- end.
    unfold status_allowed. tauto. }
  destruct (criterion criteria "next_earning_date" && String.eqb asset_type "Stock");
    [|apply ret_Ok in H; subst; exact W6].
  apply ret_Ok in H. subst r.
  apply dict_set_well_formed; [exact W6 | reflexivity |].
  apply status_allowed_pass_fail, earnings_verdict_status.
Qed.

Lemma well_formed_criteria_are_dicts (r : result) :
  result_well_formed r -> criteria_are_dicts r.
Proof.
  unfold result_well_formed, criteria_are_dicts.
  intros Hr. eapply Forall_impl; [exact Hr|].
  intros [k e] Hwf Hkey. unfold entry_well_formed in Hwf. simpl in *.
  destruct e; simpl in Hwf; [congruence | exact I | exact I].
Qed.

(** ** The passing view *)

Lemma string_in_pass_warn (s : string) :
  string_in s [PASS; WARN] = true <-> s = PASS \/ s = WARN.
Proof.
  unfold string_in. simpl. rewrite orb_false_r, orb_true_iff, !String.eqb_eq.
  reflexivity.
Qed.

Lemma any_passing_spec (r : result) :
  criteria_are_dicts r ->
  exists b, any_passing r = Ok b /\ (b = true <-> Exists passing_entry r).
Proof.
  intros Hr. induction Hr as [|[key value] r Hitem Hr IH]; cbn [any_passing].
  - exists false. split; [reflexivity|]. split; [discriminate|].
    intros H. inversion H.
  - destruct IH as (b & Hb & Hiff). cbn [fst snd] in Hitem.
    destruct (string_in key metadata_keys) eqn:Hmeta.
    + exists b. split; [exact Hb|]. rewrite Hiff. split.
      * intros H. apply Exists_cons_tl. exact H.
      * intros H. inversion H as [? ? [Hk _]|]; subst; [|assumption].
        cbn [fst] in Hk. congruence.
    + destruct value as [s|p f|v]; cbn [get_status exc_bind].
      * destruct (Hitem eq_refl).
      * exists b. split; [exact Hb|]. rewrite Hiff. split.
        -- intros H. apply Exists_cons_tl. exact H.
        -- intros H. inversion H as [? ? [_ (v & Hv & _)]|]; subst; [|assumption].
           discriminate Hv.
      * destruct (string_in (status v) [PASS; WARN]) eqn:Hst.
        -- exists true. split; [reflexivity|]. split; [|reflexivity].
           intros _. apply Exists_cons_hd. split; [exact Hmeta|].
           exists v. split; [reflexivity|]. apply string_in_pass_warn, Hst.
        -- exists b. split; [exact Hb|]. rewrite Hiff. split.
           ++ intros H. apply Exists_cons_tl. exact H.
           ++ intros H. inversion H as [? ? [_ (v' & Hv' & Hs)]|]; subst;
                [|assumption].
              cbn [snd] in Hv'. injection Hv' as <-.
              apply string_in_pass_warn in Hs. congruence.
Qed.

Lemma passing_results_spec (results : list result) :
  Forall criteria_are_dicts results ->
  exists kept,
    passing_results results = Ok kept
    /\ (forall r, In r kept <-> In r results /\ Exists passing_entry r).
Proof.
  intros Hrs. induction Hrs as [|r rest Hr Hrs IH]; simpl.
  - exists []. split; [reflexivity|]. simpl. tauto.
  - destruct (any_passing_spec r Hr) as (b & -> & Hb).
    destruct IH as (kept & -> & Hkept). simpl.
    eexists. split; [reflexivity|]. intros r'.
    destruct b; simpl; rewrite Hkept.
    + split.
      * intros [<-|[H1 H2]]; [split; [auto | apply Hb; reflexivity] | auto].
      * intros [[<-|H1] H2]; auto.
    + split.
      * intros [H1 H2]; auto.
      * intros [[<-|H1] H2]; [|auto].
        apply Hb in H2. discriminate.
Qed.

(** Results of the orchestrator can be filtered. *)
Lemma analyze_ticker_criteria_are_dicts (ADXIndicator : ta_library)
    (ticker asset_type : string) (data_df daily_df : ref)
    (current_price : option float) (criteria : gmap string bool)
    (api_client : ApiClient) (h h' : gmap nat DataFrame) (r : result) :
  analyze_ticker ADXIndicator ticker asset_type data_df daily_df
    current_price criteria api_client h = (Ok r, h') ->
  criteria_are_dicts r.
Proof.
  intros H. eapply well_formed_criteria_are_dicts, analyze_ticker_well_formed.
  exact H.
Qed.

(** C5.  The passing view keeps a result exactly when one of its entries
    outside ticker, asset_type and current_price has status Pass or
    Warn.  A result all of whose verdicts are Fail is dropped; a result
    with a Warn verdict on a criterion is kept. *)
Theorem passing_view_filter (results : list result) :
  Forall criteria_are_dicts results ->
  exists kept,
    passing_results results = Ok kept
    /\ (forall r,
          In r kept <->
          In r results
          /\ exists key v,
               In (key, EVerdict v) r
               /\ string_in key metadata_keys = false
               /\ (status v = PASS \/ status v = WARN))
    /\ (forall r,
          (forall key v, In (key, EVerdict v) r -> status v = FAIL) ->
          ~ In r kept)
    /\ (forall r key v,
          In r results ->
          In (key, EVerdict v) r ->
          string_in key metadata_keys = false ->
          status v = WARN ->
          In r kept).
Proof.
  intros Hrs.
  destruct (passing_results_spec results Hrs) as (kept & Hk & Hiff).
  assert (Hentry : forall r,
            Exists passing_entry r <->
            exists key v, In (key, EVerdict v) r
                          /\ string_in key metadata_keys = false
                          /\ (status v = PASS \/ status v = WARN)).
  { intros r. rewrite Exists_exists. split.
    - intros ([key e] & Hin & Hmeta & v & Hv & Hs). simpl in *. subst e.
      exists key, v. rewrite <- list_elem_of_In. auto.
    - intros (key & v & Hin & Hmeta & Hs).
      exists (key, EVerdict v). rewrite list_elem_of_In.
      split; [exact Hin|]. split; [exact Hmeta|]. exists v. auto. }
  exists kept. split; [exact Hk|]. split; [|split].
  - intros r. rewrite Hiff, Hentry. reflexivity.
  - intros r Hfail Hin. apply Hiff in Hin as [_ Hex].
    apply Hentry in Hex as (key & v & Hv & _ & Hs).
    apply Hfail in Hv. destruct Hs as [Hs|Hs]; rewrite Hs in Hv; discriminate.
  - intros r key v Hin Hv Hmeta Hs. apply Hiff. split; [exact Hin|].
    apply Hentry. exists key, v. auto.
Qed.

(** * Instances and counterexamples *)

(** The MACD example of the specification passes through the rising
    branch, and longer histories ending in the same two points give the
    same verdict. *)
Lemma macd_crossover_or_rising_last_two_witness :
  exists v,
    check_macd_crossover_or_rising
      [Fin (-1); Fin (-1 # 2); Fin (2 # 10)]
      [Fin (-8 # 10); Fin (-6 # 10); Fin (1 # 10)] = Ok v
    /\ status v = PASS
    /\ check_macd_crossover_or_rising
         [Fin 5; NaN; Fin (-7); Fin (-1 # 2); NaN; Fin (2 # 10)]
         [NaN; Fin (-6 # 10); Fin (1 # 10); NaN] = Ok v.
Proof.
  destruct (macd_crossover_or_rising_last_two
              [Fin (-1); Fin (-1 # 2); Fin (2 # 10)]
              [Fin (-8 # 10); Fin (-6 # 10); Fin (1 # 10)])
    as (v & Hv & Hiff & _ & _ & Hstable).
  exists v. split; [exact Hv|]. split.
  - apply Hiff.
    exists (Fin (-1 # 2)), (Fin (2 # 10)), (Fin (-6 # 10)), (Fin (1 # 10)).
    split; [reflexivity|]. split; [reflexivity|]. right. reflexivity.
  - apply Hstable; reflexivity.
Defined.


Lemma ema_crossover_fresh_at_last_bar_witness :
  exists v,
    Rounded.check_ema_crossover binary64 Samples.ema_cross_at_last_bar 8 21 = Ok v
    /\ (status v = PASS \/ status v = FAIL)
    /\ Rounded.ewm_mean binary64 (Rounded.com_of_span binary64 8) 0
         (Samples.flat 19 10 ++ [of_Z 9; of_Z 11])%list
       = RoundedSpec.ema binary64 (RoundedSpec.smoothing binary64 8)
           (Samples.flat 19 10 ++ [of_Z 9; of_Z 11])%list.
Proof.
  destruct (ema_crossover_fresh_at_last_bar binary64 Samples.ema_cross_at_last_bar
              (Samples.flat 19 10 ++ [of_Z 9; of_Z 11])%list)
    as (H & _ & Hema & _); [reflexivity | reflexivity |].
  destruct H as (v & a & b & c & d & Hv & _ & _ & _ & Hs); [vm_compute; lia|].
  destruct Hema as [Hfast _];
    [repeat constructor | reflexivity | reflexivity |].
  exists v. split; [exact Hv|]. split; [exact Hs | exact Hfast].
Defined.


Lemma passing_view_filter_witness :
  exists kept,
    passing_results [Samples.all_fail_result; Samples.one_warn_result] = Ok kept
    /\ In Samples.one_warn_result kept
    /\ ~ In Samples.all_fail_result kept.
Proof.
  destruct (passing_view_filter
              [Samples.all_fail_result; Samples.one_warn_result])
    as (kept & Hk & _ & Hfail & Hwarn).
  { repeat (constructor;
            [repeat (constructor; [cbn; intros H; try exact I; discriminate H|]);
             constructor|]).
    constructor. }
  exists kept. split; [exact Hk|]. split.
  - apply (Hwarn _ "avoid_squeeze"
             (mkVerdict WARN (Text "Potential short squeeze") PNone)).
    + simpl. auto.
    + simpl. auto 10.
    + reflexivity.
    + reflexivity.
  - apply Hfail. intros key v Hin. simpl in Hin.
    destruct Hin as [H|[H|[H|[H|[]]]]]; try discriminate H.
    injection H as _ <-. reflexivity.
Defined.

Lemma short_history_gives_empty_series_witness :
  calculate_rsi (Samples.frame 5 [("Close", Samples.flat 5 10)]) 14
    = Ok empty_series
  /\ get_macd (Samples.frame 5 [("Close", Samples.flat 5 10)]) 12 26 9
     = Ok (empty_series, empty_series).
Proof.
  destruct (short_history_gives_empty_series
              (Samples.frame 5 [("Close", Samples.flat 5 10)]) 14 12 26 9)
    as [Hrsi Hmacd].
  split; [apply Hrsi | apply Hmacd]; vm_compute; reflexivity.
Defined.

Lemma empty_series_reports_no_indicator_witness :
  exists r : result,
    analyze_ticker Samples.failing_ta "AAPL" "Stock" 0 1 None
      Samples.all_criteria Samples.no_earnings
      (Samples.store_of empty_frame empty_frame)
    = (Ok r, Samples.store_of empty_frame empty_frame)
    /\ Forall (fun key => dict_get r key = None) Spec.indicator_criteria.
Proof.
  destruct (empty_series_reports_no_indicator Samples.failing_ta "AAPL" "Stock"
              0 1 None Samples.all_criteria Samples.no_earnings
              (Samples.store_of empty_frame empty_frame))
    as (r & Hr & Hnone & _); [reflexivity|].
  exists r. split; [exact Hr | exact Hnone].
Defined.

Lemma analysis_pass_only_sets_rsi_column_witness :
  let h := Samples.store_of Samples.ema_cross_at_last_bar
             Samples.squeeze_flat_volume in
  let h' := (analyze_ticker Samples.failing_ta "AAPL" "Stock" 0 1 None
               Samples.all_criteria Samples.no_earnings h).2 in
  h' !! 1 = h !! 1
  /\ columns (h' !!! 0) !! "Close" = columns (h !!! 0) !! "Close"
  /\ exists rsi,
       calculate_rsi Samples.ema_cross_at_last_bar 14 = Ok rsi
       /\ h' = <[0 := setitem Samples.ema_cross_at_last_bar "RSI" rsi]> h.
Proof.
  intros h h'.
  destruct (analysis_pass_only_sets_rsi_column Samples.failing_ta "AAPL" "Stock"
              0 1 None Samples.all_criteria Samples.no_earnings h)
    as (Hother & _ & Hcols & _ & Hset).
  split; [apply Hother; discriminate|].
  split; [apply Hcols; discriminate|].
  destruct Hset as (rsi & Hrsi & Hstore & _); [reflexivity | reflexivity|].
  exists rsi. split; [exact Hrsi | exact Hstore].
Defined.

Lemma evaluator_status_range_witness :
  exists v, check_ema_crossover Samples.ema_cross_one_bar_earlier 8 21 = Ok v
            /\ (status v = PASS \/ status v = FAIL).
Proof.
  destruct (evaluator_status_range Samples.failing_ta
              Samples.ema_cross_one_bar_earlier [] [] 8 21)
    as (_ & _ & _ & Hema & _).
  eexists. split; [vm_compute; reflexivity|].
  apply Hema. vm_compute. reflexivity.
Defined.

(** C8, as stated, fails: with an empty long series and every criterion
    enabled, the result is returned but the enabled RSI criterion (like
    the five others) has no verdict at all, so it is not an all-Fail
    result. *)
Lemma empty_series_is_not_all_fail :
  df_empty (Samples.store_of empty_frame empty_frame !!! 0) = true
  /\ Forall (fun key => criterion Samples.all_criteria key = true)
       Spec.indicator_criteria
  /\ ~ (exists r : result,
          (analyze_ticker Samples.failing_ta "AAPL" "Stock" 0 1 None
             Samples.all_criteria Samples.no_earnings
             (Samples.store_of empty_frame empty_frame)).1 = Ok r
          /\ Forall (fun key =>
                       criterion Samples.all_criteria key = true ->
                       exists v, dict_get r key = Some (EVerdict v)
                                 /\ status v = FAIL)
               Spec.indicator_criteria).
Proof.
  split; [reflexivity|]. split; [repeat constructor|].
  intros (r & Hr & Hall).
  vm_compute in Hr. injection Hr as <-.
  inversion Hall as [|? ? Hrsi _]; subst.
  destruct (Hrsi eq_refl) as (v & Hv & _).
  discriminate Hv.
Qed.

(** C9, as stated, fails: after the analysis pass the long bar table has
    an RSI column it did not have before. *)
Lemma analysis_pass_adds_rsi_column :
  let h := Samples.store_of Samples.ema_cross_at_last_bar
             Samples.squeeze_flat_volume in
  let h' := (analyze_ticker Samples.failing_ta "AAPL" "Stock" 0 1 None
               Samples.all_criteria Samples.no_earnings h).2 in
  has_column "RSI" (h !!! 0) = false
  /\ has_column "RSI" (h' !!! 0) = true
  /\ h' !! 0 <> h !! 0.
Proof.
  intros h h'.
  assert (H0 : has_column "RSI" (h !!! 0) = false) by (vm_compute; reflexivity).
  assert (H1 : has_column "RSI" (h' !!! 0) = true) by (vm_compute; reflexivity).
  split; [exact H0|]. split; [exact H1|].
  intros Heq.
  assert (Htot : h' !!! 0 = h !!! 0).
  { unfold lookup_total, map_lookup_total. rewrite Heq. reflexivity. }
  rewrite Htot in H1. congruence.
Qed.

(** * Further properties *)

Lemma py_inverse_positive (period : Z) :
  (1 <= period)%Z ->
  exists a, py_inverse period = Ok (Fin a) /\ (0 < a)%Q /\ (a <= 1)%Q.
Proof.
  intros Hp. destruct period as [|x|x]; try lia.
  eexists. split; [reflexivity|].
  rewrite Qred_correct.
  split; [reflexivity|].
  unfold Qle, inject_Z. simpl. lia.
Qed.

Lemma ewm_alpha_accepts (a : Q) (min_periods : Z) (s : Series) :
  (0 < a)%Q -> (a <= 1)%Q ->
  ewm_alpha (Fin a) min_periods s = Ok (ewm_mean (Fin a) (Z.to_nat min_periods) s).
Proof.
  intros H0 H1. unfold ewm_alpha, Float.leb, Float.ltb, Float.eqb, of_Z.
  replace (Float.Qlt_bool (inject_Z 0) a) with true
    by (symmetry; apply Qlt_bool_iff; exact H0).
  destruct (Float.Qlt_bool a (inject_Z 1)) eqn:E; [reflexivity|].
  apply Qlt_bool_false_iff in E.
  replace (Qeq_bool a (inject_Z 1)) with true; [reflexivity|].
  symmetry. apply Qeq_bool_iff. apply Qle_antisym; assumption.
Qed.

Lemma ewm_step_nonneg (a o n w c : Q) (reset : bool) :
  (0 < a)%Q -> (a <= 1)%Q -> (0 <= o)%Q -> (o <= 1)%Q -> (0 < n)%Q ->
  (0 <= w)%Q -> (0 <= c)%Q ->
  exists q m,
    (if reset then (of_Z 1 - Fin o * (of_Z 1 - Fin a))%float else Fin n) = Fin m
    /\ (0 < m)%Q
    /\ ((Fin o * (of_Z 1 - Fin a) * Fin w + Fin m * Fin c)
        / (Fin o * (of_Z 1 - Fin a) + Fin m))%float = Fin q
    /\ (0 <= q)%Q.
Proof.
  intros Ha0 Ha1 Ho Ho1 Hn Hw Hc.
  unfold Float.mul, Float.sub, Float.add, Float.neg, of_Z.
  set (o' := Qred (o * Qred (inject_Z 1 + Qred (- a)))).
  assert (Ho' : (0 <= o')%Q).
  { unfold o'. rewrite !Qred_correct. unfold inject_Z.
    apply Qmult_le_0_compat; [exact Ho | lra]. }
  assert (Ho1' : (o' <= 1 - a)%Q).
  { unfold o'. rewrite !Qred_correct. unfold inject_Z.
    assert (H : (o * (1 + - a) <= 1 * (1 + - a))%Q)
      by (apply Qmult_le_compat_r; [exact Ho1 | lra]).
    lra. }
  set (m := if reset then Qred (inject_Z 1 + Qred (- o')) else n).
  assert (Hm : (0 < m)%Q).
  { unfold m. destruct reset; [|exact Hn].
    rewrite !Qred_correct. unfold inject_Z. lra. }
  exists (Qred (Qred (Qred (o' * w) + Qred (m * c)) / Qred (o' + m))), m.
  split; [unfold m; destruct reset; reflexivity|]. split; [exact Hm|].
  set (d := Qred (o' + m)).
  assert (Hd : (0 < d)%Q) by (unfold d; rewrite Qred_correct; lra).
  unfold Float.div.
  replace (Qeq_bool d 0) with false.
  2:{ symmetry. destruct (Qeq_bool d 0) eqn:E; [|reflexivity].
      apply Qeq_bool_iff in E. lra. }
  split; [reflexivity|].
  rewrite !Qred_correct.
  apply Qle_shift_div_l; [exact Hd|].
  assert (0 <= o' * w)%Q by (apply Qmult_le_0_compat; assumption).
  assert (0 <= m * c)%Q by (apply Qmult_le_0_compat; [lra | assumption]).
  lra.
Qed.

Lemma ewm_loop_nonneg (a : Q) (minp : nat) :
  (0 < a)%Q -> (a <= 1)%Q ->
  forall (vals : Series) (weighted : float) (o n : Q) (nobs : nat),
    Forall nonneg_or_nan vals ->
    nonneg_or_nan weighted ->
    (0 <= o)%Q -> (o <= 1)%Q -> (0 < n)%Q ->
    Forall nonneg_or_nan
      (ewm_loop (Fin a) minp weighted (Fin o) (Fin n) nobs vals).
Proof.
  intros Ha0 Ha1. induction vals as [|cur rest IH];
    intros weighted o n nobs Hvals Hw Ho Ho1 Hn; [constructor|].
  apply Forall_cons in Hvals as [Hcur Hrest].
  assert (Ho' : (0 <= Qred (o * Qred (inject_Z 1 + Qred (- a))))%Q).
  { rewrite !Qred_correct. unfold inject_Z.
    apply Qmult_le_0_compat; [exact Ho | lra]. }
  assert (Ho1' : (Qred (o * Qred (inject_Z 1 + Qred (- a))) <= 1)%Q).
  { rewrite !Qred_correct. unfold inject_Z.
    assert (H : (o * (1 + - a) <= 1 * (1 + - a))%Q)
      by (apply Qmult_le_compat_r; [exact Ho1 | lra]).
    lra. }
  destruct weighted as [w| | |], cur as [c| | |]; try contradiction;
    cbn [ewm_loop notna isnan negb].
  - destruct (ewm_step_nonneg a o n w c
                (Float.eqb ((of_Z 1 - Fin a) / Fin a) (of_Z 1))
                Ha0 Ha1 Ho Ho1 Hn Hw Hcur) as (q & m & Hreset & Hm & Hq & Hq0).
    rewrite Hreset, Hq.
    destruct (Float.neb (Fin w) (Fin c)).
    + constructor; [destruct (minp <=? S nobs)%nat; simpl; auto|].
      apply IH; auto; unfold inject_Z; lra.
    + constructor; [destruct (minp <=? S nobs)%nat; simpl; auto|].
      apply IH; auto; unfold inject_Z; lra.
  - constructor; [destruct (minp <=? nobs)%nat; simpl; auto|].
    apply (IH (Fin w)); auto.
  - constructor; [destruct (minp <=? S nobs)%nat; simpl; auto|].
    apply (IH (Fin c)); auto.
  - constructor; [destruct (minp <=? nobs)%nat; simpl; auto|].
    apply (IH NaN); auto.
Qed.

Lemma ewm_mean_nonneg (a : Q) (min_periods : nat) (vals : Series) :
  (0 < a)%Q -> (a <= 1)%Q ->
  Forall nonneg_or_nan vals ->
  Forall nonneg_or_nan (ewm_mean (Fin a) min_periods vals).
Proof.
  intros Ha0 Ha1 Hvals. destruct vals as [|first rest]; [constructor|].
  apply Forall_cons in Hvals as [Hfirst Hrest].
  cbn [ewm_mean]. constructor.
  - destruct (_ <=? _)%nat; simpl; auto.
  - apply ewm_loop_nonneg; auto; unfold inject_Z; lra.
Qed.

Lemma diff_from_finite (s : Series) :
  forall prev, finite_or_nan prev -> Forall finite_or_nan s ->
               Forall finite_or_nan (diff_from prev s).
Proof.
  induction s as [|x s IH]; intros prev Hp Hs; [constructor|].
  apply Forall_cons in Hs as [Hx Hs]. simpl. constructor.
  - destruct x, prev; try contradiction; exact I.
  - apply IH; assumption.
Qed.

Lemma diff_finite (s : Series) :
  Forall finite_or_nan s -> Forall finite_or_nan (diff s).
Proof.
  intros Hs. destruct s as [|x s]; [constructor|].
  apply Forall_cons in Hs as [Hx Hs]. simpl.
  constructor; [exact I | apply diff_from_finite; assumption].
Qed.

Lemma diff_from_length (s : Series) :
  forall prev, length (diff_from prev s) = length s.
Proof. induction s as [|x s IH]; intros prev; simpl; [|rewrite IH]; reflexivity. Qed.

Lemma diff_length (s : Series) : length (diff s) = length s.
Proof. destruct s; simpl; [|rewrite diff_from_length]; reflexivity. Qed.

Lemma gain_nonneg (delta : Series) :
  Forall finite_or_nan delta ->
  Forall nonneg_or_nan (clip_lower (of_Z 0) delta).
Proof.
  intros H. unfold clip_lower. apply Forall_fmap.
  eapply Forall_impl; [exact H|]. intros [d| | |] Hd; try contradiction; simpl.
  - destruct (Float.Qlt_bool d (inject_Z 0)) eqn:E; simpl.
    + unfold inject_Z. lra.
    + apply Qlt_bool_false_iff in E. exact E.
  - exact I.
Qed.

Lemma loss_nonneg (delta : Series) :
  Forall finite_or_nan delta ->
  Forall nonneg_or_nan (series_neg (clip_upper (of_Z 0) delta)).
Proof.
  intros H. unfold series_neg, clip_upper. rewrite <- list_fmap_compose.
  apply Forall_fmap.
  eapply Forall_impl; [exact H|]. intros [d| | |] Hd; try contradiction; simpl.
  - destruct (Float.Qlt_bool (inject_Z 0) d) eqn:E; simpl.
    + rewrite Qred_correct. unfold inject_Z. lra.
    + apply Qlt_bool_false_iff in E. rewrite Qred_correct.
      unfold inject_Z in E. lra.
  - exact I.
Qed.

(** One RSI value from one pair of averages. *)
Lemma rsi_value_in_range (g l : float) :
  nonneg_or_nan g -> nonneg_or_nan l ->
  percent_or_nan (of_Z 100 - of_Z 100 / (of_Z 1 + g / l))%float.
Proof.
  intros Hg Hl.
  destruct g as [g| | |], l as [l| | |]; try contradiction; try exact I.
  unfold Float.div at 2.
  destruct (Qeq_bool l 0) eqn:El.
  - destruct (Qeq_bool g 0) eqn:Eg; [exact I|].
    assert (Hpos : Float.Qlt_bool 0 g = true).
    { apply Qlt_bool_iff. simpl in Hg.
      destruct (Qeq_dec g 0) as [H|H]; [|lra].
      apply Qeq_bool_iff in H. congruence. }
    rewrite Hpos. simpl. rewrite !Qred_correct. unfold inject_Z. lra.
  - assert (Hl0 : (0 < l)%Q).
    { simpl in Hl. destruct (Qeq_dec l 0) as [H|H]; [|lra].
      apply Qeq_bool_iff in H. congruence. }
    set (r := Qred (g / l)).
    assert (Hr : (0 <= r)%Q).
    { unfold r. rewrite Qred_correct. apply Qle_shift_div_l; [exact Hl0|].
      simpl in Hg. lra. }
    unfold Float.add at 1, of_Z.
    set (s := Qred (inject_Z 1 + r)).
    assert (Hs : (1 <= s)%Q) by (unfold s; rewrite Qred_correct; unfold inject_Z; lra).
    unfold Float.div.
    replace (Qeq_bool s 0) with false.
    2:{ symmetry. destruct (Qeq_bool s 0) eqn:E; [|reflexivity].
        apply Qeq_bool_iff in E. lra. }
    set (t := Qred (inject_Z 100 / s)).
    assert (Ht : (0 <= t <= 100)%Q).
    { unfold t. rewrite Qred_correct. unfold inject_Z. split.
      - apply Qle_shift_div_l; lra.
      - apply Qle_shift_div_r; lra. }
    simpl. rewrite !Qred_correct. unfold inject_Z. lra.
Qed.

Lemma rsi_values_in_range (avg_gain avg_loss : Series) :
  Forall nonneg_or_nan avg_gain ->
  Forall nonneg_or_nan avg_loss ->
  Forall percent_or_nan
    ((fun r => of_Z 100 - (of_Z 100 / (of_Z 1 + r)))%float
       <$> series_div avg_gain avg_loss).
Proof.
  intros Hg. revert avg_loss.
  induction Hg as [|g gs Hg Hgs IH]; intros avg_loss Hl; [constructor|].
  destruct Hl as [|l ls Hl Hls]; [constructor|].
  simpl. constructor; [apply rsi_value_in_range; assumption | apply IH, Hls].
Qed.

(** Warm-up: no output before [minp] observations were seen. *)
Lemma ewm_loop_warmup (alpha : float) (minp : nat) (vals : Series) :
  forall (weighted old_wt new_wt : float) (nobs i : nat) (x : float),
    ewm_loop alpha minp weighted old_wt new_wt nobs vals !! i = Some x ->
    nobs + S i < minp ->
    x = NaN.
Proof.
  induction vals as [|cur rest IH];
    intros weighted old_wt new_wt nobs i x Hx Hlt; [discriminate|].
  cbn [ewm_loop] in Hx.
  destruct (notna weighted), (notna cur);
    try destruct (Float.neb weighted cur); cbn [negb] in Hx;
    (destruct i as [|i];
     [ cbn in Hx;
       match type of Hx with
       | context [(?a <=? ?b)%nat] =>
           destruct (Nat.leb_spec a b); [lia | congruence]
       end
     | cbn [lookup list_lookup] in Hx; eapply IH; [exact Hx | lia] ]).
Qed.

Lemma ewm_mean_warmup (alpha : float) (min_periods : nat) (rest : Series)
    (i : nat) (x : float) :
  ewm_mean alpha min_periods (NaN :: rest) !! i = Some x ->
  i < min_periods ->
  x = NaN.
Proof.
  cbn [ewm_mean notna isnan negb]. intros Hx Hi.
  destruct i as [|i].
  - cbn in Hx.
    destruct (Nat.leb_spec (Nat.max min_periods 1) 0); [lia | congruence].
  - cbn [lookup list_lookup] in Hx.
    eapply ewm_loop_warmup; [exact Hx | lia].
Qed.

Lemma dropna_after_warmup (s : Series) :
  forall k : nat,
    (forall i x, s !! i = Some x -> i < k -> x = NaN) ->
    length (dropna s) <= length s - k.
Proof.
  induction s as [|y s IH]; intros k Hk; [simpl; lia|].
  destruct k as [|k].
  - unfold dropna. rewrite Nat.sub_0_r. apply filter_length_le.
  - assert (y = NaN) by (apply (Hk 0 y); [reflexivity | lia]). subst y.
    change (dropna (NaN :: s)) with (dropna s). simpl length.
    apply IH. intros i x Hx Hi. apply (Hk (S i) x); [exact Hx | lia].
Qed.

(** The RSI series when the computation runs. *)
Lemma calculate_rsi_runs (df : DataFrame) (close : Series) (period : Z) :
  columns df !! "Close" = Some close ->
  (1 <= period)%Z ->
  (period <= Z.of_nat (len df))%Z ->
  exists a avg_gain avg_loss,
    (0 < a)%Q /\ (a <= 1)%Q
    /\ avg_gain = ewm_mean (Fin a) (Z.to_nat period)
                    (clip_lower (of_Z 0) (diff close))
    /\ avg_loss = ewm_mean (Fin a) (Z.to_nat period)
                    (series_neg (clip_upper (of_Z 0) (diff close)))
    /\ calculate_rsi df period =
       Ok ((fun r => of_Z 100 - (of_Z 100 / (of_Z 1 + r)))%float
             <$> series_div avg_gain avg_loss).
Proof.
  intros Hclose Hp Hlen.
  destruct (py_inverse_positive period Hp) as (a & Ha & Ha0 & Ha1).
  eexists a, _, _. split; [exact Ha0|]. split; [exact Ha1|].
  split; [reflexivity|]. split; [reflexivity|].
  unfold calculate_rsi, has_column, getitem. rewrite Hclose.
  replace (Z.of_nat (len df) <? period)%Z with false
    by (symmetry; apply Z.ltb_ge; lia).
  cbn [negb orb exc_bind]. rewrite Ha. cbn [exc_bind].
  rewrite !ewm_alpha_accepts by assumption. reflexivity.
Qed.

(** X2.  On finite closes, with a period of at least one and
    at least [period] rows, the RSI has one value per close, each absent
    or between 0 and 100, and its first [period] values are absent. *)
Theorem rsi_in_range (df : DataFrame) (close : Series) (period : Z) :
  columns df !! "Close" = Some close ->
  Forall finite_or_nan close ->
  (1 <= period)%Z ->
  (period <= Z.of_nat (len df))%Z ->
  exists rsi,
    calculate_rsi df period = Ok rsi
    /\ length rsi = length close
    /\ Forall percent_or_nan rsi
    /\ (forall i x, rsi !! i = Some x -> (Z.of_nat i < period)%Z -> x = NaN).
Proof.
  intros Hclose Hfin Hp Hlen.
  destruct (calculate_rsi_runs df close period Hclose Hp Hlen)
    as (a & avg_gain & avg_loss & Ha0 & Ha1 & Hg & Hl & Hrsi).
  eexists. split; [exact Hrsi|].
  assert (Hdelta : Forall finite_or_nan (diff close)) by (apply diff_finite, Hfin).
  split; [|split].
  - rewrite length_fmap. unfold series_div. rewrite length_zip_with.
    subst avg_gain avg_loss. rewrite !ewm_mean_length.
    unfold clip_lower, series_neg, clip_upper.
    rewrite !length_fmap, diff_length. lia.
  - apply rsi_values_in_range; subst avg_gain avg_loss;
      apply ewm_mean_nonneg; auto using gain_nonneg, loss_nonneg.
  - intros i x Hx Hi.
    rewrite list_lookup_fmap in Hx. unfold series_div in Hx.
    rewrite lookup_zip_with in Hx.
    destruct (avg_gain !! i) as [g|] eqn:Eg; [|discriminate].
    destruct (avg_loss !! i) as [l|] eqn:El; [|discriminate].
    cbn in Hx. injection Hx as <-.
    assert (g = NaN) as ->; [|reflexivity].
    subst avg_gain. destruct close as [|c0 rest]; [discriminate Eg|].
    cbn [diff clip_lower fmap list_fmap] in Eg.
    change (if (NaN <? of_Z 0)%float then of_Z 0 else NaN) with NaN in Eg.
    eapply ewm_mean_warmup; [exact Eg | lia].
Qed.

(** X3.  After [df['RSI'] = calculate_rsi(df)] on
    a table of fewer than 16 rows the RSI evaluator answers "Not enough
    RSI data": the 14-period RSI has no two defined values yet. *)
Theorem rsi_needs_sixteen_bars (df : DataFrame) :
  exists rsi,
    calculate_rsi df 14 = Ok rsi
    /\ (len df < 16 ->
        check_rsi_condition (setitem df "RSI" rsi) =
        Ok (mkVerdict FAIL (Text "Not enough RSI data") PNone)).
Proof.
  destruct (calculate_rsi_default_total df) as [rsi Hrsi].
  exists rsi. split; [exact Hrsi|]. intros Hshort.
  assert (Hfew : length (dropna (align_to df rsi)) < 2).
  { unfold align_to.
    destruct (Nat.eqb_spec (length rsi) (len df)) as [Hlen|Hlen].
    2:{ clear. induction (len df) as [|n IH]; simpl; [lia | exact IH]. }
    destruct (columns df !! "Close") as [close|] eqn:Hclose.
    2:{ unfold calculate_rsi, has_column in Hrsi. rewrite Hclose in Hrsi.
        injection Hrsi as <-. simpl. lia. }
    destruct (Z.ltb_spec (Z.of_nat (len df)) 14) as [H14|H14].
    { unfold calculate_rsi in Hrsi.
      replace (Z.of_nat (len df) <? 14)%Z with true in Hrsi
        by (symmetry; apply Z.ltb_lt; lia).
      rewrite orb_true_r in Hrsi. injection Hrsi as <-. simpl. lia. }
    destruct (calculate_rsi_runs df close 14 Hclose) as
      (a & avg_gain & avg_loss & Ha0 & Ha1 & Hg & Hl & Hrun); [lia | lia |].
    rewrite Hrun in Hrsi. injection Hrsi as Hrsi.
    pose proof (dropna_after_warmup rsi 14) as Hdrop.
    enough (Hwarm : forall i x, rsi !! i = Some x -> i < 14 -> x = NaN).
    { specialize (Hdrop Hwarm). lia. }
    intros i x Hx Hi. subst rsi.
    rewrite list_lookup_fmap in Hx. unfold series_div in Hx.
    rewrite lookup_zip_with in Hx.
    destruct (avg_gain !! i) as [g|] eqn:Eg; [|discriminate].
    destruct (avg_loss !! i) as [l|] eqn:El; [|discriminate].
    cbn in Hx. injection Hx as <-.
    assert (g = NaN) as ->; [|reflexivity].
    subst avg_gain. destruct close as [|c0 rest]; [discriminate Eg|].
    cbn [diff clip_lower fmap list_fmap] in Eg.
    change (if (NaN <? of_Z 0)%float then of_Z 0 else NaN) with NaN in Eg.
    eapply ewm_mean_warmup; [exact Eg | simpl; lia]. }
  unfold check_rsi_condition, setitem. cbn [columns].
  rewrite lookup_insert_eq.
  replace (length (dropna (align_to df rsi)) <? 2)%nat with true
    by (symmetry; apply Nat.ltb_lt; exact Hfew).
  reflexivity.
Qed.

Lemma ewm_span_ok (span : Z) (s : Series) :
  (1 <= span)%Z ->
  ewm_span span s = Ok (ewm_mean (Fin (2 # Z.to_pos (span + 1))) 0 s).
Proof.
  intros H. unfold ewm_span.
  replace (span <? 1)%Z with false by (symmetry; apply Z.ltb_ge; lia).
  reflexivity.
Qed.

Lemma rounded_ewm_span_ok (A : arithmetic) (span : Z) (s : Series) :
  (1 <= span)%Z ->
  Rounded.ewm_span A span s
  = Ok (Rounded.ewm_mean A (Rounded.com_of_span A span) 0 s).
Proof.
  intros H. unfold Rounded.ewm_span.
  replace (span <? 1)%Z with false by (symmetry; apply Z.ltb_ge; lia).
  reflexivity.
Qed.

(** The two lines [get_macd] returns, whatever the arithmetic. *)
Lemma rounded_get_macd_eval (A : arithmetic) (data : DataFrame) (close : Series)
    (fast slow signal_period : Z) :
  columns data !! "Close" = Some close ->
  (1 <= fast)%Z -> (1 <= slow)%Z -> (1 <= signal_period)%Z ->
  (slow <= Z.of_nat (len data))%Z ->
  Rounded.get_macd A data fast slow signal_period
  = Ok (let macd :=
          zip_with (fsub A)
            (Rounded.ewm_mean A (Rounded.com_of_span A fast) 0 close)
            (Rounded.ewm_mean A (Rounded.com_of_span A slow) 0 close) in
        (macd,
         Rounded.ewm_mean A (Rounded.com_of_span A signal_period) 0 macd)).
Proof.
  intros Hclose Hf Hs Hp Hlen.
  unfold Rounded.get_macd, getitem. rewrite Hclose.
  replace (Z.of_nat (len data) <? slow)%Z with false
    by (symmetry; apply Z.ltb_ge; lia).
  cbn [exc_bind]. rewrite !rounded_ewm_span_ok by assumption. cbn [exc_bind].
  rewrite rounded_ewm_span_ok by assumption. reflexivity.
Qed.

(** The moving average respects equality of rationals. *)
Lemma ema_from_Qeq (alpha : Q) (xs ys : list Q) :
  Forall2 Qeq xs ys ->
  forall p q, (p == q)%Q ->
              Forall2 Qeq (Spec.ema_from alpha p xs) (Spec.ema_from alpha q ys).
Proof.
  induction 1 as [|x y xs ys Hxy Hrest IH]; intros p q Hpq; [constructor|].
  simpl. constructor.
  - rewrite Hxy, Hpq. reflexivity.
  - apply IH. rewrite Hxy, Hpq. reflexivity.
Qed.

Lemma ema_Qeq (alpha : Q) (xs ys : list Q) :
  Forall2 Qeq xs ys -> Forall2 Qeq (Spec.ema alpha xs) (Spec.ema alpha ys).
Proof.
  intros H. destruct H as [|x y xs ys Hxy Hrest]; [constructor|].
  simpl. constructor; [exact Hxy | apply ema_from_Qeq; assumption].
Qed.

(** A series that denotes a list of rationals is a list of finite values. *)
Lemma same_number_finite (s : Series) (qs : list Q) :
  Forall2 Spec.same_number s (Fin <$> qs) ->
  exists ps, s = Fin <$> ps /\ Forall2 Qeq ps qs.
Proof.
  revert s. induction qs as [|q qs IH]; intros s H.
  - inversion H; subst. exists []. split; [reflexivity | constructor].
  - simpl in H. inversion H as [|x y s' l' Hx Hs]; subst.
    destruct (IH s' Hs) as (ps & -> & Hps).
    destruct x as [p| | |]; try contradiction.
    exists (p :: ps). split; [reflexivity | constructor; assumption].
Qed.

Lemma finite_same_number (ps qs : list Q) :
  Forall2 Qeq ps qs -> Forall2 Spec.same_number (Fin <$> ps) (Fin <$> qs).
Proof. induction 1; simpl; constructor; assumption. Qed.

Lemma same_number_trans (a b c : Series) :
  Forall2 Spec.same_number a b -> Forall2 Spec.same_number b c ->
  Forall2 Spec.same_number a c.
Proof.
  intros Hab. revert c. induction Hab as [|x y a b Hxy Hab IH]; intros c Hbc.
  - inversion Hbc. constructor.
  - inversion Hbc as [|y' z b' c' Hyz Hbc']; subst. constructor; [|apply IH, Hbc'].
    destruct x, y, z; simpl in *; try contradiction; try exact I.
    rewrite Hxy. exact Hyz.
Qed.

Lemma exact_sub_finite (ps qs : list Q) :
  zip_with (fsub exact) (Fin <$> ps) (Fin <$> qs)
  = Fin <$> zip_with (fun p q => Qred (p + Qred (- q))) ps qs.
Proof.
  revert qs. induction ps as [|p ps IH]; intros [|q qs]; try reflexivity.
  simpl. f_equal. apply IH.
Qed.

Lemma zip_with_Qminus (ps ps' qs qs' : list Q) :
  Forall2 Qeq ps ps' -> Forall2 Qeq qs qs' ->
  Forall2 Qeq (zip_with (fun p q => Qred (p + Qred (- q))) ps qs)
          (zip_with Qminus ps' qs').
Proof.
  intros Hp. revert qs qs'.
  induction Hp as [|p p' ps ps' Hpp Hps IH]; intros qs qs' Hq; [constructor|].
  destruct Hq as [|q q' qs qs' Hqq Hqs]; [constructor|].
  simpl. constructor; [|apply IH, Hqs].
  rewrite !Qred_correct, Hpp, Hqq. reflexivity.
Qed.

(** X6.  Whatever the rounding of the
    arithmetic, with spans of at least one and at least [slow] rows
    [get_macd] returns two lines with one value per close.  On defined
    closes the MACD line is the fast moving average minus the slow one,
    value by value, and a MACD line of defined values has as signal
    line its own moving average, each average following the recurrence
    of the exponential moving average in that arithmetic.  Without
    rounding, on finite closes, the averages are the moving averages
    with factors [2 / (span + 1)].  After a gap the recurrence does not
    apply: with span 3, whose centre of mass is one, the values 1, NaN,
    2 have the averages 1, 1, 1.75. *)
Theorem get_macd_is_ema_difference (A : arithmetic)
    (data : DataFrame) (close : Series) (fast slow signal_period : Z) :
  columns data !! "Close" = Some close ->
  (1 <= fast)%Z -> (1 <= slow)%Z -> (1 <= signal_period)%Z ->
  (slow <= Z.of_nat (len data))%Z ->
  exists macd signal_line,
    Rounded.get_macd A data fast slow signal_period = Ok (macd, signal_line)
    /\ length macd = length close
    /\ length signal_line = length close
    /\ (Forall (fun x => notna x = true) close ->
        RoundedSpec.regular A (Rounded.com_of_span A fast)
          (RoundedSpec.smoothing A fast) ->
        RoundedSpec.regular A (Rounded.com_of_span A slow)
          (RoundedSpec.smoothing A slow) ->
        macd = zip_with (fsub A)
                 (RoundedSpec.ema A (RoundedSpec.smoothing A fast) close)
                 (RoundedSpec.ema A (RoundedSpec.smoothing A slow) close))
    /\ (Forall (fun x => notna x = true) macd ->
        RoundedSpec.regular A (Rounded.com_of_span A signal_period)
          (RoundedSpec.smoothing A signal_period) ->
        signal_line
        = RoundedSpec.ema A (RoundedSpec.smoothing A signal_period) macd)
    /\ (forall prices : list Q,
          close = Fin <$> prices ->
          let line :=
            zip_with Qminus
              (Spec.ema (2 # Z.to_pos (fast + 1)) prices)
              (Spec.ema (2 # Z.to_pos (slow + 1)) prices) in
          exists exact_macd exact_signal,
            Rounded.get_macd exact data fast slow signal_period
            = Ok (exact_macd, exact_signal)
            /\ Forall2 Spec.same_number exact_macd (Fin <$> line)
            /\ Forall2 Spec.same_number exact_signal
                 (Fin <$> Spec.ema (2 # Z.to_pos (signal_period + 1)) line))
    /\ Rounded.ewm_span binary64 3 [of_Z 1; NaN; of_Z 2]
       = Ok [of_Z 1; of_Z 1; Fin (7 # 4)]
    /\ Rounded.ewm_span exact 3 [of_Z 1; NaN; of_Z 2]
       = Ok [of_Z 1; of_Z 1; Fin (7 # 4)].
Proof.
  intros Hclose Hf Hs Hp Hlen.
  eexists _, _. split.
  { rewrite (rounded_get_macd_eval A data close) by assumption.
    cbv zeta. reflexivity. }
  split.
  { rewrite length_zip_with, !rounded_ewm_mean_length. lia. }
  split.
  { rewrite rounded_ewm_mean_length, length_zip_with,
      !rounded_ewm_mean_length. lia. }
  split.
  { intros Hdef Hfast Hslow.
    rewrite !rounded_ewm_mean_ema by assumption. reflexivity. }
  split.
  { intros Hdef Hsignal. apply rounded_ewm_mean_ema; assumption. }
  split; [|split; vm_compute; reflexivity].
  intros prices -> line.
  eexists _, _. split.
  { rewrite (rounded_get_macd_eval exact data (Fin <$> prices)) by assumption.
    cbv zeta. reflexivity. }
  pose proof (exact_ewm_mean_ema fast prices Hf) as Hfast.
  pose proof (exact_ewm_mean_ema slow prices Hs) as Hslow.
  apply same_number_finite in Hfast as (fs & Hfs & Hfq).
  apply same_number_finite in Hslow as (ss & Hss & Hsq).
  rewrite Hfs, Hss, exact_sub_finite.
  pose proof (zip_with_Qminus fs _ ss _ Hfq Hsq) as Hline. fold line in Hline.
  split; [apply finite_same_number, Hline|].
  eapply same_number_trans; [apply exact_ewm_mean_ema; exact Hp|].
  apply finite_same_number, ema_Qeq, Hline.
Qed.

(** X1.  The RSI evaluator always returns; it passes
    exactly when the table has an RSI column whose last two defined
    values both lie in [30, 60] and the last exceeds the previous one,
    and fails otherwise.  The payload is the last defined RSI value, or
    nothing when the column is missing. *)
Theorem rsi_confirmation_rule (df : DataFrame) :
  exists v,
    check_rsi_condition df = Ok v
    /\ (status v = PASS <->
        exists rsi previous_rsi current_rsi,
          columns df !! "RSI" = Some rsi
          /\ Spec.last_two_defined rsi = Some (previous_rsi, current_rsi)
          /\ (of_Z 30 <=? current_rsi)%float = true
          /\ (current_rsi <=? of_Z 60)%float = true
          /\ (of_Z 30 <=? previous_rsi)%float = true
          /\ (previous_rsi <=? of_Z 60)%float = true
          /\ (current_rsi >? previous_rsi)%float = true)
    /\ (status v = PASS \/ status v = FAIL)
    /\ (forall rsi previous_rsi current_rsi,
          columns df !! "RSI" = Some rsi ->
          Spec.last_two_defined rsi = Some (previous_rsi, current_rsi) ->
          value v = PFloat current_rsi)
    /\ (columns df !! "RSI" = None -> value v = PNone).
Proof.
  rewrite check_rsi_condition_eval.
  destruct (columns df !! "RSI") as [rsi|].
  2:{ eexists. split; [reflexivity|]. simpl.
      split; [split; [discriminate | intros (? & ? & ? & H & _); discriminate H]|].
      split; [auto|]. split; [discriminate | reflexivity]. }
  destruct (Spec.last_two_defined rsi) as [[p c]|] eqn:Hlast.
  2:{ eexists. split; [reflexivity|]. simpl.
      split; [split; [discriminate
                     | intros (? & ? & ? & H1 & H2 & _);
                       injection H1 as <-; rewrite Hlast in H2;
                       discriminate H2]|].
      split; [auto|]. split; [|discriminate].
      intros ? ? ? H1 H2. injection H1 as <-. rewrite Hlast in H2.
      discriminate H2. }
  destruct (of_Z 30 <=? c)%float eqn:E1, (c <=? of_Z 60)%float eqn:E2,
           (of_Z 30 <=? p)%float eqn:E3, (p <=? of_Z 60)%float eqn:E4,
           (c >? p)%float eqn:E5; cbn [andb];
    (eexists; split; [reflexivity|]; simpl;
     split; [split;
       [ intros H; try discriminate H; exists rsi, p, c; repeat split; auto
       | intros (r' & p' & c' & Hr & Hl & H1 & H2 & H3 & H4 & H5);
         injection Hr as <-; rewrite Hlast in Hl; injection Hl as <- <-;
         try reflexivity; congruence ]
     | split; [auto | split; [|discriminate]]]);
    intros r' p' c' Hr Hl; injection Hr as <-; rewrite Hlast in Hl;
    injection Hl as <- <-; reflexivity.
Qed.

(** X4.  Below 28 rows the DMI evaluator fails without
    calling the indicator library.  From 28 rows on, when the library
    answers, the verdict is Pass exactly when the last ADX exceeds 20 and
    the last +DI exceeds the last -DI, with the three values as payload;
    when the library raises, the verdict is Fail and carries the error. *)
Theorem dmi_trend_rule (ADXIndicator : ta_library) (df : DataFrame) :
  (len df < 28 ->
   check_dmi_trend ADXIndicator df =
   Ok (mkVerdict FAIL (Text "Not enough data for DMI calculation") PNone))
  /\ (28 <= len df ->
      forall (high low close adx_values plus_di minus_di : Series)
             (indicator : ADXObject) (last_adx last_plus_di last_minus_di : float),
        columns df !! "High" = Some high ->
        columns df !! "Low" = Some low ->
        columns df !! "Close" = Some close ->
        ADXIndicator high low close 14%Z = Ok indicator ->
        adx indicator = Ok adx_values ->
        adx_pos indicator = Ok plus_di ->
        adx_neg indicator = Ok minus_di ->
        last adx_values = Some last_adx ->
        last plus_di = Some last_plus_di ->
        last minus_di = Some last_minus_di ->
        exists v,
          check_dmi_trend ADXIndicator df = Ok v
          /\ (status v = PASS <->
              (last_adx >? of_Z 20)%float = true
              /\ (last_plus_di >? last_minus_di)%float = true)
          /\ (status v = PASS \/ status v = FAIL)
          /\ value v = PDict [("adx", last_adx); ("plus_di", last_plus_di);
                              ("minus_di", last_minus_di)])
  /\ (28 <= len df ->
      forall (high low close : Series) (e : exn),
        columns df !! "High" = Some high ->
        columns df !! "Low" = Some low ->
        columns df !! "Close" = Some close ->
        ADXIndicator high low close 14%Z = Raise e ->
        check_dmi_trend ADXIndicator df =
        Ok (mkVerdict FAIL (TextExc "Error calculating DMI: " e) PNone)).
Proof.
  split; [|split].
  - intros Hshort. unfold check_dmi_trend.
    replace (len df <? 28)%nat with true by (symmetry; apply Nat.ltb_lt; lia).
    reflexivity.
  - intros Hbars high low close av pd md ind la lp lm
           Hh Hl Hc Hind Ha Hp Hm Hla Hlp Hlm.
    unfold check_dmi_trend, getitem.
    replace (len df <? 28)%nat with false by (symmetry; apply Nat.ltb_ge; lia).
    rewrite Hh, Hl, Hc. cbn [exc_bind]. rewrite Hind. cbn [exc_bind].
    rewrite Ha, Hp, Hm. cbn [exc_bind].
    rewrite !iloc_minus_1_last, Hla, Hlp, Hlm. cbn [exc_bind].
    destruct (la >? of_Z 20)%float, (lp >? lm)%float; cbn [andb try_except];
      (eexists; split; [reflexivity|]; simpl;
       split; [split; [intros H; try discriminate H; auto
                      | intros [H1 H2]; try discriminate; reflexivity]
              | auto]).
  - intros Hbars high low close e Hh Hl Hc Hind.
    unfold check_dmi_trend, getitem.
    replace (len df <? 28)%nat with false by (symmetry; apply Nat.ltb_ge; lia).
    rewrite Hh, Hl, Hc. cbn [exc_bind]. rewrite Hind. reflexivity.
Qed.

(** Flat prices *)
Lemma ewm_loop_flat (alpha : float) (q : Q) (n : nat) :
  forall nobs,
    ewm_loop alpha 1 (Fin q) (of_Z 1) alpha (S nobs) (replicate n (Fin q))
    = replicate n (Fin q).
Proof.
  induction n as [|n IH]; intros nobs; [reflexivity|].
  cbn [replicate ewm_loop notna isnan negb].
  unfold Float.neb, Float.eqb. rewrite Qeq_bool_refl. cbn [negb Nat.leb].
  rewrite IH. reflexivity.
Qed.

Lemma ewm_mean_flat (alpha : float) (q : Q) (n : nat) :
  ewm_mean alpha 0 (replicate n (Fin q)) = replicate n (Fin q).
Proof.
  destruct n as [|n]; [reflexivity|].
  cbn [replicate ewm_mean notna isnan negb Nat.max Nat.leb].
  rewrite ewm_loop_flat. reflexivity.
Qed.

Lemma sub_self (q : Q) : (Fin q - Fin q)%float = Fin 0.
Proof.
  unfold Float.sub, Float.neg, Float.add. f_equal.
  change 0%Q with (Qred 0). apply Qred_complete.
  rewrite Qred_correct. ring.
Qed.

Lemma last_two_replicate (x : float) (n : nat) :
  2 <= n -> Spec.last_two (replicate n x) = Some (x, x).
Proof.
  intros Hn. replace n with ((n - 2) + 2) by lia.
  rewrite replicate_add. apply last_two_app.
Qed.

Lemma dropna_replicate (q : Q) (n : nat) :
  dropna (replicate n (Fin q)) = replicate n (Fin q).
Proof.
  induction n as [|n IH]; [reflexivity|].
  unfold dropna in *. simpl. f_equal. exact IH.
Qed.

(** X5.  On a flat price series the MACD
    line and the signal line are zero everywhere, so the MACD evaluator
    fails, and both moving averages equal the price, so the EMA
    crossover evaluator fails. *)
Theorem flat_prices_fail_trend_criteria
    (df : DataFrame) (price : Q) (fast slow signal_period : Z) :
  columns df !! "Close" = Some (replicate (len df) (Fin price)) ->
  (1 <= fast)%Z -> (1 <= slow)%Z -> (1 <= signal_period)%Z ->
  (slow <= Z.of_nat (len df))%Z ->
  2 <= len df ->
  get_macd df fast slow signal_period
    = Ok (replicate (len df) (Fin 0), replicate (len df) (Fin 0))
  /\ check_macd_crossover_or_rising
       (replicate (len df) (Fin 0)) (replicate (len df) (Fin 0))
     = Ok (mkVerdict FAIL (Text "MACD condition not met")
             (PDict [("macd", Fin 0); ("signal", Fin 0)]))
  /\ check_ema_crossover df fast slow
     = Ok (mkVerdict FAIL (Text "No recent bullish EMA crossover")
             (PDict [("ema_fast", Fin price); ("ema_slow", Fin price)])).
Proof.
  intros Hclose Hf Hs Hp Hlen H2.
  split; [|split].
  - unfold get_macd, getitem. rewrite Hclose.
    replace (Z.of_nat (len df) <? slow)%Z with false
      by (symmetry; apply Z.ltb_ge; lia).
    cbn [exc_bind]. rewrite !ewm_span_ok by assumption. cbn [exc_bind].
    rewrite !ewm_mean_flat. unfold series_sub.
    rewrite zip_with_replicate, sub_self.
    rewrite ewm_span_ok by assumption. cbn [exc_bind].
    rewrite ewm_mean_flat. reflexivity.
  - rewrite check_macd_crossover_or_rising_eval.
    unfold Spec.last_two_defined. rewrite dropna_replicate.
    rewrite last_two_replicate by exact H2. reflexivity.
  - unfold check_ema_crossover, getitem. rewrite Hclose.
    replace (Z.of_nat (len df) <? slow)%Z with false
      by (symmetry; apply Z.ltb_ge; lia).
    replace (len df <? 2)%nat with false by (symmetry; apply Nat.ltb_ge; lia).
    cbn [exc_bind]. rewrite !ewm_span_ok by assumption. cbn [exc_bind].
    rewrite !ewm_mean_flat.
    replace (len df) with ((len df - 2) + 2) by lia.
    rewrite replicate_add. cbn [replicate].
    rewrite !iloc_minus_2, !iloc_minus_1_two. cbn [exc_bind].
    unfold Float.leb, Float.gtb, Float.ltb, Float.eqb, Float.Qlt_bool.
    rewrite Qeq_bool_refl.
    replace (Qle_bool price price) with true
      by (symmetry; apply Qle_bool_iff; lra).
    reflexivity.
Qed.

(** ** When the crossover evaluators raise *)

Lemma check_ema_crossover_returns (df : DataFrame) (close : Series) (fast slow : Z) :
  columns df !! "Close" = Some close ->
  length close = len df ->
  (1 <= fast)%Z -> (1 <= slow)%Z ->
  exists v, check_ema_crossover df fast slow = Ok v.
Proof.
  intros Hclose Hlen Hf Hs. unfold check_ema_crossover, getitem.
  destruct (Z.of_nat (len df) <? slow)%Z; [eauto|].
  rewrite Hclose. cbn [exc_bind]. rewrite !ewm_span_ok by assumption.
  cbn [exc_bind].
  destruct (Nat.ltb_spec (len df) 2) as [H2|H2]; [eauto|].
  destruct (split_last_two (ewm_mean (Fin (2 # Z.to_pos (fast + 1))) 0 close))
    as (pf & a & b & ->); [rewrite ewm_mean_length; lia|].
  destruct (split_last_two (ewm_mean (Fin (2 # Z.to_pos (slow + 1))) 0 close))
    as (ps & c & d & ->); [rewrite ewm_mean_length; lia|].
  rewrite !iloc_minus_2, !iloc_minus_1_two. cbn [exc_bind].
  destruct ((a <=? c) && (b >? d))%float; eauto.
Qed.

Lemma get_macd_returns (df : DataFrame) (close : Series) (fast slow signal_period : Z) :
  columns df !! "Close" = Some close ->
  (1 <= fast)%Z -> (1 <= slow)%Z -> (1 <= signal_period)%Z ->
  exists macd signal_line, get_macd df fast slow signal_period = Ok (macd, signal_line).
Proof.
  intros Hclose Hf Hs Hp. unfold get_macd, getitem.
  destruct (Z.of_nat (len df) <? slow)%Z; [eauto|].
  rewrite Hclose. cbn [exc_bind]. rewrite !ewm_span_ok by assumption.
  cbn [exc_bind]. rewrite ewm_span_ok by assumption. cbn [exc_bind]. eauto.
Qed.

(** X7.  With spans of at least one,
    the EMA crossover evaluator and the MACD computation raise
    [KeyError('Close')] on a table of at least [slow] rows without a
    Close column; below [slow] rows they answer without looking at the
    columns; with a Close column of one value per row they return. *)
Theorem crossover_raises_only_without_close
    (df : DataFrame) (fast slow signal_period : Z) :
  (1 <= fast)%Z -> (1 <= slow)%Z -> (1 <= signal_period)%Z ->
  (columns df !! "Close" = None ->
   (slow <= Z.of_nat (len df))%Z ->
   check_ema_crossover df fast slow = Raise (KeyError "Close")
   /\ get_macd df fast slow signal_period = Raise (KeyError "Close"))
  /\ ((Z.of_nat (len df) < slow)%Z ->
      check_ema_crossover df fast slow =
      Ok (mkVerdict FAIL (Text "Not enough data for EMA calculation") PNone)
      /\ get_macd df fast slow signal_period = Ok (empty_series, empty_series))
  /\ (has_close df ->
      (exists v, check_ema_crossover df fast slow = Ok v)
      /\ (exists macd signal_line,
             get_macd df fast slow signal_period = Ok (macd, signal_line))).
Proof.
  intros Hf Hs Hp. split; [|split].
  - intros Hnone Hlen. unfold check_ema_crossover, get_macd, getitem.
    replace (Z.of_nat (len df) <? slow)%Z with false
      by (symmetry; apply Z.ltb_ge; lia).
    rewrite Hnone. split; reflexivity.
  - intros Hshort. unfold check_ema_crossover, get_macd.
    replace (Z.of_nat (len df) <? slow)%Z with true
      by (symmetry; apply Z.ltb_lt; lia).
    split; reflexivity.
  - intros (close & Hclose & Hlen). split.
    + eapply check_ema_crossover_returns; eassumption.
    + eapply get_macd_returns; eassumption.
Qed.

(** ** Runs of the orchestrator *)

Lemma returns_same_ret {A : Type} (a : A) (h : gmap nat DataFrame) :
  returns_same (ret a) h.
Proof. exists a. reflexivity. Qed.

Lemma returns_same_bind {A B : Type} (m : store_monad A) (k : A -> store_monad B)
    (h : gmap nat DataFrame) :
  (exists a, m h = (Ok a, h) /\ returns_same (k a) h) ->
  returns_same (bind m k) h.
Proof.
  intros (a & Hm & (b & Hk)). exists b. unfold bind. rewrite Hm. exact Hk.
Qed.

Lemma bind_eq {A B : Type} (m : store_monad A) (k : A -> store_monad B)
    (h h1 : gmap nat DataFrame) (a : A) :
  m h = (Ok a, h1) -> bind m k h = k a h1.
Proof. intros Hm. unfold bind. rewrite Hm. reflexivity. Qed.

Lemma lift_eq {A : Type} (r : exc A) (a : A) (h : gmap nat DataFrame) :
  r = Ok a -> lift r h = (Ok a, h).
Proof. intros ->. reflexivity. Qed.

Lemma raises_bind_now {A B : Type} (e : exn) (m : store_monad A)
    (k : A -> store_monad B) (h : gmap nat DataFrame) :
  raises e m h -> raises e (bind m k) h.
Proof. intros (h' & Hm). exists h'. unfold bind. rewrite Hm. reflexivity. Qed.

Lemma raises_bind_later {A B : Type} (e : exn) (m : store_monad A)
    (k : A -> store_monad B) (h : gmap nat DataFrame) :
  (exists a h1, m h = (Ok a, h1) /\ raises e (k a) h1) ->
  raises e (bind m k) h.
Proof.
  intros (a & h1 & Hm & (h' & Hk)). exists h'. unfold bind. rewrite Hm. exact Hk.
Qed.

(** The RSI step always returns, having written the column. *)
Lemma rsi_step_returns (l : ref) (r : result) (h : gmap nat DataFrame) :
  exists rsi v,
    (data <~ deref l;;
     rsi <~ lift (calculate_rsi data 14);;
     _ <~ assign_column l "RSI" rsi;;
     data <~ deref l;;
     v <~ lift (check_rsi_condition data);;
     ret (dict_set r "rsi_confirmation" (EVerdict v))) h
    = (Ok (dict_set r "rsi_confirmation" (EVerdict v)),
       <[l := setitem (h !!! l) "RSI" rsi]> h).
Proof.
  destruct (calculate_rsi_default_total (h !!! l)) as [rsi Hrsi].
  destruct (check_rsi_condition_status
              (<[l := setitem (h !!! l) "RSI" rsi]> h !!! l)) as (v & Hv & _).
  exists rsi, v.
  unfold bind, deref, lift, assign_column, ret. cbv beta iota.
  rewrite Hrsi. cbv beta iota. rewrite Hv. reflexivity.
Qed.

(** Writing the RSI column of one frame keeps the Close column and the
    number of rows of every frame. *)
Lemma close_after_rsi (h : gmap nat DataFrame) (l l' : ref) (s : Series) :
  columns (<[l := setitem (h !!! l) "RSI" s]> h !!! l') !! "Close"
    = columns (h !!! l') !! "Close"
  /\ len (<[l := setitem (h !!! l) "RSI" s]> h !!! l') = len (h !!! l').
Proof.
  destruct (decide (l = l')) as [<-|Hne].
  - rewrite lookup_total_insert_eq. split; [|reflexivity].
    unfold setitem. cbn [columns]. apply lookup_insert_ne. discriminate.
  - rewrite lookup_total_insert_ne by exact Hne. split; reflexivity.
Qed.

Lemma has_close_after_rsi (h : gmap nat DataFrame) (l l' : ref) (s : Series) :
  has_close (h !!! l') ->
  has_close (<[l := setitem (h !!! l) "RSI" s]> h !!! l').
Proof.
  intros (close & Hc & Hlen).
  destruct (close_after_rsi h l l' s) as [Hcols Hrows].
  exists close. rewrite Hcols, Hrows. auto.
Qed.

(** Steps that only read the store. *)
Ltac returns_step :=
  repeat first
    [ apply returns_same_ret
    | match goal with
      | |- returns_same (if ?c then _ else _) _ => destruct c
      | |- returns_same (bind (deref _) _) _ =>
          apply returns_same_bind; eexists; split; [reflexivity|]
      | |- returns_same (bind (lift _) _) _ =>
          apply returns_same_bind; eexists; split;
          [apply lift_eq; cbn [fst snd]; eassumption|]
      end ].

(** The criteria after the RSI one, on frames with a Close column. *)
Lemma later_steps_return (ADXIndicator : ta_library)
    (asset_type : string) (data_df daily_df : ref)
    (criteria : gmap string bool) (r1 : result) (h : gmap nat DataFrame) :
  has_close (h !!! data_df) ->
  has_close (h !!! daily_df) ->
  returns_same
    (result <~
       (if criterion criteria "dmi_confirmation"
           && String.eqb asset_type "Stock" then
          daily <~ deref daily_df;;
          v <~ lift (check_dmi_trend ADXIndicator daily);;
          ret (dict_set r1 "dmi_confirmation" (EVerdict v))
        else ret r1);;
     result <~
       (if criterion criteria "ema_crossover"
           && String.eqb asset_type "Stock" then
          daily <~ deref daily_df;;
          v <~ lift (check_ema_crossover daily 8 21);;
          ret (dict_set result "ema_crossover" (EVerdict v))
        else ret result);;
     result <~
       (if criterion criteria "macd_crossover"
           && String.eqb asset_type "Stock" then
          daily <~ deref daily_df;;
          series <~ lift (get_macd daily 8 21 9);;
          v <~ lift (check_macd_crossover_or_rising series.1 series.2);;
          ret (dict_set result "macd_crossover" (EVerdict v))
        else ret result);;
     result <~
       (if criterion criteria "weekly_macd"
           && String.eqb asset_type "Stock" then
          data <~ deref data_df;;
          series <~ lift (get_macd data 12 26 9);;
          v <~ lift (check_macd_crossover_or_rising series.1 series.2);;
          ret (dict_set result "weekly_macd" (EVerdict v))
        else ret result);;
     (if criterion criteria "avoid_squeeze"
         && String.eqb asset_type "Stock" then
        daily <~ deref daily_df;;
        v <~ lift (check_short_squeeze_risk daily);;
        ret (dict_set result "avoid_squeeze" (EVerdict v))
      else ret result)) h.
Proof.
  intros (cw & Hcw & Hlw) (cd & Hcd & Hld).
  destruct (check_dmi_trend_status ADXIndicator (h !!! daily_df)) as (v1 & Hv1 & _).
  destruct (check_ema_crossover_returns (h !!! daily_df) cd 8 21 Hcd Hld)
    as (v2 & Hv2); [lia | lia |].
  destruct (get_macd_returns (h !!! daily_df) cd 8 21 9 Hcd)
    as (m3 & s3 & Hm3); [lia | lia | lia |].
  destruct (check_macd_crossover_or_rising_status m3 s3) as (v3 & Hv3 & _).
  destruct (get_macd_returns (h !!! data_df) cw 12 26 9 Hcw)
    as (m4 & s4 & Hm4); [lia | lia | lia |].
  destruct (check_macd_crossover_or_rising_status m4 s4) as (v4 & Hv4 & _).
  destruct (check_short_squeeze_risk_status (h !!! daily_df)) as (v5 & Hv5 & _).
  apply returns_same_bind.
  assert (S1 : returns_same
                 (if criterion criteria "dmi_confirmation"
                     && String.eqb asset_type "Stock" then
                    daily <~ deref daily_df;;
                    v <~ lift (check_dmi_trend ADXIndicator daily);;
                    ret (dict_set r1 "dmi_confirmation" (EVerdict v))
                  else ret r1) h) by returns_step.
  destruct S1 as (r2 & S1). exists r2. split; [exact S1|].
  apply returns_same_bind.
  assert (S2 : returns_same
                 (if criterion criteria "ema_crossover"
                     && String.eqb asset_type "Stock" then
                    daily <~ deref daily_df;;
                    v <~ lift (check_ema_crossover daily 8 21);;
                    ret (dict_set r2 "ema_crossover" (EVerdict v))
                  else ret r2) h) by returns_step.
  destruct S2 as (r3 & S2). exists r3. split; [exact S2|].
  apply returns_same_bind.
  assert (S3 : returns_same
                 (if criterion criteria "macd_crossover"
                     && String.eqb asset_type "Stock" then
                    daily <~ deref daily_df;;
                    series <~ lift (get_macd daily 8 21 9);;
                    v <~ lift (check_macd_crossover_or_rising series.1 series.2);;
                    ret (dict_set r3 "macd_crossover" (EVerdict v))
                  else ret r3) h) by returns_step.
  destruct S3 as (r4 & S3). exists r4. split; [exact S3|].
  apply returns_same_bind.
  assert (S4 : returns_same
                 (if criterion criteria "weekly_macd"
                     && String.eqb asset_type "Stock" then
                    data <~ deref data_df;;
                    series <~ lift (get_macd data 12 26 9);;
                    v <~ lift (check_macd_crossover_or_rising series.1 series.2);;
                    ret (dict_set r4 "weekly_macd" (EVerdict v))
                  else ret r4) h) by returns_step.
  destruct S4 as (r5 & S4). exists r5. split; [exact S4|].
  returns_step.
Qed.

(** X8.  When the long and the
    daily table both have a Close column with one value per row, the
    orchestrator returns a result, whatever the criteria, the asset type
    and the indicator library. *)
Theorem analyze_ticker_returns_with_close_columns (ADXIndicator : ta_library)
    (ticker asset_type : string) (data_df daily_df : ref)
    (current_price : option float) (criteria : gmap string bool)
    (api_client : ApiClient) (h : gmap nat DataFrame) :
  has_close (h !!! data_df) ->
  has_close (h !!! daily_df) ->
  exists (r : result) (h' : gmap nat DataFrame),
    analyze_ticker ADXIndicator ticker asset_type data_df daily_df
      current_price criteria api_client h = (Ok r, h').
Proof.
  intros Hw Hd. unfold analyze_ticker. cbv zeta. rewrite bind_deref.
  set (r0 := initial_result ticker asset_type current_price).
  match goal with
  | |- exists r h', bind ?block ?earn h = _ =>
      assert (Hblock : exists r6 h1, block h = (Ok r6, h1))
  end.
  { destruct (negb (df_empty (h !!! data_df)));
      [|eexists _, _; reflexivity].
    match goal with
    | |- exists r6 h1, bind ?rsi ?later h = _ =>
        assert (Hrsi : exists r1 h1,
                   rsi h = (Ok r1, h1)
                   /\ has_close (h1 !!! data_df) /\ has_close (h1 !!! daily_df))
    end.
    { destruct (criterion criteria "rsi_confirmation").
      - destruct (rsi_step_returns data_df r0 h) as (rsi & v & Hstep).
        eexists _, _. split; [exact Hstep|].
        split; apply has_close_after_rsi; assumption.
      - eexists _, _. split; [reflexivity|]. split; assumption. }
    destruct Hrsi as (r1 & h1 & Hrsi & Hw1 & Hd1).
    destruct (later_steps_return ADXIndicator asset_type data_df daily_df
                criteria r1 h1 Hw1 Hd1) as (r6 & Hlater).
    exists r6, h1. rewrite (bind_eq _ _ _ _ _ Hrsi). exact Hlater. }
  destruct Hblock as (r6 & h1 & Hblock).
  rewrite (bind_eq _ _ _ _ _ Hblock).
  destruct (criterion criteria "next_earning_date" && String.eqb asset_type "Stock");
    eexists _, _; reflexivity.
Qed.

(** X9.  For a Stock with a
    non-empty long series and the EMA or daily MACD criterion enabled, a
    daily table of at least 21 rows without a Close column makes the
    orchestrator raise [KeyError('Close')]: no result is returned. *)
Theorem analyze_ticker_propagates_missing_close (ADXIndicator : ta_library)
    (ticker : string) (data_df daily_df : ref)
    (current_price : option float) (criteria : gmap string bool)
    (api_client : ApiClient) (h : gmap nat DataFrame) :
  df_empty (h !!! data_df) = false ->
  criterion criteria "ema_crossover" = true
  \/ criterion criteria "macd_crossover" = true ->
  columns (h !!! daily_df) !! "Close" = None ->
  21 <= len (h !!! daily_df) ->
  exists h',
    analyze_ticker ADXIndicator ticker "Stock" data_df daily_df
      current_price criteria api_client h = (Raise (KeyError "Close"), h').
Proof.
  intros Hdata Hflag Hnone Hrows.
  unfold analyze_ticker. cbv zeta. rewrite bind_deref, Hdata. cbn [negb].
  change (String.eqb "Stock" "Stock") with true. rewrite !andb_true_r.
  set (r0 := initial_result ticker "Stock" current_price).
  apply raises_bind_now.
  apply raises_bind_later.
  match goal with
  | |- exists a h1, ?rsi h = _ /\ _ =>
      assert (Hrsi : exists r1 h1,
                 rsi h = (Ok r1, h1)
                 /\ columns (h1 !!! daily_df) !! "Close" = None
                 /\ len (h1 !!! daily_df) = len (h !!! daily_df))
  end.
  { destruct (criterion criteria "rsi_confirmation").
    - destruct (rsi_step_returns data_df r0 h) as (rsi & v & Hstep).
      eexists _, _. split; [exact Hstep|].
      destruct (close_after_rsi h data_df daily_df rsi) as [Hc Hl].
      rewrite Hc, Hl. auto.
    - eexists _, _. split; [reflexivity|]. auto. }
  destruct Hrsi as (r1 & h1 & Hrsi & Hnone1 & Hrows1).
  exists r1, h1. split; [exact Hrsi|].
  assert (Hema : check_ema_crossover (h1 !!! daily_df) 8 21
                 = Raise (KeyError "Close")).
  { unfold check_ema_crossover, getitem.
    replace (Z.of_nat (len (h1 !!! daily_df)) <? 21)%Z with false
      by (symmetry; apply Z.ltb_ge; lia).
    rewrite Hnone1. reflexivity. }
  assert (Hmacd : get_macd (h1 !!! daily_df) 8 21 9 = Raise (KeyError "Close")).
  { unfold get_macd, getitem.
    replace (Z.of_nat (len (h1 !!! daily_df)) <? 21)%Z with false
      by (symmetry; apply Z.ltb_ge; lia).
    rewrite Hnone1. reflexivity. }
  destruct (check_dmi_trend_status ADXIndicator (h1 !!! daily_df)) as (v1 & Hv1 & _).
  apply raises_bind_later.
  assert (S1 : returns_same
                 (if criterion criteria "dmi_confirmation" then
                    daily <~ deref daily_df;;
                    v <~ lift (check_dmi_trend ADXIndicator daily);;
                    ret (dict_set r1 "dmi_confirmation" (EVerdict v))
                  else ret r1) h1) by returns_step.
  destruct S1 as (r2 & S1). exists r2, h1. split; [exact S1|].
  destruct (criterion criteria "ema_crossover") eqn:Hema_on.
  - apply raises_bind_now. exists h1.
    unfold bind, deref, lift. cbv beta iota. rewrite Hema. reflexivity.
  - destruct Hflag as [Hflag|Hflag]; [discriminate|]. rewrite Hflag.
    apply raises_bind_later. exists r2, h1. split; [reflexivity|].
    apply raises_bind_now. exists h1.
    unfold bind, deref, lift. cbv beta iota. rewrite Hmacd. reflexivity.
Qed.

(** ** The entries of a result *)

Lemma analyze_ticker_result_form (ADXIndicator : ta_library)
    (ticker asset_type : string) (data_df daily_df : ref)
    (current_price : option float) (criteria : gmap string bool)
    (api_client : ApiClient) (h h' : gmap nat DataFrame) (r : result) :
  analyze_ticker ADXIndicator ticker asset_type data_df daily_df
    current_price criteria api_client h = (Ok r, h') ->
  let has_data := negb (df_empty (h !!! data_df)) in
  let stock := String.eqb asset_type "Stock" in
  exists v1 v2 v3 v4 v5 v6,
    r = set_if (criterion criteria "next_earning_date" && stock)
          "next_earning_date" (earnings_verdict api_client ticker)
       (set_if (has_data && (criterion criteria "avoid_squeeze" && stock))
          "avoid_squeeze" v6
       (set_if (has_data && (criterion criteria "weekly_macd" && stock))
          "weekly_macd" v5
       (set_if (has_data && (criterion criteria "macd_crossover" && stock))
          "macd_crossover" v4
       (set_if (has_data && (criterion criteria "ema_crossover" && stock))
          "ema_crossover" v3
       (set_if (has_data && (criterion criteria "dmi_confirmation" && stock))
          "dmi_confirmation" v2
       (set_if (has_data && criterion criteria "rsi_confirmation")
          "rsi_confirmation" v1
          (initial_result ticker asset_type current_price))))))).
Proof.
  unfold analyze_ticker. cbv zeta. intros H.
  set (r0 := initial_result ticker asset_type current_price) in *.
  set (dummy := earnings_verdict api_client ticker).
  rewrite bind_deref in H.
  apply bind_Ok in H as (r6 & h6 & Hblock & H).
  assert (Hform : exists v1 v2 v3 v4 v5 v6,
    r6 = set_if (negb (df_empty (h !!! data_df))
                 && (criterion criteria "avoid_squeeze"
                     && String.eqb asset_type "Stock")) "avoid_squeeze" v6
        (set_if (negb (df_empty (h !!! data_df))
                 && (criterion criteria "weekly_macd"
                     && String.eqb asset_type "Stock")) "weekly_macd" v5
        (set_if (negb (df_empty (h !!! data_df))
                 && (criterion criteria "macd_crossover"
                     && String.eqb asset_type "Stock")) "macd_crossover" v4
        (set_if (negb (df_empty (h !!! data_df))
                 && (criterion criteria "ema_crossover"
                     && String.eqb asset_type "Stock")) "ema_crossover" v3
        (set_if (negb (df_empty (h !!! data_df))
                 && (criterion criteria "dmi_confirmation"
                     && String.eqb asset_type "Stock")) "dmi_confirmation" v2
        (set_if (negb (df_empty (h !!! data_df))
                 && criterion criteria "rsi_confirmation") "rsi_confirmation" v1
           r0)))))).
  { destruct (negb (df_empty (h !!! data_df))); cbn [andb].
    2:{ apply ret_Ok in Hblock. subst r6.
        exists dummy, dummy, dummy, dummy, dummy, dummy. reflexivity. }
    apply bind_Ok in Hblock as (r1 & h1 & S1 & Hblock).
    assert (F1 : exists v, r1 = set_if (criterion criteria "rsi_confirmation")
                                  "rsi_confirmation" v r0).
    { destruct (criterion criteria "rsi_confirmation");
        [run S1; subst r1; eexists; reflexivity
        |apply ret_Ok in S1; subst r1; exists dummy; reflexivity]. }
    apply bind_Ok in Hblock as (r2 & h2 & S2 & Hblock).
    assert (F2 : exists v, r2 = set_if (criterion criteria "dmi_confirmation"
                                        && String.eqb asset_type "Stock")
                                  "dmi_confirmation" v r1).
    { destruct (criterion criteria "dmi_confirmation" && String.eqb asset_type "Stock");
        [run S2; subst r2; eexists; reflexivity
        |apply ret_Ok in S2; subst r2; exists dummy; reflexivity]. }
    apply bind_Ok in Hblock as (r3 & h3 & S3 & Hblock).
    assert (F3 : exists v, r3 = set_if (criterion criteria "ema_crossover"
                                        && String.eqb asset_type "Stock")
                                  "ema_crossover" v r2).
    { destruct (criterion criteria "ema_crossover" && String.eqb asset_type "Stock");
        [run S3; subst r3; eexists; reflexivity
        |apply ret_Ok in S3; subst r3; exists dummy; reflexivity]. }
    apply bind_Ok in Hblock as (r4 & h4 & S4 & Hblock).
    assert (F4 : exists v, r4 = set_if (criterion criteria "macd_crossover"
                                        && String.eqb asset_type "Stock")
                                  "macd_crossover" v r3).
    { destruct (criterion criteria "macd_crossover" && String.eqb asset_type "Stock");
        [run S4; subst r4; eexists; reflexivity
        |apply ret_Ok in S4; subst r4; exists dummy; reflexivity]. }
    apply bind_Ok in Hblock as (r5 & h5 & S5 & Hblock).
    assert (F5 : exists v, r5 = set_if (criterion criteria "weekly_macd"
                                        && String.eqb asset_type "Stock")
                                  "weekly_macd" v r4).
    { destruct (criterion criteria "weekly_macd" && String.eqb asset_type "Stock");
        [run S5; subst r5; eexists; reflexivity
        |apply ret_Ok in S5; subst r5; exists dummy; reflexivity]. }
    assert (F6 : exists v, r6 = set_if (criterion criteria "avoid_squeeze"
                                        && String.eqb asset_type "Stock")
                                  "avoid_squeeze" v r5).
    { destruct (criterion criteria "avoid_squeeze" && String.eqb asset_type "Stock");
        [run Hblock; subst r6; eexists; reflexivity
        |apply ret_Ok in Hblock; subst r6; exists dummy; reflexivity]. }
    destruct F1 as (v1 & ->), F2 as (v2 & ->), F3 as (v3 & ->),
             F4 as (v4 & ->), F5 as (v5 & ->), F6 as (v6 & ->).
    exists v1, v2, v3, v4, v5, v6. reflexivity. }
  destruct Hform as (v1 & v2 & v3 & v4 & v5 & v6 & ->).
  exists v1, v2, v3, v4, v5, v6.
  destruct (criterion criteria "next_earning_date" && String.eqb asset_type "Stock");
    apply ret_Ok in H; subst r; reflexivity.
Qed.

Lemma dict_get_keys {V : Type} (d : list (string * V)) (key : string) :
  is_Some (dict_get d key) <-> In key (d.*1).
Proof.
  induction d as [|[k v] d IH]; simpl.
  - split; [intros [? H]; discriminate | tauto].
  - destruct (String.eqb_spec k key) as [->|Hne].
    + split; [auto | eauto].
    + rewrite IH. split; [auto | intros [H|H]; [congruence | exact H]].
Qed.

Lemma dict_set_fresh {V : Type} (d : list (string * V)) (key : string) (v : V) :
  ~ In key (d.*1) -> dict_set d key v = (d ++ [(key, v)])%list.
Proof.
  induction d as [|[k x] d IH]; intros Hfresh; [reflexivity|].
  simpl in *. destruct (String.eqb_spec k key) as [->|Hne]; [tauto|].
  rewrite IH by tauto. reflexivity.
Qed.

Lemma set_if_fresh (b : bool) (key : string) (v : Verdict) (r : result) :
  ~ In key (r.*1) -> set_if b key v r = (r ++ opt_entry b key v)%list.
Proof.
  intros Hfresh. unfold set_if, opt_entry. destruct b.
  - apply dict_set_fresh, Hfresh.
  - rewrite app_nil_r. reflexivity.
Qed.

Lemma opt_entry_key (b : bool) (key : string) (v : Verdict) (x : string) :
  In x ((opt_entry b key v).*1) -> x = key.
Proof. unfold opt_entry. destruct b; simpl; [intros [H|[]]; auto | tauto]. Qed.

Lemma opt_entry_keys (b : bool) (key : string) (v : Verdict) :
  (opt_entry b key v).*1 = if b then [key] else [].
Proof. unfold opt_entry. destruct b; reflexivity. Qed.

Lemma filter_cons_app {A : Type} (f : A -> bool) (x : A) (l : list A) :
  List.filter f (x :: l) = ((if f x then [x] else []) ++ List.filter f l)%list.
Proof. simpl. destruct (f x); reflexivity. Qed.

Ltac fresh_key :=
  let Hin := fresh "Hin" in
  intros Hin; rewrite ?fmap_app, ?in_app_iff in Hin;
  repeat match type of Hin with
         | _ \/ _ => destruct Hin as [Hin|Hin]
         end;
  first [ apply opt_entry_key in Hin; discriminate Hin
        | simpl in Hin; intuition discriminate ].

(** X10.  A result of the
    orchestrator starts with ticker, asset_type and current_price and
    continues with the reported criteria in running order; a criterion
    is reported exactly when its flag is set, the asset is a Stock or the
    criterion is the RSI one, and the long series has data or the
    criterion is the earnings one. *)
Theorem analyze_ticker_reports_enabled_criteria (ADXIndicator : ta_library)
    (ticker asset_type : string) (data_df daily_df : ref)
    (current_price : option float) (criteria : gmap string bool)
    (api_client : ApiClient) (h h' : gmap nat DataFrame) (r : result) :
  analyze_ticker ADXIndicator ticker asset_type data_df daily_df
    current_price criteria api_client h = (Ok r, h') ->
  let has_data := negb (df_empty (h !!! data_df)) in
  r.*1 = (metadata_keys ++ reported_criteria criteria asset_type has_data)%list
  /\ take 3 r = initial_result ticker asset_type current_price
  /\ (forall key,
        In key criteria_order ->
        (is_Some (dict_get r key) <->
         reports criteria asset_type has_data key = true)).
Proof.
  intros H has_data.
  apply analyze_ticker_result_form in H
    as (v1 & v2 & v3 & v4 & v5 & v6 & Hr).
  fold has_data in Hr.
  set (stock := String.eqb asset_type "Stock") in *.
  set (r0 := initial_result ticker asset_type current_price) in *.
  rewrite (set_if_fresh _ "rsi_confirmation" v1 r0) in Hr by fresh_key.
  rewrite (set_if_fresh _ "dmi_confirmation") in Hr by fresh_key.
  rewrite (set_if_fresh _ "ema_crossover") in Hr by fresh_key.
  rewrite (set_if_fresh _ "macd_crossover") in Hr by fresh_key.
  rewrite (set_if_fresh _ "weekly_macd") in Hr by fresh_key.
  rewrite (set_if_fresh _ "avoid_squeeze") in Hr by fresh_key.
  rewrite (set_if_fresh _ "next_earning_date") in Hr by fresh_key.
  assert (Hkeys : r.*1 = (metadata_keys
                          ++ reported_criteria criteria asset_type has_data)%list).
  { subst r. rewrite !fmap_app, !opt_entry_keys, <- !app_assoc.
    change (r0.*1) with metadata_keys. f_equal.
    unfold reported_criteria, criteria_order.
    rewrite !filter_cons_app. cbn [List.filter]. rewrite app_nil_r.
    unfold reports. fold stock.
    cbn [String.eqb Ascii.eqb Bool.eqb].
    destruct has_data, stock; cbn [andb orb];
      rewrite ?andb_true_r, ?andb_false_r; reflexivity. }
  split; [exact Hkeys|]. split.
  { subst r. rewrite <- !app_assoc. reflexivity. }
  intros key Hin. rewrite dict_get_keys, Hkeys, in_app_iff.
  unfold reported_criteria. rewrite filter_In.
  split.
  - intros [Hmeta|[_ Hrep]]; [|exact Hrep].
    exfalso. unfold criteria_order, metadata_keys in *. simpl in Hin, Hmeta.
    repeat (destruct Hin as [<-|Hin];
            [repeat (destruct Hmeta as [Hmeta|Hmeta]; [discriminate Hmeta|]);
             exact Hmeta|]).
    exact Hin.
  - intros Hrep. right. split; assumption.
Qed.

Lemma rsi_confirmation_rule_witness :
  exists v, check_rsi_condition MoreSamples.rsi_rising = Ok v
            /\ status v = PASS /\ value v = PFloat (Fin 45).
Proof.
  destruct (rsi_confirmation_rule MoreSamples.rsi_rising)
    as (v & Hv & Hiff & _ & Hval & _).
  exists v. split; [exact Hv|]. split.
  - apply Hiff. exists [NaN; Fin 40; NaN; Fin 45], (Fin 40), (Fin 45).
    repeat split; reflexivity.
  - apply (Hval [NaN; Fin 40; NaN; Fin 45] (Fin 40)); reflexivity.
Defined.

Lemma rsi_in_range_witness :
  exists rsi,
    calculate_rsi MoreSamples.fifteen_bars 14 = Ok rsi
    /\ length rsi = 15
    /\ Forall percent_or_nan rsi.
Proof.
  destruct (rsi_in_range MoreSamples.fifteen_bars
              ((fun i => of_Z (Z.of_nat (100 + i))) <$> seq 0 15) 14)
    as (rsi & Hrsi & Hlen & Hrange & _).
  - reflexivity.
  - repeat constructor.
  - lia.
  - vm_compute. discriminate.
  - exists rsi. split; [exact Hrsi|]. split; [exact Hlen | exact Hrange].
Defined.

Lemma rsi_needs_sixteen_bars_witness :
  exists rsi,
    calculate_rsi MoreSamples.fifteen_bars 14 = Ok rsi
    /\ check_rsi_condition (setitem MoreSamples.fifteen_bars "RSI" rsi) =
       Ok (mkVerdict FAIL (Text "Not enough RSI data") PNone).
Proof.
  destruct (rsi_needs_sixteen_bars MoreSamples.fifteen_bars) as (rsi & Hrsi & Hfail).
  exists rsi. split; [exact Hrsi|]. apply Hfail. vm_compute. lia.
Defined.

Lemma dmi_trend_rule_witness :
  exists v, check_dmi_trend MoreSamples.steady_ta MoreSamples.hlc_frame = Ok v
            /\ status v = PASS.
Proof.
  destruct (dmi_trend_rule MoreSamples.steady_ta MoreSamples.hlc_frame)
    as (_ & Hrule & _).
  destruct (Hrule ltac:(vm_compute; lia)
              (Samples.flat 28 11) (Samples.flat 28 9) (Samples.flat 28 10)
              [Fin 25] [Fin 30] [Fin 10]
              (mkADX (Ok [Fin 25]) (Ok [Fin 30]) (Ok [Fin 10]))
              (Fin 25) (Fin 30) (Fin 10))
    as (v & Hv & Hiff & _); try reflexivity.
  exists v. split; [exact Hv|]. apply Hiff. split; reflexivity.
Defined.

Lemma flat_prices_fail_trend_criteria_witness :
  get_macd MoreSamples.flat_frame 8 21 9
    = Ok (replicate 30 (Fin 0), replicate 30 (Fin 0))
  /\ check_ema_crossover MoreSamples.flat_frame 8 21
     = Ok (mkVerdict FAIL (Text "No recent bullish EMA crossover")
             (PDict [("ema_fast", Fin 100); ("ema_slow", Fin 100)])).
Proof.
  destruct (flat_prices_fail_trend_criteria MoreSamples.flat_frame 100 8 21 9)
    as (Hmacd & _ & Hema); try reflexivity; try lia.
  - vm_compute. discriminate.
  - vm_compute. lia.
  - split; [exact Hmacd | exact Hema].
Defined.

Lemma get_macd_is_ema_difference_witness :
  exists macd signal_line,
    Rounded.get_macd binary64 MoreSamples.four_bars 2 3 2 = Ok (macd, signal_line)
    /\ length macd = 4 /\ length signal_line = 4
    /\ macd = zip_with (fsub binary64)
                (RoundedSpec.ema binary64 (RoundedSpec.smoothing binary64 2)
                   [of_Z 10; of_Z 12; of_Z 11; of_Z 13])
                (RoundedSpec.ema binary64 (RoundedSpec.smoothing binary64 3)
                   [of_Z 10; of_Z 12; of_Z 11; of_Z 13])
    /\ signal_line
       = RoundedSpec.ema binary64 (RoundedSpec.smoothing binary64 2) macd.
Proof.
  destruct (get_macd_is_ema_difference binary64 MoreSamples.four_bars
              [of_Z 10; of_Z 12; of_Z 11; of_Z 13] 2 3 2)
    as (macd & signal_line & Hrun & Hl1 & Hl2 & Hmacd & Hsignal & _);
    try reflexivity; try lia; [vm_compute; discriminate|].
  assert (Hm : macd = zip_with (fsub binary64)
                (RoundedSpec.ema binary64 (RoundedSpec.smoothing binary64 2)
                   [of_Z 10; of_Z 12; of_Z 11; of_Z 13])
                (RoundedSpec.ema binary64 (RoundedSpec.smoothing binary64 3)
                   [of_Z 10; of_Z 12; of_Z 11; of_Z 13])).
  { apply Hmacd; [repeat constructor | |]; intros _; vm_compute; reflexivity. }
  exists macd, signal_line. split; [exact Hrun|].
  split; [exact Hl1|]. split; [exact Hl2|]. split; [exact Hm|].
  apply Hsignal; [|intros _; vm_compute; reflexivity].
  rewrite Hm. vm_compute. repeat constructor.
Defined.

Lemma crossover_raises_only_without_close_witness :
  check_ema_crossover Samples.frame_without_close 8 21 = Raise (KeyError "Close")
  /\ get_macd Samples.frame_without_close 8 21 9 = Raise (KeyError "Close")
  /\ exists v, check_ema_crossover MoreSamples.flat_frame 8 21 = Ok v.
Proof.
  destruct (crossover_raises_only_without_close
              Samples.frame_without_close 8 21 9) as (Hraise & _); try lia.
  destruct (crossover_raises_only_without_close
              MoreSamples.flat_frame 8 21 9) as (_ & _ & Hok); try lia.
  destruct Hraise as [H1 H2]; [reflexivity | vm_compute; discriminate |].
  destruct Hok as [Hv _].
  { eexists. split; reflexivity. }
  split; [exact H1|]. split; [exact H2 | exact Hv].
Defined.

Lemma analyze_ticker_propagates_missing_close_witness :
  exists h',
    analyze_ticker Samples.failing_ta "AAPL" "Stock" 0 1 None
      Samples.all_criteria Samples.no_earnings
      (Samples.store_of Samples.ema_cross_at_last_bar Samples.frame_without_close)
    = (Raise (KeyError "Close"), h').
Proof.
  apply analyze_ticker_propagates_missing_close.
  - reflexivity.
  - left. reflexivity.
  - reflexivity.
  - vm_compute. lia.
Defined.

Lemma analyze_ticker_returns_with_close_columns_witness :
  exists (r : result) (h' : gmap nat DataFrame),
    analyze_ticker Samples.failing_ta "AAPL" "Stock" 0 1 None
      Samples.all_criteria Samples.no_earnings
      (Samples.store_of Samples.ema_cross_at_last_bar Samples.squeeze_flat_volume)
    = (Ok r, h').
Proof.
  apply analyze_ticker_returns_with_close_columns.
  - eexists. split; reflexivity.
  - eexists. split; reflexivity.
Defined.

Lemma analyze_ticker_reports_enabled_criteria_witness :
  exists (r : result) (h' : gmap nat DataFrame),
    analyze_ticker Samples.failing_ta "AAPL" "Option" 0 1 None
      Samples.all_criteria Samples.no_earnings
      (Samples.store_of Samples.ema_cross_at_last_bar Samples.squeeze_flat_volume)
    = (Ok r, h')
    /\ r.*1 = ["ticker"; "asset_type"; "current_price"; "rsi_confirmation"].
Proof.
  destruct (analyze_ticker Samples.failing_ta "AAPL" "Option" 0 1 None
              Samples.all_criteria Samples.no_earnings
              (Samples.store_of Samples.ema_cross_at_last_bar
                 Samples.squeeze_flat_volume)) as [[r|e] h'] eqn:Hrun.
  - exists r, h'. split; [reflexivity|].
    destruct (analyze_ticker_reports_enabled_criteria _ _ _ _ _ _ _ _ _ _ _ Hrun)
      as (Hkeys & _).
    rewrite Hkeys. reflexivity.
  - vm_compute in Hrun. discriminate Hrun.
Defined.

(** ** The watchlist table *)

Lemma filter_both_length {A : Type} (f : A -> bool) (l : list A) :
  length (List.filter f l) + length (List.filter (fun x => negb (f x)) l)
  = length l.
Proof.
  induction l as [|x l IH]; [reflexivity|].
  simpl. destruct (f x); simpl; lia.
Qed.

Lemma find_filter_none {A : Type} (f : A -> bool) (l : list A) :
  List.find f (List.filter (fun x => negb (f x)) l) = None.
Proof.
  induction l as [|x l IH]; [reflexivity|].
  simpl. destruct (f x) eqn:E; simpl; [exact IH | rewrite E; exact IH].
Qed.

Lemma find_filter_other {A : Type} (f g : A -> bool) (l : list A) :
  (forall x, g x = true -> f x = false) ->
  List.find g (List.filter (fun x => negb (f x)) l) = List.find g l.
Proof.
  intros Hfg. induction l as [|x l IH]; [reflexivity|].
  simpl. destruct (g x) eqn:Eg.
  - rewrite (Hfg x Eg). simpl. rewrite Eg. reflexivity.
  - destruct (f x); simpl; [exact IH | rewrite Eg; exact IH].
Qed.

Lemma find_app {A : Type} (f : A -> bool) (l1 l2 : list A) :
  List.find f (l1 ++ l2)%list
  = match List.find f l1 with
    | Some x => Some x
    | None => List.find f l2
    end.
Proof.
  induction l1 as [|x l1 IH]; [reflexivity|].
  simpl. destruct (f x); [reflexivity | exact IH].
Qed.

Lemma filter_find_length {A : Type} (f : A -> bool) (l : list A) :
  (0 <? length (List.filter f l))%nat = bool_decide (is_Some (List.find f l)).
Proof.
  induction l as [|x l IH]; [reflexivity|].
  simpl. destruct (f x); [reflexivity | exact IH].
Qed.

Lemma ticker_is_eq (key : string) (r : WatchRow) :
  ticker_is key r = true <-> row_ticker r = key.
Proof. unfold ticker_is. apply String.eqb_eq. Qed.

Lemma no_match_filter (key : string) (rows : list WatchRow) :
  key ∉ row_ticker <$> rows -> List.filter (ticker_is key) rows = [].
Proof.
  induction rows as [|r rows IH]; intros Hnot; [reflexivity|].
  simpl in Hnot. apply not_elem_of_cons in Hnot as [Hne Hnot].
  simpl. destruct (ticker_is key r) eqn:E.
  - apply ticker_is_eq in E. congruence.
  - apply IH, Hnot.
Qed.

(** Under the uniqueness constraint a ticker matches at most one row. *)
Lemma unique_match_length (key : string) (rows : list WatchRow) :
  NoDup (row_ticker <$> rows) ->
  length (List.filter (ticker_is key) rows)
  = if List.find (ticker_is key) rows is Some _ then 1 else 0.
Proof.
  induction rows as [|r rows IH]; intros Hnd; [reflexivity|].
  simpl in Hnd. apply NoDup_cons in Hnd as [Hr Hnd].
  simpl. destruct (ticker_is key r) eqn:E.
  - apply ticker_is_eq in E. subst key.
    rewrite (no_match_filter _ _ Hr). reflexivity.
  - apply IH, Hnd.
Qed.

Lemma Forall_list_filter {A : Type} (P : A -> Prop) (f : A -> bool) (l : list A) :
  Forall P l -> Forall P (List.filter f l).
Proof.
  induction 1 as [|x l Hx Hl IH]; [constructor|].
  simpl. destruct (f x); [constructor|]; assumption.
Qed.

Lemma elem_of_fmap_filter {A B : Type} (g : A -> B) (f : A -> bool)
    (l : list A) (y : B) :
  y ∈ g <$> List.filter f l -> y ∈ g <$> l.
Proof.
  induction l as [|x l IH]; [auto|].
  simpl. destruct (f x); simpl.
  - rewrite !elem_of_cons. intros [H|H]; auto.
  - rewrite elem_of_cons. auto.
Qed.

Lemma table_ok_filter (f : WatchRow -> bool) (rows : list WatchRow) (seq : Z) :
  table_ok (mkTable rows seq) -> table_ok (mkTable (List.filter f rows) seq).
Proof.
  unfold table_ok. cbn [table_rows table_sequence].
  intros (Hnd & Hids & Hseq). split; [|split].
  - clear Hids Hseq. induction rows as [|r rows IH]; [constructor|].
    simpl in Hnd. apply NoDup_cons in Hnd as [Hr Hnd].
    simpl. destruct (f r); [|apply IH, Hnd].
    simpl. apply NoDup_cons. split; [|apply IH, Hnd].
    intros Hin. apply Hr. eapply elem_of_fmap_filter, Hin.
  - clear Hnd Hseq. induction rows as [|r rows IH]; [constructor|].
    simpl in Hids. apply StronglySorted_cons in Hids as [Hr Hids].
    simpl. destruct (f r); [|apply IH, Hids].
    simpl. apply StronglySorted_cons. split; [|apply IH, Hids].
    rewrite Forall_fmap in *. apply Forall_list_filter, Hr.
  - apply Forall_list_filter, Hseq.
Qed.

Lemma table_ok_add (key asset_type now created : string)
    (rows : list WatchRow) (seq : Z) :
  table_ok (mkTable rows seq) ->
  table_ok (mkTable
              (List.filter (fun r => negb (ticker_is key r)) rows
               ++ [mkRow (seq + 1) key asset_type now created])%list
              (seq + 1)).
Proof.
  intros Hok.
  pose proof (table_ok_filter (fun r => negb (ticker_is key r)) rows seq Hok)
    as (Hnd & Hids & Hseq).
  unfold table_ok in *. cbn [table_rows table_sequence] in *.
  split; [|split].
  - rewrite fmap_app. apply NoDup_app. split; [exact Hnd|]. split.
    + intros x Hx Hin. cbn in Hin. apply list_elem_of_singleton in Hin.
      subst x. apply list_elem_of_fmap in Hx as (r & Hr & Hin).
      apply list_elem_of_In, filter_In in Hin as [_ Hneg].
      apply negb_true_iff in Hneg.
      assert (ticker_is key r = true) by (apply ticker_is_eq; congruence).
      congruence.
    + cbn. apply NoDup_singleton.
  - rewrite fmap_app. apply StronglySorted_app. split; [|split].
    + intros x y Hx Hy. cbn in Hy. apply list_elem_of_singleton in Hy.
      subst y. apply list_elem_of_fmap in Hx as (r & -> & Hin).
      rewrite Forall_forall in Hseq. specialize (Hseq r Hin). lia.
    + exact Hids.
    + cbn. repeat constructor.
  - apply Forall_app. split.
    + eapply Forall_impl; [exact Hseq|]. cbn. intros r Hr. lia.
    + repeat constructor. cbn. lia.
Qed.

(** X11.  The schema constraints hold of
    the table [init_db] creates and survive every method: tickers stay
    unique, rowids stay increasing and never exceed the AUTOINCREMENT
    sequence, and the sequence never decreases.  When upper-casing twice
    is upper-casing once, the stored tickers also stay upper-cased
    spellings. *)
Theorem watchlist_table_constraints_kept
    (upper : string -> string) (db : option WatchTable)
    (ticker asset_type now created : string) :
  db_ok (init_db None) /\ tickers_upper upper (init_db None)
  /\ (db_ok db ->
      db_ok (init_db db)
      /\ db_ok (add_stock_to_watchlist upper ticker asset_type now created db).2
      /\ db_ok (remove_stock_from_watchlist upper ticker db).2
      /\ db_ok (clear_watchlist db).2)
  /\ ((forall s, upper (upper s) = upper s) -> tickers_upper upper db ->
      tickers_upper upper (init_db db)
      /\ tickers_upper upper
           (add_stock_to_watchlist upper ticker asset_type now created db).2
      /\ tickers_upper upper (remove_stock_from_watchlist upper ticker db).2
      /\ tickers_upper upper (clear_watchlist db).2)
  /\ (forall t t',
        db = Some t ->
        (add_stock_to_watchlist upper ticker asset_type now created db).2 = Some t'
        \/ (remove_stock_from_watchlist upper ticker db).2 = Some t'
        \/ (clear_watchlist db).2 = Some t' ->
        (table_sequence t <= table_sequence t')%Z).
Proof.
  split; [|split; [|split; [|split]]].
  - repeat split; constructor.
  - constructor.
  - intros Hok. destruct db as [[rows seq]|]; cbn in *;
      [|repeat split; constructor].
    split; [exact Hok|]. split; [|split].
    + apply table_ok_add, Hok.
    + apply table_ok_filter, Hok.
    + repeat split; constructor.
  - intros Hidem Hup. destruct db as [[rows seq]|]; cbn in *;
      [|repeat split; constructor].
    split; [exact Hup|]. split; [|split].
    + apply Forall_app. split; [apply Forall_list_filter, Hup|].
      repeat constructor. cbn. apply Hidem.
    + apply Forall_list_filter, Hup.
    + constructor.
  - intros t t' -> H. destruct t as [rows seq]. cbn in H.
    destruct H as [H|[H|H]]; injection H as <-; cbn; lia.
Qed.

Lemma find_none_filter_nil {A : Type} (f : A -> bool) (l : list A) :
  List.find f l = None -> List.filter f l = [].
Proof.
  induction l as [|x l IH]; [reflexivity|].
  simpl. destruct (f x); [discriminate | exact IH].
Qed.

Lemma find_none_filter_id {A : Type} (f : A -> bool) (l : list A) :
  List.find f l = None -> List.filter (fun x => negb (f x)) l = l.
Proof.
  induction l as [|x l IH]; [reflexivity|].
  simpl. destruct (f x); [discriminate|].
  intros H. simpl. f_equal. apply IH, H.
Qed.

Lemma filter_app_list {A : Type} (f : A -> bool) (l1 l2 : list A) :
  List.filter f (l1 ++ l2)%list = (List.filter f l1 ++ List.filter f l2)%list.
Proof.
  induction l1 as [|x l1 IH]; [reflexivity|].
  simpl. destruct (f x); simpl; congruence.
Qed.

Lemma filter_filter_same {A : Type} (f : A -> bool) (l : list A) :
  List.filter f (List.filter f l) = List.filter f l.
Proof.
  induction l as [|x l IH]; [reflexivity|].
  simpl. destruct (f x) eqn:E; simpl; [rewrite E|]; congruence.
Qed.

Lemma ticker_is_false (key : string) (r : WatchRow) :
  ticker_is key r = false <-> row_ticker r <> key.
Proof. unfold ticker_is. apply String.eqb_neq. Qed.

Lemma find_other_key (key other : string) (rows : list WatchRow) :
  other <> key ->
  List.find (ticker_is other)
    (List.filter (fun r => negb (ticker_is key r)) rows)
  = List.find (ticker_is other) rows.
Proof.
  intros Hne. apply find_filter_other. intros r Hr.
  apply ticker_is_eq in Hr. apply ticker_is_false. congruence.
Qed.

Lemma find_unique_row (r : WatchRow) (rows : list WatchRow) :
  NoDup (row_ticker <$> rows) -> r ∈ rows ->
  List.find (ticker_is (row_ticker r)) rows = Some r.
Proof.
  induction rows as [|x rows IH]; intros Hnd Hin.
  - apply elem_of_nil in Hin. contradiction.
  - simpl in Hnd. apply NoDup_cons in Hnd as [Hx Hnd].
    apply elem_of_cons in Hin as [->|Hin].
    + simpl. unfold ticker_is. rewrite String.eqb_refl. reflexivity.
    + simpl. destruct (ticker_is (row_ticker r) x) eqn:E.
      * apply ticker_is_eq in E. exfalso. apply Hx. rewrite E.
        apply list_elem_of_fmap. exists r. split; [reflexivity | exact Hin].
      * apply IH; assumption.
Qed.

Lemma find_elem_of {A : Type} (f : A -> bool) (l : list A) (x : A) :
  List.find f l = Some x -> x ∈ l /\ f x = true.
Proof.
  intros H. apply find_some in H as [Hin Hf].
  split; [apply list_elem_of_In, Hin | exact Hf].
Qed.

(** X12.  On an existing table
    [add_stock_to_watchlist] answers True and prints nothing; afterwards
    [get_ticker_info] finds the new entry, with the upper-cased ticker,
    the given asset type and time, under every spelling with the same
    upper-casing, and answers for all other tickers as before.  The count
    grows by one when the ticker was not stored and stays when it was
    (the old row is replaced). *)
Theorem added_ticker_is_found (upper : string -> string)
    (ticker asset_type now created : string) (t : WatchTable) :
  let r := add_stock_to_watchlist upper ticker asset_type now created (Some t) in
  r.1 = (true, [])
  /\ (forall spelling, upper spelling = upper ticker ->
        get_ticker_info upper spelling r.2
        = (Some (mkItem (upper ticker) asset_type now), []))
  /\ (forall other, upper other <> upper ticker ->
        get_ticker_info upper other r.2 = get_ticker_info upper other (Some t))
  /\ (table_ok t ->
        (get_watchlist_count r.2).1
        = if (get_ticker_info upper ticker (Some t)).1 is Some _
          then (get_watchlist_count (Some t)).1
          else S (get_watchlist_count (Some t)).1).
Proof.
  destruct t as [rows seq]. cbn. split; [reflexivity|]. split; [|split].
  - intros spelling ->. rewrite find_app, find_filter_none. cbn.
    rewrite String.eqb_refl. reflexivity.
  - intros other Hne. rewrite find_app, find_other_key by exact Hne.
    destruct (List.find (ticker_is (upper other)) rows); [reflexivity|].
    cbn. destruct (String.eqb_spec (upper ticker) (upper other)); [congruence | reflexivity].
  - intros (Hnd & _ & _). cbn in Hnd.
    rewrite length_app. cbn.
    pose proof (filter_both_length (ticker_is (upper ticker)) rows) as Hlen.
    rewrite (unique_match_length _ _ Hnd) in Hlen.
    destruct (List.find (ticker_is (upper ticker)) rows); cbn in *; lia.
Qed.

(** X13.  On an existing table
    [remove_stock_from_watchlist] prints nothing and answers True exactly
    when the ticker (under its upper-casing) was stored; afterwards
    [get_ticker_info] finds no entry under any spelling with the same
    upper-casing and answers for all other tickers as before; a removal
    that answers False leaves the table as it was, one that answers True
    lowers the count by one. *)
Theorem removed_ticker_is_gone (upper : string -> string)
    (ticker : string) (t : WatchTable) :
  let r := remove_stock_from_watchlist upper ticker (Some t) in
  r.1 = (bool_decide (is_Some (get_ticker_info upper ticker (Some t)).1), [])
  /\ (forall spelling, upper spelling = upper ticker ->
        get_ticker_info upper spelling r.2 = (None, []))
  /\ (forall other, upper other <> upper ticker ->
        get_ticker_info upper other r.2 = get_ticker_info upper other (Some t))
  /\ (r.1.1 = false -> r.2 = Some t)
  /\ (table_ok t -> r.1.1 = true ->
        S (get_watchlist_count r.2).1 = (get_watchlist_count (Some t)).1).
Proof.
  destruct t as [rows seq]. cbv zeta.
  unfold remove_stock_from_watchlist, get_ticker_info, get_watchlist_count.
  cbn [fst snd table_rows table_sequence].
  split; [|split; [|split; [|split]]].
  - rewrite filter_find_length.
    destruct (List.find (ticker_is (upper ticker)) rows); reflexivity.
  - intros spelling ->. rewrite find_filter_none. reflexivity.
  - intros other Hne. rewrite find_other_key by exact Hne. reflexivity.
  - rewrite filter_find_length. intros H.
    apply bool_decide_eq_false in H.
    destruct (List.find (ticker_is (upper ticker)) rows) eqn:E.
    + exfalso. apply H. eauto.
    + rewrite (find_none_filter_id _ _ E). reflexivity.
  - intros (Hnd & _ & _) H. cbn in Hnd.
    pose proof (filter_both_length (ticker_is (upper ticker)) rows) as Hlen.
    apply Nat.ltb_lt in H. rewrite (unique_match_length _ _ Hnd) in Hlen, H.
    destruct (List.find (ticker_is (upper ticker)) rows); cbn in *; lia.
Qed.

Lemma StronglySorted_items (rows : list WatchRow) :
  StronglySorted newest_first rows ->
  StronglySorted
    (fun a b => String.leb (item_added_at b) (item_added_at a) = true)
    (item_of <$> rows).
Proof.
  induction 1 as [|r rows Hs IH Hr]; [constructor|].
  cbn. constructor; [exact IH|].
  apply Forall_fmap. eapply Forall_impl; [exact Hr|].
  intros x Hx. exact Hx.
Qed.

(** X14.  Given the engine's [ORDER BY]
    guarantee, [get_watchlist] on an existing table prints nothing and
    returns one entry per stored row, each followed only by entries whose
    [added_at] is not greater; a ticker added with a time later than
    every stored one comes first in the next listing, followed by the
    entries of the other tickers. *)
Theorem watchlist_is_newest_first (upper : string -> string)
    (order : list WatchRow -> list WatchRow)
    (ticker asset_type now created : string) (t : WatchTable) :
  orders_newest_first order ->
  (get_watchlist order (Some t)).2 = []
  /\ (get_watchlist order (Some t)).1 ≡ₚ item_of <$> table_rows t
  /\ StronglySorted
       (fun a b => String.leb (item_added_at b) (item_added_at a) = true)
       (get_watchlist order (Some t)).1
  /\ (Forall (added_before now) (table_rows t) ->
      exists rest,
        (get_watchlist order
           (add_stock_to_watchlist upper ticker asset_type now created
              (Some t)).2).1
        = mkItem (upper ticker) asset_type now :: rest
        /\ rest ≡ₚ item_of <$>
                     List.filter (fun r => negb (ticker_is (upper ticker) r))
                       (table_rows t)).
Proof.
  intros Horder. destruct t as [rows seq]. cbn.
  split; [reflexivity|]. split; [|split].
  - apply fmap_Permutation, Horder.
  - apply StronglySorted_items, Horder.
  - intros Hbefore.
    set (kept := List.filter (fun r => negb (ticker_is (upper ticker) r)) rows).
    set (new := mkRow (seq + 1) (upper ticker) asset_type now created).
    destruct (Horder (kept ++ [new])%list) as [Hperm Hsorted].
    assert (Hkept : Forall (added_before now) kept)
      by (apply Forall_list_filter, Hbefore).
    assert (Hperm' : order (kept ++ [new])%list ≡ₚ new :: kept).
    { rewrite Hperm. apply Permutation_app_comm. }
    destruct (order (kept ++ [new])%list) as [|h tl] eqn:E.
    { apply Permutation_nil_l in Hperm'. discriminate. }
    apply StronglySorted_cons in Hsorted as [Hh _].
    assert (Hhead : h = new).
    { assert (Hnew : new ∈ h :: tl) by (rewrite Hperm'; left).
      assert (Hin : h ∈ new :: kept) by (rewrite <- Hperm'; left).
      apply elem_of_cons in Hnew as [Hnew|Hnew]; [congruence|].
      apply elem_of_cons in Hin as [Hin|Hin]; [exact Hin|].
      exfalso.
      rewrite Forall_forall in Hh, Hkept.
      specialize (Hh new Hnew). specialize (Hkept h Hin).
      unfold newest_first, added_before in *. cbn in Hh. congruence. }
    subst h. exists (item_of <$> tl). split; [reflexivity|].
    apply fmap_Permutation. eapply Permutation_cons_inv. exact Hperm'.
Qed.

Lemma watchlist_tickers_unique (order : list WatchRow -> list WatchRow)
    (t : WatchTable) :
  orders_newest_first order -> table_ok t ->
  NoDup (item_ticker <$> (get_watchlist order (Some t)).1).
Proof.
  intros Horder (Hnd & _ & _). destruct t as [rows seq]. cbn in *.
  destruct (Horder rows) as [Hperm _].
  rewrite <- list_fmap_compose.
  change (item_ticker ∘ item_of) with row_ticker.
  rewrite Hperm. exact Hnd.
Qed.

Lemma watchlist_lists_what_is_found (upper : string -> string)
    (order : list WatchRow -> list WatchRow) (t : WatchTable)
    (item : WatchItem) :
  orders_newest_first order -> table_ok t -> tickers_upper upper (Some t) ->
  item ∈ (get_watchlist order (Some t)).1 <->
  (get_ticker_info upper (item_ticker item) (Some t)).1 = Some item.
Proof.
  intros Horder (Hnd & _ & _) Hup. destruct t as [rows seq]. cbn in *.
  destruct (Horder rows) as [Hperm _]. split.
  - intros Hin. apply list_elem_of_fmap in Hin as (r & -> & Hin).
    rewrite Hperm in Hin.
    rewrite Forall_forall in Hup. cbn. rewrite (Hup r Hin).
    rewrite (find_unique_row r rows Hnd Hin). reflexivity.
  - intros Hfind.
    destruct (List.find (ticker_is (upper (item_ticker item))) rows)
      as [r|] eqn:E; [|discriminate].
    cbn in Hfind. injection Hfind as <-.
    apply find_elem_of in E as [Hin _].
    apply list_elem_of_fmap. exists r. split; [reflexivity|].
    rewrite Hperm. exact Hin.
Qed.

(** X15.  On a table that meets the schema
    constraints and stores upper-cased tickers, the three read methods
    agree: [get_watchlist] has as many entries as [get_watchlist_count]
    counts, no two of them with the same ticker, and an entry is listed
    exactly when [get_ticker_info] of its ticker returns it. *)
Theorem watchlist_views_agree (upper : string -> string)
    (order : list WatchRow -> list WatchRow) (t : WatchTable) :
  orders_newest_first order -> table_ok t -> tickers_upper upper (Some t) ->
  length (get_watchlist order (Some t)).1 = (get_watchlist_count (Some t)).1
  /\ NoDup (item_ticker <$> (get_watchlist order (Some t)).1)
  /\ (forall item,
        item ∈ (get_watchlist order (Some t)).1 <->
        (get_ticker_info upper (item_ticker item) (Some t)).1 = Some item).
Proof.
  intros Horder Hok Hup. split; [|split].
  - destruct t as [rows seq]. cbn. destruct (Horder rows) as [Hperm _].
    rewrite length_fmap. apply Permutation_length, Hperm.
  - apply watchlist_tickers_unique; assumption.
  - intros item. apply watchlist_lists_what_is_found; assumption.
Qed.

Lemma add_on_table (upper : string -> string)
    (ticker asset_type now created : string) (t : WatchTable) :
  add_stock_to_watchlist upper ticker asset_type now created (Some t)
  = (true, [],
     Some (mkTable
             (List.filter (fun r => negb (ticker_is (upper ticker) r))
                (table_rows t)
              ++ [mkRow (table_sequence t + 1) (upper ticker) asset_type now
                    created])%list
             (table_sequence t + 1))).
Proof. reflexivity. Qed.

(** X16.  The two watchlist routes, when
    upper-casing twice is upper-casing once: a form whose ticker is blank
    after stripping flashes 'Please enter a ticker symbol.' and leaves the
    database alone; otherwise, on an existing table, the route flashes
    'Added T (asset) to watchlist!' with T the stripped, upper-cased
    ticker and the asset type defaulting to Stock, and T is then found by
    [get_ticker_info]; a following [remove_ticker] under any spelling
    with that upper-casing flashes 'Removed spelling from watchlist!' and,
    when T was not stored before, leaves the rows that were there before
    the pair of requests (the rowid sequence has advanced by one). *)
Theorem add_ticker_then_remove_ticker
    (upper strip : string -> string)
    (form_ticker form_asset_type : option string)
    (now created spelling : string) (db : option WatchTable) (t : WatchTable) :
  (forall s, upper (upper s) = upper s) ->
  let T := upper (strip (form_get form_ticker "")) in
  let asset := form_get form_asset_type "Stock" in
  let added := add_ticker upper strip form_ticker form_asset_type now created in
  (T = "" ->
     added db = ([("Please enter a ticker symbol.", "error")], [], db))
  /\ (T <> "" ->
      (added (Some t)).1
      = ([("Added " ++ T ++ " (" ++ asset ++ ") to watchlist!", "success")], [])
      /\ get_ticker_info upper T (added (Some t)).2
         = (Some (mkItem T asset now), [])
      /\ (upper spelling = T ->
          (remove_ticker upper spelling (added (Some t)).2).1
          = ([("Removed " ++ spelling ++ " from watchlist!", "success")], [])
          /\ ((get_ticker_info upper T (Some t)).1 = None ->
              (remove_ticker upper spelling (added (Some t)).2).2
              = Some (mkTable (table_rows t) (table_sequence t + 1))))).
Proof.
  intros Hidem T asset added. subst added. unfold add_ticker.
  fold T. fold asset.
  assert (HTT : upper T = T) by apply Hidem.
  split.
  - intros ->. reflexivity.
  - intros HT. apply String.eqb_neq in HT. rewrite HT. cbn [negb].
    rewrite add_on_table, HTT. cbn [fst snd].
    split; [reflexivity|]. split.
    + unfold get_ticker_info. cbn [table_rows fst snd]. rewrite HTT.
      rewrite find_app, find_filter_none. cbn.
      rewrite String.eqb_refl. reflexivity.
    + intros Hsp. unfold remove_ticker, remove_stock_from_watchlist.
      cbn [table_rows table_sequence]. rewrite Hsp.
      rewrite !filter_app_list, filter_filter_same.
      rewrite (find_none_filter_nil (ticker_is T)
                 (List.filter (fun r => negb (ticker_is T r)) (table_rows t)))
        by apply find_filter_none.
      cbn. rewrite String.eqb_refl. cbn. split; [reflexivity|].
      intros Hnone. rewrite app_nil_r.
      rewrite HTT in Hnone.
      destruct (List.find (ticker_is T) (table_rows t)) eqn:E; [discriminate|].
      rewrite (find_none_filter_id _ _ E). reflexivity.
Qed.

(** ** The text order of [added_at] *)

Lemma ascii_compare_refl (a : Ascii.ascii) : Ascii.compare a a = Eq.
Proof. unfold Ascii.compare. apply N.compare_refl. Qed.

Lemma string_compare_le_trans (a b c : string) :
  String.compare a b <> Gt -> String.compare b c <> Gt ->
  String.compare a c <> Gt.
Proof.
  revert b c. induction a as [|x a IH]; intros [|y b] [|z c]; cbn;
    try congruence.
  destruct (Ascii.compare x y) eqn:Exy; try congruence;
    destruct (Ascii.compare y z) eqn:Eyz; try congruence.
  - apply Ascii.compare_eq_iff in Exy, Eyz. subst.
    rewrite ascii_compare_refl. apply IH.
  - apply Ascii.compare_eq_iff in Exy. subst. rewrite Eyz. congruence.
  - apply Ascii.compare_eq_iff in Eyz. subst. rewrite Exy. congruence.
  - unfold Ascii.compare in *. apply N.compare_lt_iff in Exy, Eyz.
    pose proof (N.lt_trans _ _ _ Exy Eyz) as H.
    apply N.compare_lt_iff in H. rewrite H. congruence.
Qed.

Lemma string_leb_compare (a b : string) :
  String.leb a b = true <-> String.compare a b <> Gt.
Proof.
  unfold String.leb. destruct (String.compare a b); split; congruence.
Qed.

Lemma string_leb_trans (a b c : string) :
  String.leb a b = true -> String.leb b c = true -> String.leb a c = true.
Proof. rewrite !string_leb_compare. apply string_compare_le_trans. Qed.

#[local] Instance newest_first_trans : Transitive newest_first.
Proof.
  intros a b c Hab Hbc. unfold newest_first in *.
  eapply string_leb_trans; eassumption.
Qed.

#[local] Instance newest_first_total : Total newest_first.
Proof. intros a b. unfold newest_first. apply String.leb_total. Qed.

Lemma sort_newest_first_orders : orders_newest_first sort_newest_first.
Proof.
  intros rows. unfold sort_newest_first. split.
  - apply merge_sort_Permutation.
  - apply StronglySorted_merge_sort; apply _.
Qed.

Lemma ascii_upper_char_idem (c : Ascii.ascii) :
  ascii_upper_char (ascii_upper_char c) = ascii_upper_char c.
Proof. destruct c as [[] [] [] [] [] [] [] []]; vm_compute; reflexivity. Qed.

Lemma ascii_upper_idem (s : string) : ascii_upper (ascii_upper s) = ascii_upper s.
Proof.
  induction s as [|c s IH]; [reflexivity|].
  cbn. rewrite ascii_upper_char_idem, IH. reflexivity.
Qed.

Lemma two_tickers_ok : table_ok WatchSamples.two_tickers.
Proof. apply (bool_decide_unpack _). vm_compute. reflexivity. Qed.

Lemma two_tickers_upper :
  tickers_upper ascii_upper (Some WatchSamples.two_tickers).
Proof. repeat constructor. Qed.

(** ** Instances *)

Import WatchSamples.

Lemma watchlist_table_constraints_kept_witness :
  db_ok (add_stock_to_watchlist ascii_upper "spy" "Stock" later later
           (Some two_tickers)).2
  /\ tickers_upper ascii_upper
       (add_stock_to_watchlist ascii_upper "spy" "Stock" later later
          (Some two_tickers)).2
  /\ (3 <= 4)%Z.
Proof.
  destruct (watchlist_table_constraints_kept ascii_upper (Some two_tickers)
              "spy" "Stock" later later) as (_ & _ & Hok & Hup & Hseq).
  split; [|split].
  - apply Hok. exact two_tickers_ok.
  - apply Hup; [exact ascii_upper_idem | exact two_tickers_upper].
  - apply (Hseq two_tickers
             (mkTable [msft; mkRow 4 "SPY" "Stock" later later] 4));
      [reflexivity | left; reflexivity].
Defined.

Lemma added_ticker_is_found_witness :
  get_ticker_info ascii_upper "Spy"
    (add_stock_to_watchlist ascii_upper "spy" "Stock" later later
       (Some two_tickers)).2
  = (Some (mkItem "SPY" "Stock" later), [])
  /\ get_ticker_info ascii_upper "msft"
       (add_stock_to_watchlist ascii_upper "spy" "Stock" later later
          (Some two_tickers)).2
     = (Some (item_of msft), [])
  /\ (get_watchlist_count
        (add_stock_to_watchlist ascii_upper "spy" "Stock" later later
           (Some two_tickers)).2).1 = 2%nat.
Proof.
  pose proof (added_ticker_is_found ascii_upper "spy" "Stock" later later
                two_tickers) as H.
  cbv zeta in H. destruct H as (_ & Hfound & Hother & Hcount).
  split; [|split].
  - apply (Hfound "Spy"). reflexivity.
  - rewrite (Hother "msft"); [reflexivity | vm_compute; discriminate].
  - rewrite (Hcount two_tickers_ok). reflexivity.
Defined.

Lemma removed_ticker_is_gone_witness :
  (remove_stock_from_watchlist ascii_upper "msft" (Some two_tickers)).1
  = (true, [])
  /\ get_ticker_info ascii_upper "Msft"
       (remove_stock_from_watchlist ascii_upper "msft" (Some two_tickers)).2
     = (None, [])
  /\ get_ticker_info ascii_upper "spy"
       (remove_stock_from_watchlist ascii_upper "msft" (Some two_tickers)).2
     = (Some (item_of spy), [])
  /\ (remove_stock_from_watchlist ascii_upper "aapl" (Some two_tickers)).2
     = Some two_tickers
  /\ (get_watchlist_count
        (remove_stock_from_watchlist ascii_upper "msft" (Some two_tickers)).2).1
     = 1%nat.
Proof.
  pose proof (removed_ticker_is_gone ascii_upper "msft" two_tickers) as H.
  cbv zeta in H. destruct H as (Hres & Hgone & Hother & _ & Hcount).
  pose proof (removed_ticker_is_gone ascii_upper "aapl" two_tickers) as H'.
  cbv zeta in H'. destruct H' as (_ & _ & _ & Hsame & _).
  split; [|split; [|split; [|split]]].
  - rewrite Hres. reflexivity.
  - apply (Hgone "Msft"). reflexivity.
  - rewrite (Hother "spy"); [reflexivity | vm_compute; discriminate].
  - apply Hsame. reflexivity.
  - apply Nat.succ_inj. exact (Hcount two_tickers_ok eq_refl).
Defined.

Lemma watchlist_is_newest_first_witness :
  exists rest,
    (get_watchlist sort_newest_first
       (add_stock_to_watchlist ascii_upper "aapl" "Stock" later later
          (Some two_tickers)).2).1
    = mkItem "AAPL" "Stock" later :: rest
    /\ rest ≡ₚ [item_of msft; item_of spy].
Proof.
  destruct (watchlist_is_newest_first ascii_upper sort_newest_first
              "aapl" "Stock" later later two_tickers sort_newest_first_orders)
    as (_ & _ & _ & H).
  destruct H as (rest & Hrest & Hperm).
  - repeat constructor.
  - exists rest. split; [exact Hrest | exact Hperm].
Defined.

Lemma watchlist_views_agree_witness :
  length (get_watchlist sort_newest_first (Some two_tickers)).1 = 2%nat
  /\ item_of spy ∈ (get_watchlist sort_newest_first (Some two_tickers)).1.
Proof.
  destruct (watchlist_views_agree ascii_upper sort_newest_first two_tickers
              sort_newest_first_orders two_tickers_ok two_tickers_upper)
    as (Hlen & _ & Hin).
  split.
  - rewrite Hlen. reflexivity.
  - apply Hin. reflexivity.
Defined.

Lemma add_ticker_then_remove_ticker_witness :
  (add_ticker ascii_upper ascii_strip (Some "  aapl ") None later later
     (Some two_tickers)).1
  = ([("Added AAPL (Stock) to watchlist!", "success")], [])
  /\ (remove_ticker ascii_upper "Aapl"
        (add_ticker ascii_upper ascii_strip (Some "  aapl ") None later later
           (Some two_tickers)).2).1
     = ([("Removed Aapl from watchlist!", "success")], [])
  /\ (remove_ticker ascii_upper "Aapl"
        (add_ticker ascii_upper ascii_strip (Some "  aapl ") None later later
           (Some two_tickers)).2).2
     = Some (mkTable [msft; spy] 4).
Proof.
  pose proof (add_ticker_then_remove_ticker ascii_upper ascii_strip
                (Some "  aapl ") None later later "Aapl" None two_tickers
                ascii_upper_idem) as H.
  cbv zeta in H. destruct H as [_ H].
  destruct H as (Hadd & _ & Hrem); [vm_compute; discriminate|].
  destruct Hrem as [Hflash Hrows]; [reflexivity|].
  split; [exact Hadd|]. split; [exact Hflash|].
  apply Hrows. reflexivity.
Defined.

(** ** The data-source client and its cache *)

Import PolygonAPIClient.

Lemma cached_store_same (key : string) (v : json) (t later ttl : Q) (c : Client) :
  cached key later ttl (store key v t c)
  = if Qlt_bool (later - t) ttl then Some v else None.
Proof. unfold cached, store. cbn. rewrite lookup_insert_eq. reflexivity. Qed.

Lemma cached_store_other (key key' : string) (v : json) (t later ttl : Q)
    (c : Client) :
  key <> key' -> cached key' later ttl (store key v t c) = cached key' later ttl c.
Proof.
  intros Hne. unfold cached, store. cbn.
  rewrite lookup_insert_ne by exact Hne. reflexivity.
Qed.

Lemma cached_set_api_key (key k : string) (now ttl : Q) (c : Client) :
  cached key now ttl (set_api_key k c) = cached key now ttl c.
Proof. reflexivity. Qed.

Lemma make_request_answer (net : network) (endpoint key : string) (body : json)
    (c : Client) :
  api_key c = Some key -> key <> "" ->
  net (base_url ++ endpoint) (<["apiKey" := key]> ∅) = Answer body ->
  _make_request net endpoint ∅ c
  = (inr body, [(base_url ++ endpoint, <["apiKey" := key]> ∅)]).
Proof.
  intros Hkey Hne Hnet. unfold _make_request. rewrite Hkey.
  apply String.eqb_neq in Hne. rewrite Hne. cbv zeta. rewrite Hnet. reflexivity.
Qed.

Lemma make_request_sends (net : network) (endpoint key : string) (c : Client) :
  api_key c = Some key -> key <> "" ->
  (_make_request net endpoint ∅ c).2
  = [(base_url ++ endpoint, <["apiKey" := key]> ∅)].
Proof.
  intros Hkey Hne. unfold _make_request. rewrite Hkey.
  apply String.eqb_neq in Hne. rewrite Hne. cbv zeta.
  destruct (net _ _); reflexivity.
Qed.

Lemma price_sends (interp : raised -> string) (net : network)
    (ticker key : string) (now stored_at : Q) (c : Client) :
  api_key c = Some key -> key <> "" ->
  cached ("price_" ++ ticker) now 600 c = None ->
  (get_current_price interp net ticker now stored_at c).1.2
  = [(base_url ++ "/v2/aggs/ticker/" ++ ticker ++ "/prev",
      <["apiKey" := key]> ∅)].
Proof.
  intros Hkey Hne Hmiss. unfold get_current_price. cbv zeta. rewrite Hmiss.
  pose proof (make_request_sends net ("/v2/aggs/ticker/" ++ ticker ++ "/prev")
                key c Hkey Hne) as Hsent.
  destruct (_make_request net _ ∅ c) as [answer sent]. cbn in Hsent. subst sent.
  match goal with |- context [match ?b with inl _ => _ | inr _ => _ end] =>
    destruct b as [e|[returned c']] end; reflexivity.
Qed.

(** X17.  With a key set and no fresh entry,
    [get_current_price] sends one request to the previous-close endpoint
    with the key as [apiKey]; when the answer is an object whose
    [results] is a list starting with an object that has a field [c], it
    returns that value with an empty error text and caches it under the
    ticker.  For the next ten minutes (counted from the time of caching)
    a call for the same ticker returns the cached value and sends no
    request, whatever the network would answer and whatever key is set
    by then; from ten minutes on, and after [clear_cache], a request is
    sent again.  Entries of other tickers and of the earnings getter are
    left as they were. *)
Theorem fetched_price_is_reused (interp : raised -> string)
    (net net' : network) (ticker key key' : string)
    (data first : gmap string json) (rest : list json) (price : json)
    (now stored_at later later' : Q) (c : Client) :
  api_key c = Some key -> key <> "" ->
  cached ("price_" ++ ticker) now 600 c = None ->
  net (base_url ++ "/v2/aggs/ticker/" ++ ticker ++ "/prev")
      (<["apiKey" := key]> ∅) = Answer (JObj data) ->
  data !! "results" = Some (JArr (JObj first :: rest)) ->
  first !! "c" = Some price ->
  let url := base_url ++ "/v2/aggs/ticker/" ++ ticker ++ "/prev" in
  let c1 := store ("price_" ++ ticker) price stored_at c in
  get_current_price interp net ticker now stored_at c
  = ((price, ""), [(url, <["apiKey" := key]> ∅)], c1)
  /\ ((later - stored_at < 600)%Q ->
      get_current_price interp net' ticker later later' c1
      = ((price, ""), [], c1)
      /\ get_current_price interp net' ticker later later' (set_api_key key' c1)
         = ((price, ""), [], set_api_key key' c1))
  /\ ((600 <= later - stored_at)%Q ->
      (get_current_price interp net' ticker later later' c1).1.2
      = [(url, <["apiKey" := key]> ∅)])
  /\ (get_current_price interp net' ticker later later' (clear_cache c1)).1.2
     = [(url, <["apiKey" := key]> ∅)]
  /\ (forall other ttl,
        other <> ticker ->
        cached ("price_" ++ other) later ttl c1
        = cached ("price_" ++ other) later ttl c)
  /\ (forall any ttl,
        cached ("earnings_" ++ any) later ttl c1
        = cached ("earnings_" ++ any) later ttl c).
Proof.
  intros Hkey Hne Hmiss Hnet Hres Hc url c1.
  split; [|split; [|split; [|split; [|split]]]].
  - unfold get_current_price. cbv zeta. rewrite Hmiss.
    rewrite (make_request_answer net _ key (JObj data) c Hkey Hne Hnet).
    cbv [and_then get getitem from_option id]. rewrite !Hres.
    cbv [truthy getitem_0]. rewrite Hc. reflexivity.
  - intros Hfresh. apply Qlt_bool_iff in Hfresh.
    split; unfold get_current_price; cbv zeta.
    + subst c1. rewrite cached_store_same, Hfresh. reflexivity.
    + rewrite cached_set_api_key. subst c1.
      rewrite cached_store_same, Hfresh. reflexivity.
  - intros Hstale. apply Qlt_bool_false_iff in Hstale.
    apply price_sends; [exact Hkey | exact Hne |].
    subst c1. rewrite cached_store_same, Hstale. reflexivity.
  - apply price_sends; [exact Hkey | exact Hne | reflexivity].
  - intros other ttl Hother. subst c1. apply cached_store_other.
    cbn. intros H. simplify_eq.
  - intros any ttl. subst c1. apply cached_store_other.
    cbn. discriminate.
Qed.

Lemma make_request_cases (net : network) (endpoint : string) (c : Client) :
  let '(answer, sent) := _make_request net endpoint ∅ c in
  (length sent <= 1)%nat
  /\ (api_key c = None \/ api_key c = Some "" ->
      answer = inl (RValueError "API key not set") /\ sent = [])
  /\ (forall key text,
        api_key c = Some key -> key <> "" ->
        net (base_url ++ endpoint) (<["apiKey" := key]> ∅) = Failure text ->
        answer
        = inl (RException ("Error fetching data from Polygon.io: " ++ text))).
Proof.
  unfold _make_request. destruct (api_key c) as [key|] eqn:Hkey.
  - destruct (String.eqb_spec key "") as [->|Hne].
    + split; [cbn; lia|]. split; [auto|]. intros key text H. congruence.
    + cbv zeta. destruct (net _ _) eqn:Hnet.
      * split; [cbn; lia|]. split.
        -- intros [H|H]; congruence.
        -- intros key0 text H _ Hfail. congruence.
      * split; [cbn; lia|]. split.
        -- intros [H|H]; congruence.
        -- intros key0 text0 H _ Hfail. congruence.
  - split; [cbn; lia|]. split; [auto|]. intros key text H. discriminate.
Qed.

(** What [use] may do to the client: nothing, or store the value it
    returns with an empty error text. *)
Lemma cached_or_fetched_cases (interp : raised -> string) (net : network)
    (cache_key endpoint : string) (ttl now stored_at : Q) (c : Client)
    (use : json -> raised + (json * string) * Client) :
  (forall data r c', use data = inr (r, c') ->
     c' = c \/ (r.2 = "" /\ c' = store cache_key r.1 stored_at c)) ->
  let '((value, error), sent, c') :=
    cached_or_fetched interp net cache_key endpoint ttl now c use in
  api_key c' = api_key c
  /\ (length sent <= 1)%nat
  /\ (c' = c \/ (error = "" /\ c' = store cache_key value stored_at c))
  /\ (cached cache_key now ttl c = None ->
      (api_key c = None \/ api_key c = Some "" ->
       (value, error) = (JNull, "API key not set") /\ sent = [] /\ c' = c)
      /\ (forall key text,
            api_key c = Some key -> key <> "" ->
            net (base_url ++ endpoint) (<["apiKey" := key]> ∅) = Failure text ->
            (value, error)
            = (JNull, "Error fetching data from Polygon.io: " ++ text)
            /\ c' = c)).
Proof.
  intros Huse. unfold cached_or_fetched.
  destruct (cached cache_key now ttl c) eqn:Hc.
  { repeat split; try (cbn; lia); auto; discriminate. }
  pose proof (make_request_cases net endpoint c) as H.
  destruct (_make_request net endpoint ∅ c) as [answer sent].
  destruct H as (Hlen & Hnokey & Hfail).
  destruct answer as [e|data]; cbn [and_then].
  - split; [reflexivity|]. split; [exact Hlen|]. split; [auto|].
    intros _. split.
    + intros Hk. destruct (Hnokey Hk) as [He ->]. injection He as ->. auto.
    + intros key text Hk Hne Hnet.
      pose proof (Hfail key text Hk Hne Hnet) as He. injection He as ->. auto.
  - assert (Hno : (api_key c = None \/ api_key c = Some "" -> False)
                  /\ (forall key text,
                        api_key c = Some key -> key <> "" ->
                        net (base_url ++ endpoint) (<["apiKey" := key]> ∅)
                        = Failure text -> False)).
    { split.
      - intros Hk. destruct (Hnokey Hk) as [He _]. discriminate.
      - intros key text Hk Hne Hnet.
        pose proof (Hfail key text Hk Hne Hnet). discriminate. }
    destruct Hno as [Hno1 Hno2].
    destruct (use data) as [e|[[value error] c']] eqn:Hu.
    + split; [reflexivity|]. split; [exact Hlen|]. split; [auto|].
      intros _. split; [intros Hk; destruct (Hno1 Hk)|].
      intros key text Hk Hne Hnet. destruct (Hno2 key text Hk Hne Hnet).
    + destruct (Huse _ _ _ Hu) as [->|[Herr ->]]; cbn in *.
      * split; [reflexivity|]. split; [exact Hlen|]. split; [auto|].
        intros _. split; [intros Hk; destruct (Hno1 Hk)|].
        intros key text Hk Hne Hnet. destruct (Hno2 key text Hk Hne Hnet).
      * subst error. split; [reflexivity|]. split; [exact Hlen|].
        split; [auto|].
        intros _. split; [intros Hk; destruct (Hno1 Hk)|].
        intros key text Hk Hne Hnet. destruct (Hno2 key text Hk Hne Hnet).
Qed.

Ltac split_and_then :=
  repeat match goal with
         | H : and_then ?m _ = inr _ |- _ =>
             destruct m eqn:?; cbn [and_then] in H; [discriminate|]
         | H : (if ?b then _ else _) = inr _ |- _ => destruct b eqn:?
         | H : match ?l with [] => _ | _ :: _ => _ end = inr _ |- _ =>
             destruct l eqn:?
         end.

Lemma get_current_price_frame (interp : raised -> string) (net : network)
    (ticker : string) (now stored_at : Q) (c : Client) :
  exists use,
    get_current_price interp net ticker now stored_at c
    = cached_or_fetched interp net ("price_" ++ ticker)
        ("/v2/aggs/ticker/" ++ ticker ++ "/prev") 600 now c use
    /\ forall data r c', use data = inr (r, c') ->
         c' = c
         \/ (r.2 = "" /\ c' = store ("price_" ++ ticker) r.1 stored_at c).
Proof.
  eexists. split; [unfold get_current_price, cached_or_fetched; reflexivity|].
  intros data r c' H. cbv beta in H. split_and_then;
    injection H as <- <-;
    first [left; reflexivity | right; split; reflexivity].
Qed.

Lemma get_next_earnings_date_frame (interp : raised -> string)
    (sort : list (json * json) -> raised + list (json * json))
    (net : network) (ticker : string) (now stored_at : Q) (c : Client) :
  exists use,
    get_next_earnings_date interp sort net ticker now stored_at c
    = cached_or_fetched interp net ("earnings_" ++ ticker)
        ("/v3/reference/tickers/" ++ ticker ++ "/events") 86400 now c use
    /\ forall data r c', use data = inr (r, c') ->
         c' = c
         \/ (r.2 = "" /\ c' = store ("earnings_" ++ ticker) r.1 stored_at c).
Proof.
  eexists. split;
    [unfold get_next_earnings_date, cached_or_fetched; reflexivity|].
  intros data r c' H. cbv beta zeta in H. split_and_then;
    injection H as <- <-;
    first [left; reflexivity | right; split; reflexivity].
Qed.

(** X18.  Whatever the service answers,
    [get_current_price] and [get_next_earnings_date] return a pair and
    never change the API key, never send more than one request, and
    change the cache in one way only: by storing, under the ticker, the
    value they return with an empty error text.  Without a fresh entry,
    a missing or empty API key gives [(None, 'API key not set')] with no
    request sent, and a failing request gives [(None, 'Error fetching
    data from Polygon.io: ...')]; in both cases the client stays as it
    was. *)
Theorem getters_never_cache_failures (interp : raised -> string)
    (sort : list (json * json) -> raised + list (json * json))
    (net : network) (ticker : string) (now stored_at : Q) (c : Client) :
  (let '((price, error), sent, c') :=
     get_current_price interp net ticker now stored_at c in
   api_key c' = api_key c
   /\ (length sent <= 1)%nat
   /\ (c' = c
       \/ (error = "" /\ c' = store ("price_" ++ ticker) price stored_at c))
   /\ (cached ("price_" ++ ticker) now 600 c = None ->
       (api_key c = None \/ api_key c = Some "" ->
        (price, error) = (JNull, "API key not set") /\ sent = [] /\ c' = c)
       /\ (forall key text,
             api_key c = Some key -> key <> "" ->
             net (base_url ++ "/v2/aggs/ticker/" ++ ticker ++ "/prev")
                 (<["apiKey" := key]> ∅) = Failure text ->
             (price, error)
             = (JNull, "Error fetching data from Polygon.io: " ++ text)
             /\ c' = c)))
  /\ (let '((date, error), sent, c') :=
        get_next_earnings_date interp sort net ticker now stored_at c in
      api_key c' = api_key c
      /\ (length sent <= 1)%nat
      /\ (c' = c
          \/ (error = ""
              /\ c' = store ("earnings_" ++ ticker) date stored_at c))
      /\ (cached ("earnings_" ++ ticker) now 86400 c = None ->
          (api_key c = None \/ api_key c = Some "" ->
           (date, error) = (JNull, "API key not set") /\ sent = [] /\ c' = c)
          /\ (forall key text,
                api_key c = Some key -> key <> "" ->
                net (base_url ++ "/v3/reference/tickers/" ++ ticker ++ "/events")
                    (<["apiKey" := key]> ∅) = Failure text ->
                (date, error)
                = (JNull, "Error fetching data from Polygon.io: " ++ text)
                /\ c' = c))).
Proof.
  split.
  - destruct (get_current_price_frame interp net ticker now stored_at c)
      as (use & -> & Huse).
    exact (cached_or_fetched_cases interp net _ _ 600 now stored_at c use Huse).
  - destruct (get_next_earnings_date_frame interp sort net ticker now
                stored_at c) as (use & -> & Huse).
    exact (cached_or_fetched_cases interp net _ _ 86400 now stored_at c use Huse).
Qed.

Lemma earnings_only_objects (events : list json) :
  Forall is_object events ->
  earnings_only events = inr (List.filter is_earnings events).
Proof.
  induction 1 as [|event events Hobj _ IH]; [reflexivity|].
  destruct event; try discriminate. cbn [earnings_only get and_then].
  rewrite IH. cbn [and_then List.filter is_earnings].
  destruct (fields !! "type") as [type|]; cbn [from_option id];
    [destruct (is_text "earnings" type)|]; reflexivity.
Qed.

Lemma with_date_keys_objects (events : list json) :
  Forall is_object events ->
  with_date_keys events = inr ((fun event => (date_key event, event)) <$> events).
Proof.
  induction 1 as [|event events Hobj _ IH]; [reflexivity|].
  destruct event; try discriminate. cbn [with_date_keys get and_then].
  rewrite IH. reflexivity.
Qed.

Lemma filter_objects (f : json -> bool) (events : list json) :
  Forall is_object events -> Forall is_object (List.filter f events).
Proof. apply Forall_list_filter. Qed.

Lemma elem_of_list_filter {A : Type} (f : A -> bool) (l : list A) (x : A) :
  x ∈ List.filter f l <-> x ∈ l /\ f x = true.
Proof. rewrite !list_elem_of_In. apply filter_In. Qed.

Lemma earnings_dates_elem (events : list json) (d : string) :
  d ∈ earnings_dates events <->
  exists event, event ∈ events /\ is_earnings event = true
                /\ date_of event = Some (JStr d).
Proof.
  unfold earnings_dates. rewrite list_elem_of_omap. split.
  - intros (event & Hin & H). exists event. split; [exact Hin|].
    destruct (is_earnings event); [|discriminate].
    destruct (date_of event) as [[]|]; try discriminate.
    injection H as ->. auto.
  - intros (event & Hin & He & Hd). exists event. split; [exact Hin|].
    rewrite He, Hd. reflexivity.
Qed.

Lemma string_leb_empty (s : string) : String.leb s "" = true -> s = "".
Proof. destruct s; [reflexivity | discriminate]. Qed.

Lemma results_truthy (results : gmap string json) (events : json) :
  results !! "events" = Some events -> truthy (JObj results) = true.
Proof.
  intros has_events. cbn. apply negb_true_iff, Nat.eqb_neq. intros Hsize.
  apply map_size_empty_inv in Hsize. rewrite Hsize in has_events.
  rewrite lookup_empty in has_events. discriminate.
Qed.

(** The call up to the sort, on an answer of the documented shape. *)
Lemma earnings_call_unfolded (interp : raised -> string)
    (sort : list (json * json) -> raised + list (json * json))
    (net : network) (ticker key : string) (now stored_at : Q) (c : Client)
    (data results : gmap string json) (events : list json) :
  api_key c = Some key -> key <> "" ->
  cached ("earnings_" ++ ticker) now 86400 c = None ->
  net (base_url ++ "/v3/reference/tickers/" ++ ticker ++ "/events")
      (<["apiKey" := key]> ∅) = Answer (JObj data) ->
  data !! "results" = Some (JObj results) ->
  results !! "events" = Some (JArr events) ->
  Forall is_object events ->
  get_next_earnings_date interp sort net ticker now stored_at c
  = match
      (if List.filter is_earnings events is [] then
         inr ((JNull, "No upcoming earnings found."), c)
       else
         let? sorted :=
           sort ((fun event => (date_key event, event))
                   <$> List.filter is_earnings events) in
         let? first :=
           match sorted with
           | (_, event) :: _ => inr event
           | [] => inl RIndexError
           end in
         let? next_earnings := getitem first "date" in
         inr ((next_earnings, ""),
              store ("earnings_" ++ ticker) next_earnings stored_at c))
    with
    | inr (returned, c') =>
        (returned,
         [(base_url ++ "/v3/reference/tickers/" ++ ticker ++ "/events",
           <["apiKey" := key]> ∅)], c')
    | inl e =>
        ((JNull, str interp e),
         [(base_url ++ "/v3/reference/tickers/" ++ ticker ++ "/events",
           <["apiKey" := key]> ∅)], c)
    end.
Proof.
  intros key_set key_not_empty not_cached answered has_results has_events
    objects.
  unfold get_next_earnings_date. cbv zeta. rewrite not_cached.
  rewrite (make_request_answer net _ key (JObj data) c key_set key_not_empty
             answered).
  cbv [get getitem contains from_option id]. cbn [and_then].
  rewrite !has_results. cbn [and_then].
  rewrite (results_truthy results _ has_events).
  cbn [negb and_then]. rewrite !has_events. cbn [and_then iterate].
  rewrite (earnings_only_objects events objects). cbn [and_then].
  destruct (List.filter is_earnings events) as [|e l] eqn:E; [reflexivity|].
  rewrite (with_date_keys_objects (e :: l)).
  - reflexivity.
  - rewrite <- E. apply filter_objects, objects.
Qed.

Lemma string_leb_refl (s : string) : String.leb s s = true.
Proof. destruct (String.leb_total s s); assumption. Qed.

Lemma getitem_date (event : json) (d : json) :
  date_of event = Some d -> getitem event "date" = inr d.
Proof.
  destruct event; try discriminate. cbn. intros ->. reflexivity.
Qed.

Lemma getitem_no_date (event : json) :
  is_object event -> date_of event = None ->
  getitem event "date" = inl (RKeyError (JStr "date")).
Proof.
  destruct event; try discriminate. cbn. intros _ ->. reflexivity.
Qed.

Lemma keyed_elem (k event : json) (l : list json) :
  (k, event) ∈ (fun event => (date_key event, event)) <$> l <->
  event ∈ l /\ k = date_key event.
Proof.
  rewrite list_elem_of_fmap. split.
  - intros (e & H & Hin). injection H as -> ->. auto.
  - intros [Hin ->]. exists event. auto.
Qed.

(** The head of what [list.sort] returns, with the keys it precedes. *)
Lemma sorted_head (sort : list (json * json) -> raised + list (json * json))
    (first : json) (rest : list json) (keys : json -> json) :
  sorts_text_keys sort ->
  Forall (fun event => exists s, keys event = JStr s) (first :: rest) ->
  exists k event tl,
    sort ((fun event => (keys event, event)) <$> first :: rest)
    = inr ((k, event) :: tl)
    /\ event ∈ first :: rest /\ k = keys event
    /\ forall other, other ∈ first :: rest ->
         String.leb (text_of k) (text_of (keys other)) = true.
Proof.
  intros Hsort Htext.
  destruct (Hsort ((fun event => (keys event, event)) <$> first :: rest))
    as (l' & Hl' & Hperm & Hsorted).
  { apply Forall_fmap. eapply Forall_impl; [exact Htext|].
    intros e [s Hs]. exists s. exact Hs. }
  destruct l' as [|[k event] tl].
  { symmetry in Hperm. apply Permutation_nil_r in Hperm. discriminate. }
  exists k, event, tl. split; [exact Hl'|].
  assert (Hhead : (k, event) ∈ (fun event => (keys event, event)) <$> first :: rest)
    by (rewrite <- Hperm; left).
  apply list_elem_of_fmap in Hhead as (e & Heq & Hin). injection Heq as -> ->.
  split; [exact Hin|]. split; [reflexivity|].
  intros other Hother.
  assert (Hin' : (keys other, other) ∈ (keys e, e) :: tl).
  { rewrite Hperm. apply list_elem_of_fmap. exists other. auto. }
  apply StronglySorted_cons in Hsorted as [Hle _].
  apply elem_of_cons in Hin' as [Heq|Hin'].
  - injection Heq as -> ->. apply string_leb_refl.
  - rewrite Forall_forall in Hle. exact (Hle _ Hin').
Qed.

(** X19.  When the events endpoint
    answers [{results: {events: [...]}}] with every event an object and
    every event of type 'earnings' carrying a text [date], and
    [list.sort] sorts text keys, then [get_next_earnings_date] (key set,
    nothing fresh in the cache) sends one request and returns the
    smallest of the earnings dates in text order, with an empty error
    text, and caches it; without an earnings event it returns [(None,
    'No upcoming earnings found.')] and caches nothing.  The date is not
    compared with the current day. *)
Theorem earliest_earnings_date_is_returned (interp : raised -> string)
    (sort : list (json * json) -> raised + list (json * json))
    (net : network) (ticker key : string) (now stored_at : Q) (c : Client)
    (data results : gmap string json) (events : list json) :
  sorts_text_keys sort ->
  api_key c = Some key -> key <> "" ->
  cached ("earnings_" ++ ticker) now 86400 c = None ->
  net (base_url ++ "/v3/reference/tickers/" ++ ticker ++ "/events")
      (<["apiKey" := key]> ∅) = Answer (JObj data) ->
  data !! "results" = Some (JObj results) ->
  results !! "events" = Some (JArr events) ->
  Forall is_object events ->
  Forall dated_if_earnings events ->
  let sent :=
    [(base_url ++ "/v3/reference/tickers/" ++ ticker ++ "/events",
      <["apiKey" := key]> ∅)] in
  let call := get_next_earnings_date interp sort net ticker now stored_at c in
  match earnings_dates events with
  | [] => call = ((JNull, "No upcoming earnings found."), sent, c)
  | _ :: _ =>
      exists date,
        date ∈ earnings_dates events
        /\ (forall other, other ∈ earnings_dates events ->
              String.leb date other = true)
        /\ call
           = ((JStr date, ""), sent,
              store ("earnings_" ++ ticker) (JStr date) stored_at c)
  end.
Proof.
  intros Hsort Hkey Hne Hmiss Hnet Hres Hev Hobj Hdated sent call.
  subst call.
  rewrite (earnings_call_unfolded interp sort net ticker key now stored_at c
             data results events Hkey Hne Hmiss Hnet Hres Hev Hobj).
  assert (Hdates : forall event,
            event ∈ List.filter is_earnings events ->
            exists d, date_of event = Some (JStr d) /\ d ∈ earnings_dates events).
  { intros event Hin. apply elem_of_list_filter in Hin as [Hin He].
    rewrite Forall_forall in Hdated. destruct (Hdated event Hin He) as [d Hd].
    exists d. split; [exact Hd|]. apply earnings_dates_elem. eauto. }
  destruct (List.filter is_earnings events) as [|first rest] eqn:E.
  - destruct (earnings_dates events) as [|d l] eqn:Ed; [reflexivity|].
    assert (Hd : d ∈ earnings_dates events) by (rewrite Ed; left).
    apply earnings_dates_elem in Hd as (event & Hin & He & _).
    assert (Hf : event ∈ List.filter is_earnings events)
      by (apply elem_of_list_filter; auto).
    rewrite E in Hf. apply elem_of_nil in Hf. contradiction.
  - destruct (sorted_head sort first rest date_key Hsort)
      as (k & event & tl & -> & Hin & -> & Hmin).
    { apply Forall_forall. intros e He. destruct (Hdates e He) as (d & Hd & _).
      exists d. unfold date_key. rewrite Hd. reflexivity. }
    destruct (Hdates event Hin) as (d & Hd & Hdin).
    cbn [and_then]. rewrite (getitem_date event _ Hd). cbn [and_then].
    destruct (earnings_dates events) as [|d0 l] eqn:Ed.
    { apply elem_of_nil in Hdin. contradiction. }
    exists d. split; [exact Hdin|]. split; [|reflexivity].
    intros other Hother. rewrite <- Ed in Hother.
    apply earnings_dates_elem in Hother as (e' & Hin' & He' & Hd').
    assert (Hf : e' ∈ first :: rest)
      by (rewrite <- E; apply elem_of_list_filter; auto).
    specialize (Hmin e' Hf). unfold date_key in Hmin.
    rewrite Hd, Hd' in Hmin. exact Hmin.
Qed.

(** X20.  On an answer of the
    same shape in which the dates of earnings events are non-empty texts
    but one earnings event has no [date] field, [get_next_earnings_date]
    returns [(None, "'date'")] and caches nothing, however many dated
    earnings events there are: the event without a date sorts first
    under the key [''] and reading its date raises the [KeyError] that
    the method turns into its error text. *)
Theorem undated_earnings_event_hides_the_dates (interp : raised -> string)
    (sort : list (json * json) -> raised + list (json * json))
    (net : network) (ticker key : string) (now stored_at : Q) (c : Client)
    (data results : gmap string json) (events : list json) :
  sorts_text_keys sort ->
  api_key c = Some key -> key <> "" ->
  cached ("earnings_" ++ ticker) now 86400 c = None ->
  net (base_url ++ "/v3/reference/tickers/" ++ ticker ++ "/events")
      (<["apiKey" := key]> ∅) = Answer (JObj data) ->
  data !! "results" = Some (JObj results) ->
  results !! "events" = Some (JArr events) ->
  Forall is_object events ->
  Forall dated_or_undated events ->
  Exists undated_earnings events ->
  get_next_earnings_date interp sort net ticker now stored_at c
  = ((JNull, "'date'"),
     [(base_url ++ "/v3/reference/tickers/" ++ ticker ++ "/events",
       <["apiKey" := key]> ∅)], c).
Proof.
  intros Hsort Hkey Hne Hmiss Hnet Hres Hev Hobj Hdated Hundated.
  rewrite (earnings_call_unfolded interp sort net ticker key now stored_at c
             data results events Hkey Hne Hmiss Hnet Hres Hev Hobj).
  apply Exists_exists in Hundated as (u & Hu & Hue & Hud).
  assert (Huf : u ∈ List.filter is_earnings events)
    by (apply elem_of_list_filter; auto).
  rewrite Forall_forall in Hdated.
  destruct (List.filter is_earnings events) as [|first rest] eqn:E.
  { apply elem_of_nil in Huf. contradiction. }
  assert (Hel : forall e, e ∈ first :: rest ->
                  e ∈ events /\ is_earnings e = true).
  { intros e He. rewrite <- E in He. apply elem_of_list_filter in He. exact He. }
  destruct (sorted_head sort first rest date_key Hsort)
    as (k & event & tl & -> & Hin & -> & Hmin).
  { apply Forall_forall. intros e He. destruct (Hel e He) as [Hine Hee].
    unfold date_key.
    destruct (Hdated e Hine Hee) as [->|(d & -> & _)]; cbn; eauto. }
  cbn [and_then].
  specialize (Hmin u Huf). unfold date_key in Hmin at 2. rewrite Hud in Hmin.
  cbn in Hmin. apply string_leb_empty in Hmin.
  destruct (Hel event Hin) as [Hine Hee].
  assert (Hnone : date_of event = None).
  { destruct (Hdated event Hine Hee) as [H|(d & Hd & Hnonempty)]; [exact H|].
    unfold date_key in Hmin. rewrite Hd in Hmin. cbn in Hmin. congruence. }
  rewrite (getitem_no_date event); [reflexivity | | exact Hnone].
  rewrite Forall_forall in Hobj. apply Hobj, Hine.
Qed.

#[local] Instance key_le_trans : Transitive key_le.
Proof.
  intros a b c Hab Hbc. unfold key_le in *.
  eapply string_leb_trans; eassumption.
Qed.

#[local] Instance key_le_total : Total key_le.
Proof. intros a b. unfold key_le. apply String.leb_total. Qed.

Lemma sort_text_keys_sorts : sorts_text_keys sort_text_keys.
Proof.
  intros l _. exists (merge_sort key_le l). split; [reflexivity|]. split.
  - apply merge_sort_Permutation.
  - apply StronglySorted_merge_sort; apply _.
Qed.

Lemma demo_key_not_empty : "demo" <> "".
Proof. discriminate. Qed.

Lemma fetched_price_is_reused_witness :
  get_current_price plain_text price_service "SPY" 0 1 demo_client
  = ((JNum (Fin 101), ""),
     [("https://api.polygon.io/v2/aggs/ticker/SPY/prev", <["apiKey" := "demo"]> ∅)],
     store "price_SPY" (JNum (Fin 101)) 1 demo_client)
  /\ get_current_price plain_text dead_service "SPY" 600 601
       (store "price_SPY" (JNum (Fin 101)) 1 demo_client)
     = ((JNum (Fin 101), ""), [],
        store "price_SPY" (JNum (Fin 101)) 1 demo_client)
  /\ (get_current_price plain_text dead_service "SPY" 601 602
        (store "price_SPY" (JNum (Fin 101)) 1 demo_client)).1.2
     = [("https://api.polygon.io/v2/aggs/ticker/SPY/prev",
         <["apiKey" := "demo"]> ∅)].
Proof.
  pose proof (fun later later' =>
    fetched_price_is_reused plain_text price_service dead_service "SPY" "demo"
      "other" (<["results" := JArr [JObj (<["c" := JNum (Fin 101)]> ∅)]]> ∅)
      (<["c" := JNum (Fin 101)]> ∅) [] (JNum (Fin 101)) 0 1 later later'
      demo_client eq_refl demo_key_not_empty eq_refl eq_refl eq_refl eq_refl)
    as H.
  cbv zeta in H.
  split; [|split].
  - exact (proj1 (H 0%Q 0%Q)).
  - destruct (H 600%Q 601%Q) as (_ & Hfresh & _).
    apply Hfresh. reflexivity.
  - destruct (H 601%Q 602%Q) as (_ & _ & Hstale & _).
    apply Hstale. discriminate.
Defined.

Lemma getters_never_cache_failures_witness :
  get_current_price plain_text dead_service "SPY" 0 1 demo_client
  = ((JNull, "Error fetching data from Polygon.io: timed out"),
     [("https://api.polygon.io/v2/aggs/ticker/SPY/prev", <["apiKey" := "demo"]> ∅)],
     demo_client)
  /\ get_next_earnings_date plain_text sort_text_keys price_service "SPY" 0 1
       new_client
     = ((JNull, "API key not set"), [], new_client).
Proof.
  split.
  - pose proof (getters_never_cache_failures plain_text sort_text_keys
                  dead_service "SPY" 0 1 demo_client) as [H _].
    destruct (get_current_price plain_text dead_service "SPY" 0 1 demo_client)
      as [[[price error] sent] c'] eqn:E.
    destruct H as (_ & _ & _ & H). destruct (H eq_refl) as [_ Hfail].
    destruct (Hfail "demo" "timed out" eq_refl demo_key_not_empty eq_refl)
      as [Hr ->].
    injection Hr as -> ->.
    assert (Hs : sent
                 = [("https://api.polygon.io/v2/aggs/ticker/SPY/prev",
                     <["apiKey" := "demo"]> ∅)])
      by (apply (f_equal (fun r => r.1.2)) in E; symmetry; exact E).
    rewrite Hs. reflexivity.
  - pose proof (getters_never_cache_failures plain_text sort_text_keys
                  price_service "SPY" 0 1 new_client) as [_ H].
    destruct (get_next_earnings_date plain_text sort_text_keys price_service
                "SPY" 0 1 new_client) as [[[date error] sent] c'].
    destruct H as (_ & _ & _ & H). destruct (H eq_refl) as [Hnokey _].
    destruct (Hnokey (or_introl eq_refl)) as (Hr & -> & ->).
    injection Hr as -> ->. reflexivity.
Defined.

Lemma two_earnings_objects : Forall is_object two_earnings.
Proof. repeat constructor. Qed.

Lemma earliest_earnings_date_is_returned_witness :
  get_next_earnings_date plain_text sort_text_keys (events_service two_earnings)
    "SPY" 0 1 demo_client
  = ((JStr "2024-05-02", ""),
     [("https://api.polygon.io/v3/reference/tickers/SPY/events",
       <["apiKey" := "demo"]> ∅)],
     store "earnings_SPY" (JStr "2024-05-02") 1 demo_client).
Proof.
  assert (Hdated : Forall dated_if_earnings two_earnings).
  { (repeat apply Forall_cons_2); [| | |constructor].
    - intros _. eexists. vm_compute. reflexivity.
    - intros H. vm_compute in H. discriminate.
    - intros _. eexists. vm_compute. reflexivity. }
  pose proof (earliest_earnings_date_is_returned plain_text sort_text_keys
                (events_service two_earnings) "SPY" "demo" 0 1 demo_client
                (<["results" := JObj (<["events" := JArr two_earnings]> ∅)]> ∅)
                (<["events" := JArr two_earnings]> ∅) two_earnings
                sort_text_keys_sorts eq_refl demo_key_not_empty eq_refl eq_refl
                eq_refl eq_refl two_earnings_objects Hdated) as H.
  cbv zeta in H.
  change (earnings_dates two_earnings) with ["2024-08-01"; "2024-05-02"] in H.
  cbv iota in H. destruct H as (date & Hin & Hmin & ->).
  assert (Hdate : date = "2024-05-02").
  { apply elem_of_cons in Hin as [->|Hin].
    - specialize (Hmin "2024-05-02"). discriminate Hmin. right. left.
    - apply list_elem_of_singleton in Hin. exact Hin. }
  rewrite Hdate. reflexivity.
Defined.

Lemma undated_earnings_event_hides_the_dates_witness :
  get_next_earnings_date plain_text sort_text_keys
    (events_service (two_earnings ++ [undated_event])%list) "SPY" 0 1 demo_client
  = ((JNull, "'date'"),
     [("https://api.polygon.io/v3/reference/tickers/SPY/events",
       <["apiKey" := "demo"]> ∅)],
     demo_client).
Proof.
  apply (undated_earnings_event_hides_the_dates plain_text sort_text_keys
           (events_service (two_earnings ++ [undated_event])%list) "SPY" "demo"
           0 1 demo_client
           (<["results" :=
                JObj (<["events" := JArr (two_earnings ++ [undated_event])%list]> ∅)]> ∅)
           (<["events" := JArr (two_earnings ++ [undated_event])%list]> ∅)
           (two_earnings ++ [undated_event])%list
           sort_text_keys_sorts eq_refl demo_key_not_empty eq_refl eq_refl
           eq_refl eq_refl).
  - repeat constructor.
  - (repeat apply Forall_cons_2); [| | | |constructor].
    + intros _. right. eexists. split; [vm_compute; reflexivity | discriminate].
    + intros H. vm_compute in H. discriminate.
    + intros _. right. eexists. split; [vm_compute; reflexivity | discriminate].
    + intros _. left. reflexivity.
  - apply Exists_exists. exists undated_event. split.
    + cbn. set_solver.
    + split; reflexivity.
Defined.

(** ** The detail page *)

Lemma find_ticker_unique (item : WatchItem) (watchlist : list WatchItem) :
  NoDup (item_ticker <$> watchlist) -> item ∈ watchlist ->
  find_ticker (item_ticker item) watchlist = Some item.
Proof.
  unfold find_ticker.
  induction watchlist as [|x l IH]; intros Hnd Hin.
  - apply elem_of_nil in Hin. contradiction.
  - simpl in Hnd. apply NoDup_cons in Hnd as [Hx Hnd].
    apply elem_of_cons in Hin as [->|Hin].
    + simpl. rewrite String.eqb_refl. reflexivity.
    + simpl. destruct (String.eqb_spec (item_ticker x) (item_ticker item)) as [E|E].
      * exfalso. apply Hx. rewrite E.
        apply list_elem_of_fmap. exists item. split; [reflexivity | exact Hin].
      * apply IH; assumption.
Qed.

Lemma find_ticker_Some (ticker : string) (watchlist : list WatchItem)
    (item : WatchItem) :
  find_ticker ticker watchlist = Some item ->
  item ∈ watchlist /\ item_ticker item = ticker.
Proof.
  intros H. apply find_elem_of in H as [Hin Heq].
  split; [exact Hin | apply String.eqb_eq, Heq].
Qed.

(** X21.  With a key in the session
    and a table that meets the schema constraints and stores upper-cased
    tickers, [ticker_detail] looks the ticker up as it is written in the
    URL: a spelling that is not its own upper-casing is answered with
    'Ticker not found in watchlist.' and no request, also when
    [get_ticker_info] finds the ticker under that spelling; a spelling
    that is, and that [get_ticker_info] finds, gets the detail page with
    that entry, the price [get_current_price] returns for the session's
    key and, for a Stock only, the date [get_next_earnings_date]
    returns (None otherwise, with no request for it). *)
Theorem ticker_detail_needs_stored_spelling
    (upper : string -> string)
    (order : list WatchRow -> list WatchRow)
    (interp : PolygonAPIClient.raised -> string)
    (sort : list (PolygonAPIClient.json * PolygonAPIClient.json) ->
            PolygonAPIClient.raised
            + list (PolygonAPIClient.json * PolygonAPIClient.json))
    (net : PolygonAPIClient.network) (api_key ticker : string)
    (price_times earnings_times : Q * Q)
    (t : WatchTable) (client : PolygonAPIClient.Client) :
  orders_newest_first order -> table_ok t -> tickers_upper upper (Some t) ->
  api_key <> "" ->
  let page :=
    ticker_detail order interp sort net (Some api_key) ticker price_times
      earnings_times (Some t) client in
  let keyed := PolygonAPIClient.set_api_key api_key client in
  let price :=
    PolygonAPIClient.get_current_price interp net ticker price_times.1
      price_times.2 keyed in
  let earnings :=
    PolygonAPIClient.get_next_earnings_date interp sort net ticker
      earnings_times.1 earnings_times.2 price.2 in
  (upper ticker <> ticker ->
     page
     = (RedirectToIndex [("Ticker not found in watchlist.", "error")], [], [],
        client))
  /\ (forall item,
        upper ticker = ticker ->
        (get_ticker_info upper ticker (Some t)).1 = Some item ->
        page
        = if String.eqb (item_asset_type item) "Stock" then
            (RenderDetail ticker item price.1.1.1 earnings.1.1.1, [],
             (price.1.2 ++ earnings.1.2)%list, earnings.2)
          else
            (RenderDetail ticker item price.1.1.1 PolygonAPIClient.JNull, [],
             price.1.2, price.2))
  /\ ((get_ticker_info upper ticker (Some t)).1 = None ->
      page
      = (RedirectToIndex [("Ticker not found in watchlist.", "error")], [], [],
         client)).
Proof.
  intros Horder Hok Hup Hkey page keyed price earnings.
  pose proof (watchlist_tickers_unique order t Horder Hok) as Hnd.
  pose proof (fun item =>
                watchlist_lists_what_is_found upper order t item Horder Hok Hup)
    as Hiff.
  assert (Hmiss : find_ticker ticker (get_watchlist order (Some t)).1 = None ->
                  page
                  = (RedirectToIndex
                       [("Ticker not found in watchlist.", "error")], [], [],
                     client)).
  { intros Hnone. subst page. unfold ticker_detail.
    apply String.eqb_neq in Hkey. rewrite Hkey.
    destruct (get_watchlist order (Some t)) as [watchlist printed] eqn:E.
    cbn [fst] in Hnone. rewrite Hnone.
    unfold get_watchlist in E. injection E as _ <-. reflexivity. }
  split; [|split].
  - intros Hspelling. apply Hmiss.
    destruct (find_ticker ticker (get_watchlist order (Some t)).1)
      as [item|] eqn:E; [|reflexivity].
    apply find_ticker_Some in E as [Hin Heq].
    apply Hiff in Hin. cbn in Hin.
    destruct (List.find (ticker_is (upper (item_ticker item))) (table_rows t))
      as [r|] eqn:Er; [|discriminate].
    cbn in Hin. injection Hin as <-.
    apply find_elem_of in Er as [Hr _].
    cbn in Hup. rewrite Forall_forall in Hup. specialize (Hup r Hr).
    cbn in Heq. congruence.
  - intros item Hspelling Hfound.
    assert (Hitem : item_ticker item = ticker).
    { cbn in Hfound.
      destruct (List.find (ticker_is (upper ticker)) (table_rows t))
        as [r|] eqn:Er; [|discriminate].
      cbn in Hfound. injection Hfound as <-.
      apply find_elem_of in Er as [_ Hr]. apply ticker_is_eq in Hr.
      cbn. congruence. }
    assert (Hin : item ∈ (get_watchlist order (Some t)).1).
    { apply Hiff. rewrite Hitem. exact Hfound. }
    pose proof (find_ticker_unique item _ Hnd Hin) as Hfind.
    rewrite Hitem in Hfind.
    subst page. unfold ticker_detail.
    apply String.eqb_neq in Hkey. rewrite Hkey.
    destruct (get_watchlist order (Some t)) as [watchlist printed] eqn:E.
    cbn [fst] in Hfind. rewrite Hfind.
    unfold get_watchlist in E. injection E as _ <-.
    fold keyed. fold price.
    destruct price as [[[current_price price_error] price_sent] c1] eqn:Ep.
    destruct (String.eqb (item_asset_type item) "Stock"); [|reflexivity].
    cbn [fst snd] in earnings. fold earnings.
    destruct earnings as [[[earnings_date e_error] earnings_sent] c2].
    reflexivity.
  - intros Hnone. apply Hmiss.
    destruct (find_ticker ticker (get_watchlist order (Some t)).1)
      as [item|] eqn:E; [|reflexivity].
    apply find_ticker_Some in E as [Hin Heq].
    apply Hiff in Hin. rewrite Heq in Hin. congruence.
Qed.

Lemma ticker_detail_needs_stored_spelling_witness :
  ticker_detail sort_newest_first PolygonAPIClient.plain_text
    PolygonAPIClient.sort_text_keys PolygonAPIClient.price_service
    (Some "demo") "spy" (0%Q, 1%Q) (2%Q, 3%Q) (Some two_tickers)
    PolygonAPIClient.new_client
  = (RedirectToIndex [("Ticker not found in watchlist.", "error")], [], [],
     PolygonAPIClient.new_client)
  /\ (get_ticker_info ascii_upper "spy" (Some two_tickers)).1
     = Some (item_of spy)
  /\ ticker_detail sort_newest_first PolygonAPIClient.plain_text
       PolygonAPIClient.sort_text_keys PolygonAPIClient.price_service
       (Some "demo") "SPY" (0%Q, 1%Q) (2%Q, 3%Q) (Some two_tickers)
       PolygonAPIClient.new_client
     = (RenderDetail "SPY" (item_of spy)
          (PolygonAPIClient.JNum (Fin 101)) PolygonAPIClient.JNull,
        [],
        [("https://api.polygon.io/v2/aggs/ticker/SPY/prev",
          <["apiKey" := "demo"]> ∅)],
        PolygonAPIClient.store "price_SPY" (PolygonAPIClient.JNum (Fin 101)) 1
          PolygonAPIClient.demo_client).
Proof.
  pose proof (fun ticker =>
    ticker_detail_needs_stored_spelling ascii_upper sort_newest_first
      PolygonAPIClient.plain_text PolygonAPIClient.sort_text_keys
      PolygonAPIClient.price_service "demo" ticker (0%Q, 1%Q) (2%Q, 3%Q) two_tickers
      PolygonAPIClient.new_client sort_newest_first_orders two_tickers_ok
      two_tickers_upper demo_key_not_empty) as H.
  cbv zeta in H.
  split; [|split].
  - destruct (H "spy") as (Hmiss & _ & _).
    apply Hmiss. vm_compute. discriminate.
  - reflexivity.
  - destruct (H "SPY") as (_ & Hfound & _).
    rewrite (Hfound (item_of spy) eq_refl eq_refl). vm_compute. reflexivity.
Defined.

(** ** The cached bar table and the analysis pass *)

Lemma make_request_with_params (net : network) (endpoint key : string)
    (params : gmap string string) (body : json) (c : Client) :
  api_key c = Some key -> key <> "" ->
  net (base_url ++ endpoint) (<["apiKey" := key]> params) = Answer body ->
  _make_request net endpoint params c
  = (inr body, [(base_url ++ endpoint, <["apiKey" := key]> params)]).
Proof.
  intros Hkey Hne Hnet. unfold _make_request. rewrite Hkey.
  apply String.eqb_neq in Hne. rewrite Hne. cbv zeta. rewrite Hnet. reflexivity.
Qed.

Lemma cached_frame_store_same (key : string) (l : ref) (t later ttl : Q)
    (c : Client) :
  cached_frame key later ttl (store_frame key l t c)
  = if Qlt_bool (later - t) ttl then Some l else None.
Proof.
  unfold cached_frame, store_frame. cbn. rewrite lookup_insert_eq. reflexivity.
Qed.

(** X22.  [get_weekly_data] caches
    the table object it returns, and the analysis pass writes into that
    object.  After a fetch that builds a non-empty table [F] (key set,
    nothing fresh cached, an answer with truthy [results]) and an
    [analyze_ticker] with that table as long series and the RSI
    criterion on, a [get_weekly_data] within the hour sends no request
    and returns the same object, which by then is [F] with the column
    [RSI] set to [calculate_rsi(F)]; every other table is as the fetch
    left it. *)
Theorem cached_weekly_frame_gets_rsi_column (ADXIndicator : ta_library)
    (interp : raised -> string) (frame_of_results : json -> raised + DataFrame)
    (net net' : network)
    (ticker asset_type today one_year_ago today' one_year_ago' key : string)
    (now stored_at later later' : Q) (c : Client) (h : gmap ref DataFrame)
    (data : gmap string json) (results : json) (F : DataFrame)
    (daily_df : ref) (current_price : option float)
    (criteria : gmap string bool) (api_client : ApiClient) :
  api_key c = Some key -> key <> "" ->
  cached_frame ("weekly_" ++ ticker) now 3600 c = None ->
  net (base_url ++ "/v2/aggs/ticker/" ++ ticker ++ "/range/1/week/"
       ++ one_year_ago ++ "/" ++ today)
      (<["apiKey" := key]> (<["sort" := "asc"]> (<["limit" := "5000"]> ∅)))
  = Answer (JObj data) ->
  data !! "results" = Some results -> truthy results = true ->
  frame_of_results results = inr F ->
  df_empty F = false ->
  criterion criteria "rsi_confirmation" = true ->
  (later - stored_at < 3600)%Q ->
  let '((df, error), sent, c1, h1) :=
    get_weekly_data interp frame_of_results net ticker today one_year_ago now
      stored_at c h in
  let h2 :=
    (analyze_ticker ADXIndicator ticker asset_type df daily_df current_price
       criteria api_client h1).2 in
  error = "" /\ h !! df = None /\ h1 = <[df := F]> h
  /\ get_weekly_data interp frame_of_results net' ticker today' one_year_ago'
       later later' c1 h2
     = ((df, ""), [], c1, h2)
  /\ (exists rsi,
        calculate_rsi F 14 = Ok rsi
        /\ h2 !! df = Some (setitem F "RSI" rsi)
        /\ has_column "RSI" (h2 !!! df) = true)
  /\ (forall l, l <> df -> h2 !! l = h1 !! l).
Proof.
  intros Hkey Hne Hmiss Hnet Hres Htruthy Hframe Hnonempty Hon Hfresh.
  unfold get_weekly_data at 1. cbv zeta. rewrite Hmiss.
  rewrite (make_request_with_params net _ key _ (JObj data) c Hkey Hne Hnet).
  cbv [get getitem from_option id]. cbn [and_then]. rewrite !Hres.
  cbn [and_then]. rewrite Htruthy. cbn [negb and_then]. rewrite Hframe.
  cbn [and_then]. unfold new_frame. cbv zeta.
  set (df := fresh (dom h)).
  set (h1 := <[df := F]> h).
  assert (Hdf : h1 !!! df = F)
    by (subst h1; rewrite lookup_total_insert_eq; reflexivity).
  destruct (analyze_ticker_writes_rsi ADXIndicator ticker asset_type df daily_df
              current_price criteria api_client h1) as (rsi & Hrsi & Hh2);
    [rewrite Hdf; exact Hnonempty | exact Hon |].
  rewrite Hdf in Hrsi, Hh2. rewrite Hh2.
  split; [reflexivity|]. split.
  { apply not_elem_of_dom. subst df. apply is_fresh. }
  split; [reflexivity|]. split.
  { unfold get_weekly_data. cbv zeta.
    rewrite cached_frame_store_same.
    apply Qlt_bool_iff in Hfresh. rewrite Hfresh. reflexivity. }
  split.
  - exists rsi. split; [exact Hrsi|]. split.
    + apply lookup_insert_eq.
    + rewrite lookup_total_insert_eq. unfold has_column, setitem. cbn.
      rewrite lookup_insert_eq. reflexivity.
  - intros l Hl. rewrite lookup_insert_ne by congruence. reflexivity.
Qed.

Lemma cached_weekly_frame_gets_rsi_column_witness :
  has_column "RSI" MoreSamples.flat_frame = false
  /\ exists c1 h2,
       get_weekly_data plain_text flat_weeks dead_service "SPY" "2024-06-08"
         "2023-06-09" 3000 3001 c1 h2
       = ((0%nat, ""), [], c1, h2)
       /\ has_column "RSI" (h2 !!! 0%nat) = true.
Proof.
  split; [reflexivity|].
  pose proof (cached_weekly_frame_gets_rsi_column Samples.failing_ta plain_text
                flat_weeks price_service dead_service "SPY" "Stock"
                "2024-06-01" "2023-06-02" "2024-06-08" "2023-06-09" "demo"
                0 1 3000 3001 demo_client ∅
                (<["results" := JArr [JObj (<["c" := JNum (Fin 101)]> ∅)]]> ∅)
                (JArr [JObj (<["c" := JNum (Fin 101)]> ∅)])
                MoreSamples.flat_frame 1%nat None Samples.all_criteria
                Samples.no_earnings eq_refl demo_key_not_empty eq_refl eq_refl
                eq_refl eq_refl eq_refl eq_refl eq_refl eq_refl) as H.
  destruct (get_weekly_data plain_text flat_weeks price_service "SPY"
              "2024-06-01" "2023-06-02" 0 1 demo_client ∅)
    as [[[[df error] sent] c1] h1] eqn:E.
  assert (Hdf : df = 0%nat).
  { apply (f_equal (fun r => r.1.1.1.1)) in E. cbn [fst] in E.
    rewrite <- E. vm_compute. reflexivity. }
  subst df. cbv zeta in H.
  destruct H as (_ & _ & _ & Hagain & (rsi & _ & _ & Hcol) & _).
  eexists c1, _. split; [exact Hagain | exact Hcol].
Defined.
